(** * Persistent agent state: a shallow embedding of
      [nibr/canvas/scripts/persistent_agent.py]

    The development follows the three classes of the module:
    [ToolSerializationEngine] (encoding and decoding of callables),
    [PersistentA1] (one agent, its in-memory dictionaries and its state
    file) and [GlobalAgentManager] (the registry of live agents).

    Python objects are modelled as follows.
    - Dictionaries are insertion-ordered association lists ([PyDict]),
      because [json.dump] writes entries in insertion order.
    - Values handed to or read from the [json] module are terms of [json];
      [dumps] and [loads] follow [json.dump(..., indent=2,
      ensure_ascii=False)] and [json.load].
    - The file system is a finite map from paths to file texts.  A path is
      a directory and a file name, joined as [pathlib] does on POSIX: an
      agent id with a separator names a file in a subdirectory.
      Directories themselves are not modelled: opening a file for writing
      always succeeds, and a directory exists when a file lies under it.
    - Exceptions are values of [exn], which stand for instances of
      Python's [Exception]; a computation that may raise returns a
      [result].  Exceptions that no [except Exception] catches
      ([SystemExit], [KeyboardInterrupt]) are values of [base_exit], and
      a call into foreign code that may also exit returns an [outcome]:
      decoding a callable is modelled both ways, for any foreign code
      ([deserialize_function_raw]) and for foreign code that raises only
      ordinary exceptions ([deserialize_function], which the agent uses).
      Non-termination of re-executed source text is outside the model.
    - An agent is a record; the registry holds references into a list of
      agents, so that two holders of a reference see the same agent.
    - [dill], [inspect], [exec], [tempfile] and the clock are external:
      their outcome on a callable is carried by the callable, their outcome
      on stored text is a parameter ([environment]).  The base class [A1]
      is external too: what its methods return is an argument of the
      methods that call them.

    The file has three parts: the embedding, the properties, and runs of
    the embedding in a small sample world. *)

From Stdlib Require Import Ascii DecimalString DecimalPos DecimalFacts.
From stdpp Require Import base option list strings gmap sorting.

Set Warnings "-register-all".

Local Open Scope string_scope.
Local Open Scope list_scope.
Local Open Scope nat_scope.

(** ** Exceptions and results *)

(** The class of an exception that is an instance of [Exception], which
    is what [except Exception] catches; the exceptions it does not catch
    are those of [base_exit] below. *)
Inductive exn_class :=
| OSError | TypeError | ValueError | KeyError | AttributeError
| OtherException (cls_name : string).

Record exn := mkExn { exn_cls : exn_class; exn_msg : string }.

Inductive result (A : Type) :=
| Ret (a : A)
| Raise (e : exn).
Arguments Ret {A} a.
Arguments Raise {A} e.

#[export] Instance result_ret : MRet result := fun _ a => Ret a.
#[export] Instance result_bind : MBind result := fun _ _ k r =>
  match r with Ret a => k a | Raise e => Raise e end.

(** [try: r except Exception as e: h e] *)
Definition try_except {A} (r : result A) (h : exn → result A) : result A :=
  match r with Ret a => Ret a | Raise e => h e end.

(** The classes caught by [except (OSError, TypeError)]. *)
Definition is_OSError_or_TypeError (c : exn_class) : bool :=
  match c with OSError | TypeError => true | _ => false end.

Definition is_Ret {A} (r : result A) : bool :=
  match r with Ret _ => true | Raise _ => false end.

(** ** Exits and outcomes *)

(** Exceptions that are not instances of [Exception]: they pass every
    [except Exception] handler. *)
Inductive base_exit :=
| SystemExit
| KeyboardInterrupt
| GeneratorExit
| OtherBaseException (cls_name : string).

(** What formatting a caught exception for a log message, [f"... {e}"],
    does: [str(e)] runs code of the class of [e], which returns a text,
    raises in its turn, or exits. *)
Inductive formatting :=
| Formats
| FormatRaises (e : exn) (f : formatting)
| FormatExits (b : base_exit).

(** The outcome of code that may call into foreign code ([dill.loads],
    [exec]): a value, an instance of [Exception] together with what
    formatting it does, or an exit. *)
Inductive outcome (A : Type) :=
| Returns (a : A)
| Throws (e : exn) (f : formatting)
| Exits (b : base_exit).
Arguments Returns {A} a.
Arguments Throws {A} e f.
Arguments Exits {A} b.

#[export] Instance outcome_ret : MRet outcome := fun _ a => Returns a.
#[export] Instance outcome_bind : MBind outcome := fun _ _ k o =>
  match o with
  | Returns a => k a
  | Throws e f => Throws e f
  | Exits b => Exits b
  end.

(** The exceptions the statements of the module raise themselves
    ([KeyError], [AttributeError], [TypeError]) are formatted without
    harm. *)
Definition of_result {A} (r : result A) : outcome A :=
  match r with
  | Ret a => Returns a
  | Raise e => Throws e Formats
  end.

(** An outcome that an [except Exception] handler which logs the
    exception turns into a normal return. *)
Definition ordinary {A} (o : outcome A) : bool :=
  match o with
  | Returns _ | Throws _ Formats => true
  | _ => false
  end.

(** ** Python dictionaries with string keys *)

Module PyDict.
Section Ops.
Context {V : Type}.

Definition t := list (string * V).

Fixpoint get (k : string) (d : t) : option V :=
  match d with
  | [] => None
  | (k', v) :: d' => if String.eqb k k' then Some v else get k d'
  end.

Definition mem (k : string) (d : t) : bool :=
  match get k d with Some _ => true | None => false end.

(** [d[k] = v]: an existing key keeps its position, a new key goes last. *)
Fixpoint set (k : string) (v : V) (d : t) : t :=
  match d with
  | [] => [(k, v)]
  | (k', v') :: d' =>
      if String.eqb k k' then (k', v) :: d' else (k', v') :: set k v d'
  end.

(** [del d[k]] *)
Fixpoint del (k : string) (d : t) : t :=
  match d with
  | [] => []
  | (k', v') :: d' =>
      if String.eqb k k' then d' else (k', v') :: del k d'
  end.

(** [d.update(other)] *)
Definition update (d other : t) : t :=
  fold_left (fun acc kv => set kv.1 kv.2 acc) other d.

Definition keys (d : t) : list string := map fst d.
End Ops.
Arguments t : clear implicits.
End PyDict.

(** ** JSON values *)

(** [JOpaque] stands for a Python object that [json] cannot encode (a class
    used as an annotation, a model client object, ...); it never occurs in
    a value produced by [json.load]. *)
Inductive json :=
| JNull
| JBool (b : bool)
| JInt (z : Z)
| JStr (s : string)
| JList (l : list json)
| JDict (d : list (string * json))
| JOpaque (type_name : string).

Definition jstr_opt (o : option string) : json :=
  match o with Some s => JStr s | None => JNull end.

(** Python truthiness of a decoded value, as in [if source_code:]. *)
Definition truthy (j : json) : bool :=
  match j with
  | JNull => false
  | JBool b => b
  | JInt z => negb (Z.eqb z 0)
  | JStr s => negb (String.eqb s "")
  | JList l => match l with [] => false | _ => true end
  | JDict d => match d with [] => false | _ => true end
  | JOpaque _ => true
  end.



(** ** Text of a JSON value: [json.dump(obj, f, indent=2, ensure_ascii=False)] *)

Definition chr (n : nat) : string := String (Ascii.ascii_of_nat n) "".
Definition dquote : string := chr 34.
Definition backslash : string := chr 92.
Definition newline : string := chr 10.

Definition hex_digit (n : nat) : string :=
  match n with
  | 10 => "a" | 11 => "b" | 12 => "c" | 13 => "d" | 14 => "e" | 15 => "f"
  | _ => chr (48 + n)%nat
  end.

Definition escape_char (c : ascii) : string :=
  let n := Ascii.nat_of_ascii c in
  match n with
  | 34 => backslash +:+ dquote
  | 92 => backslash +:+ backslash
  | 8 => backslash +:+ "b"
  | 9 => backslash +:+ "t"
  | 10 => backslash +:+ "n"
  | 12 => backslash +:+ "f"
  | 13 => backslash +:+ "r"
  | _ =>
      if (n <? 32)%nat
      then backslash +:+ "u00" +:+ hex_digit (n / 16)%nat +:+ hex_digit (n mod 16)%nat
      else String c ""
  end.

Fixpoint escape (s : string) : string :=
  match s with
  | EmptyString => ""
  | String c r => escape_char c +:+ escape r
  end.

Definition encode_str (s : string) : string := dquote +:+ escape s +:+ dquote.

Definition encode_int (z : Z) : string := NilZero.string_of_int (Z.to_int z).

Fixpoint spaces (n : nat) : string :=
  match n with 0 => "" | S n' => "  " +:+ spaces n' end.

Definition newline_indent (level : nat) : string := newline +:+ spaces level.

Definition not_serializable (type_name : string) : exn :=
  mkExn TypeError ("Object of type " +:+ type_name +:+ " is not JSON serializable").

(** The chunks [json.dump] hands to [f.write], in order, and the exception
    that stops it, if any: the chunks before the failure have been written. *)
Fixpoint iterencode (level : nat) (j : json) {struct j} : list string * option exn :=
  match j with
  | JNull => (["null"], None)
  | JBool true => (["true"], None)
  | JBool false => (["false"], None)
  | JInt z => ([encode_int z], None)
  | JStr s => ([encode_str s], None)
  | JOpaque ty => ([], Some (not_serializable ty))
  | JList [] => (["[]"], None)
  | JList l =>
      let fix items (first : bool) (l : list json) : list string * option exn :=
        match l with
        | [] => ([newline_indent level; "]"], None)
        | x :: l' =>
            let sep := (if first then "" else ",") +:+ newline_indent (S level) in
            match iterencode (S level) x with
            | (cs, Some e) => (sep :: cs, Some e)
            | (cs, None) =>
                let '(cs', r) := items false l' in (sep :: cs ++ cs', r)
            end
        end in
      let '(cs, r) := items true l in ("[" :: cs, r)
  | JDict [] => (["{}"], None)
  | JDict d =>
      let fix members (first : bool) (d : list (string * json))
          : list string * option exn :=
        match d with
        | [] => ([newline_indent level; "}"], None)
        | (k, v) :: d' =>
            let sep := (if first then "" else ",") +:+ newline_indent (S level) in
            match iterencode (S level) v with
            | (cs, Some e) => (sep :: encode_str k :: ": " :: cs, Some e)
            | (cs, None) =>
                let '(cs', r) := members false d' in
                (sep :: encode_str k :: ": " :: cs ++ cs', r)
            end
        end in
      let '(cs, r) := members true d in ("{" :: cs, r)
  end.

Definition concat_chunks (cs : list string) : string :=
  foldr String.append "" cs.

(** [json.dumps]: the whole text, or the exception. *)
Definition dumps (j : json) : result string :=
  match iterencode 0 j with
  | (cs, None) => Ret (concat_chunks cs)
  | (_, Some e) => Raise e
  end.

(** ** Reading a JSON text: [json.load]

    Integers, strings, booleans, null, arrays and objects are read; a text
    with a fractional or exponent part is refused here (the persisted
    schema has no floating-point field).  As in Python, a repeated key of an
    object keeps its first position and its last value. *)

Definition code (c : ascii) : nat := Ascii.nat_of_ascii c.

Definition is_ws (c : ascii) : bool :=
  match code c with 32 | 9 | 10 | 13 => true | _ => false end.

Fixpoint skip_ws (s : string) : string :=
  match s with
  | String c r => if is_ws c then skip_ws r else s
  | EmptyString => s
  end.

Definition hex_val (c : ascii) : option nat :=
  let n := code c in
  if (48 <=? n)%nat && (n <=? 57)%nat then Some (n - 48)%nat
  else if (97 <=? n)%nat && (n <=? 102)%nat then Some (n - 87)%nat
  else if (65 <=? n)%nat && (n <=? 70)%nat then Some (n - 55)%nat
  else None.

(** UTF-8 bytes of a code point of the basic plane. *)
Definition utf8 (n : nat) : string :=
  if (n <? 128)%nat then chr n
  else if (n <? 2048)%nat then chr (192 + n / 64)%nat +:+ chr (128 + n mod 64)%nat
  else chr (224 + n / 4096)%nat +:+ chr (128 + (n / 64) mod 64)%nat
       +:+ chr (128 + n mod 64)%nat.

(** The characters of a string literal after its opening quote, and the rest
    of the text after its closing quote. *)
Fixpoint parse_chars (s : string) : option (string * string) :=
  match s with
  | EmptyString => None
  | String c r =>
      match code c with
      | 34 => Some ("", r)
      | 92 =>
          match r with
          | String e r' =>
              let lit (x : string) :=
                p ← parse_chars r'; Some (x +:+ p.1, p.2) in
              match code e with
              | 34 => lit dquote
              | 92 => lit backslash
              | 47 => lit "/"
              | 98 => lit (chr 8)
              | 102 => lit (chr 12)
              | 110 => lit (chr 10)
              | 114 => lit (chr 13)
              | 116 => lit (chr 9)
              | 117 =>
                  match r' with
                  | String h1 (String h2 (String h3 (String h4 r''))) =>
                      a ← hex_val h1; b ← hex_val h2;
                      c ← hex_val h3; d ← hex_val h4;
                      p ← parse_chars r'';
                      Some (utf8 (((a * 16 + b) * 16 + c) * 16 + d)%nat +:+ p.1, p.2)
                  | _ => None
                  end
              | _ => None
              end
          | EmptyString => None
          end
      | n =>
          if (n <? 32)%nat then None
          else p ← parse_chars r; Some (String c p.1, p.2)
      end
  end.

Definition is_digit (c : ascii) : bool :=
  (48 <=? code c)%nat && (code c <=? 57)%nat.

Fixpoint parse_digits (acc : Z) (s : string) : Z * string :=
  match s with
  | String c r =>
      if is_digit c then parse_digits (acc * 10 + Z.of_nat (code c - 48)) r
      else (acc, s)
  | EmptyString => (acc, s)
  end.

Definition starts_fraction (s : string) : bool :=
  match s with
  | String c _ => match code c with 46 | 101 | 69 => true | _ => false end
  | EmptyString => false
  end.

(** An optional minus sign, then [0] or a digit string without leading zero. *)
Definition parse_int (s : string) : option (Z * string) :=
  let unsigned (s : string) :=
    match s with
    | String c r =>
        if is_digit c then
          let '(z, rest) :=
            if (code c =? 48)%nat then (0%Z, r) else parse_digits 0 s in
          if starts_fraction rest then None else Some (z, rest)
        else None
    | EmptyString => None
    end in
  match s with
  | String c r =>
      if (code c =? 45)%nat
      then p ← unsigned r; Some ((- p.1)%Z, p.2)
      else unsigned s
  | EmptyString => None
  end.

Fixpoint strip_prefix (p s : string) : option string :=
  match p, s with
  | EmptyString, _ => Some s
  | String a p', String b s' => if Ascii.eqb a b then strip_prefix p' s' else None
  | String _ _, EmptyString => None
  end.

Fixpoint parse_value (fuel : nat) (s : string) : option (json * string) :=
  match fuel with
  | 0 => None
  | S fuel =>
      match skip_ws s with
      | EmptyString => None
      | String c r as s' =>
          match code c with
          | 123 =>
              match skip_ws r with
              | String c' r' =>
                  if (code c' =? 125)%nat then Some (JDict [], r')
                  else parse_members fuel r []
              | EmptyString => None
              end
          | 91 =>
              match skip_ws r with
              | String c' r' =>
                  if (code c' =? 93)%nat then Some (JList [], r')
                  else parse_elems fuel r []
              | EmptyString => None
              end
          | 34 => p ← parse_chars r; Some (JStr p.1, p.2)
          | 116 => rest ← strip_prefix "true" s'; Some (JBool true, rest)
          | 102 => rest ← strip_prefix "false" s'; Some (JBool false, rest)
          | 110 => rest ← strip_prefix "null" s'; Some (JNull, rest)
          | _ => p ← parse_int s'; Some (JInt p.1, p.2)
          end
      end
  end
with parse_elems (fuel : nat) (s : string) (acc : list json)
    : option (json * string) :=
  match fuel with
  | 0 => None
  | S fuel =>
      p ← parse_value fuel s;
      match skip_ws p.2 with
      | String c r =>
          match code c with
          | 44 => parse_elems fuel r (acc ++ [p.1])
          | 93 => Some (JList (acc ++ [p.1]), r)
          | _ => None
          end
      | EmptyString => None
      end
  end
with parse_members (fuel : nat) (s : string) (acc : list (string * json))
    : option (json * string) :=
  match fuel with
  | 0 => None
  | S fuel =>
      match skip_ws s with
      | String q r =>
          if (code q =? 34)%nat then
            k ← parse_chars r;
            match skip_ws k.2 with
            | String c r' =>
                if (code c =? 58)%nat then
                  p ← parse_value fuel r';
                  let acc' := PyDict.set k.1 p.1 acc in
                  match skip_ws p.2 with
                  | String c' r'' =>
                      match code c' with
                      | 44 => parse_members fuel r'' acc'
                      | 125 => Some (JDict acc', r'')
                      | _ => None
                      end
                  | EmptyString => None
                  end
                else None
            | EmptyString => None
            end
          else None
      | EmptyString => None
      end
  end.

Definition JSONDecodeError (msg : string) : exn := mkExn ValueError msg.

Definition loads (s : string) : result json :=
  match parse_value (2 * String.length s + 2) s with
  | Some (j, rest) =>
      match skip_ws rest with
      | EmptyString => Ret j
      | String _ _ => Raise (JSONDecodeError "Extra data")
      end
  | None => Raise (JSONDecodeError "Expecting value")
  end.

(** ** Values that can be written and read back

    [encodable]: no object that [json] refuses occurs in the value.
    [well_keyed]: no object of the value repeats a key, as for every Python
    dictionary; an association list that repeats one is written with both
    entries and read back with one. *)

Fixpoint encodable (j : json) : bool :=
  match j with
  | JOpaque _ => false
  | JList l => forallb encodable l
  | JDict d => forallb (fun kv => encodable kv.2) d
  | _ => true
  end.

Fixpoint well_keyed (j : json) : bool :=
  match j with
  | JList l => forallb well_keyed l
  | JDict d =>
      bool_decide (NoDup (PyDict.keys d)) && forallb (fun kv => well_keyed kv.2) d
  | _ => true
  end.

(** The loops of [iterencode] over the items of a list and the members of
    a dictionary, with the encoder of the elements as a parameter. *)
Section Items.
Variable level : nat.
Variable enc : json → list string * option exn.

Fixpoint encode_items (first : bool) (l : list json) : list string * option exn :=
  match l with
  | [] => ([newline_indent level; "]"], None)
  | x :: l' =>
      let sep := (if first then "" else ",") +:+ newline_indent (S level) in
      match enc x with
      | (cs, Some e) => (sep :: cs, Some e)
      | (cs, None) =>
          let '(cs', r) := encode_items false l' in (sep :: cs ++ cs', r)
      end
  end.

Fixpoint encode_members (first : bool) (d : list (string * json))
    : list string * option exn :=
  match d with
  | [] => ([newline_indent level; "}"], None)
  | (k, v) :: d' =>
      let sep := (if first then "" else ",") +:+ newline_indent (S level) in
      match enc v with
      | (cs, Some e) => (sep :: encode_str k :: ": " :: cs, Some e)
      | (cs, None) =>
          let '(cs', r) := encode_members false d' in
          (sep :: encode_str k :: ": " :: cs ++ cs', r)
      end
  end.

End Items.

(** The text written for a value at an indentation level, whether or not
    the dump ran to its end. *)
Definition render (level : nat) (j : json) : string :=
  concat_chunks (iterencode level j).1.

Definition items_text (level : nat) (l : list json) : string :=
  concat_chunks (encode_items level (iterencode (S level)) false l).1.

Definition members_text (level : nat) (d : list (string * json)) : string :=
  concat_chunks (encode_members level (iterencode (S level)) false d).1.

(** Measures and side conditions of the reading of a written text: the
    number of nodes of a value (the fuel its reading needs), the texts that
    may follow a number or a value, and the texts a value may start. *)
Fixpoint json_size (j : json) : nat :=
  match j with
  | JList l => S (list_sum (map (fun x => S (json_size x)) l))
  | JDict d => S (list_sum (map (fun kv => S (json_size kv.2)) d))
  | _ => 1
  end.

Definition elems_size (l : list json) : nat :=
  list_sum (map (fun x => S (json_size x)) l).

Definition members_size (d : list (string * json)) : nat :=
  list_sum (map (fun kv : string * json => S (json_size kv.2)) d).

Definition after_number (rest : string) : Prop :=
  match rest with
  | String c _ => is_digit c = false ∧ starts_fraction rest = false
  | EmptyString => True
  end.

Definition after_value (rest : string) : Prop :=
  match rest with
  | String c _ => code c = 44 ∨ code c = 10
  | EmptyString => True
  end.

Definition starts_value (s : string) : Prop :=
  match s with
  | String c _ => is_ws c = false ∧ (code c =? 93) = false ∧ (code c =? 125) = false
  | EmptyString => False
  end.

(** The text of a value, followed by a separator, is read back as the
    value. *)
Definition reads_back (j : json) : Prop :=
  ∀ level fuel rest, json_size j ≤ fuel → after_value rest →
    parse_value fuel (render level j +:+ rest) = Some (j, rest).

(** What [parse_members] does once it has read a key and its value. *)
Definition members_next (fuel : nat) (k : string) (acc : list (string * json))
    (p : json * string) : option (json * string) :=
  let acc' := PyDict.set k p.1 acc in
  match skip_ws p.2 with
  | String c' r'' =>
      match code c' with
      | 44 => parse_members fuel r'' acc'
      | 125 => Some (JDict acc', r'')
      | _ => None
      end
  | EmptyString => None
  end.

(** ** Paths *)

(** A path is a directory and a final component; [state_dir / name] is
    [mkPath state_dir name]. *)
Record Path := mkPath { parent : string; name : string }.

#[export] Instance Path_eq_dec : EqDecision Path.
Proof. solve_decision. Defined.

#[export] Instance Path_countable : Countable Path :=
  inj_countable' (fun p => (parent p, name p)) (fun q => mkPath q.1 q.2)
    (fun p => match p with mkPath _ _ => eq_refl end).

(** [name.rfind('.')] *)
Fixpoint rfind_dot (s : string) : option nat :=
  match s with
  | EmptyString => None
  | String c r =>
      match rfind_dot r with
      | Some i => Some (S i)
      | None => if (code c =? 46)%nat then Some 0 else None
      end
  end.

(** Index at which the suffix of a file name starts, when it has one:
    [0 < i < len(name) - 1]. *)
Definition suffix_start (n : string) : option nat :=
  match rfind_dot n with
  | Some i =>
      if (0 <? i)%nat && (i <? String.length n - 1)%nat then Some i else None
  | None => None
  end.

(** [PurePath.suffix] *)
Definition suffix (n : string) : string :=
  match suffix_start n with
  | Some i => String.substring i (String.length n - i) n
  | None => ""
  end.

(** [PurePath.stem] *)
Definition stem (n : string) : string :=
  match suffix_start n with
  | Some i => String.substring 0 i n
  | None => n
  end.

(** [PurePath.with_suffix]; the names it is applied to end in [.json] and
    are never empty, so its [ValueError] for an empty name cannot occur. *)
Definition with_suffix (p : Path) (sfx : string) : Path :=
  mkPath (parent p) (stem (name p) +:+ sfx).

(** The pieces of a path text between separators. *)
Fixpoint pieces (s : string) : list string :=
  match s with
  | EmptyString => [""]
  | String c r =>
      if (code c =? 47)%nat then "" :: pieces r
      else match pieces r with
           | p :: ps => String c p :: ps
           | [] => [String c ""]
           end
  end.

(** The components of a path text: empty pieces and [.] are dropped, [..]
    is kept, as [PurePosixPath] does. *)
Definition is_component (p : string) : bool :=
  negb (String.eqb p "") && negb (String.eqb p ".").

Definition components (s : string) : list string := filter is_component (pieces s).

(** The root of a path text: [/], or [//] for exactly two leading
    separators. *)
Definition root (s : string) : option string :=
  match s with
  | String c1 (String c2 (String c3 _)) =>
      if (code c1 =? 47)%nat then
        if (code c2 =? 47)%nat && negb (code c3 =? 47)%nat then Some "//"
        else Some "/"
      else None
  | String c1 (String c2 EmptyString) =>
      if (code c1 =? 47)%nat then
        if (code c2 =? 47)%nat then Some "//" else Some "/"
      else None
  | String c1 EmptyString => if (code c1 =? 47)%nat then Some "/" else None
  | EmptyString => None
  end.

Definition slashed (cs : list string) : string := String.concat "/" cs.

(** [Path(dir) / s] for a text [s] that has a last component, [dir] being
    the text of a directory: an absolute [s] replaces [dir], and the
    components of [s] before the last one select a subdirectory. *)
Definition joinpath (dir s : string) : Path :=
  let cs := components s in
  let dirs := removelast cs in
  match root s with
  | Some r => mkPath (r +:+ slashed dirs) (List.last cs "")
  | None =>
      mkPath (match dirs with
              | [] => dir
              | _ => dir +:+ "/" +:+ slashed dirs
              end) (List.last cs "")
  end.

(** [Path(dir) / s] as the text of a directory. *)
Definition joindir (dir s : string) : string :=
  match root s with
  | Some r => r +:+ slashed (components s)
  | None =>
      match components s with
      | [] => dir
      | cs => dir +:+ "/" +:+ slashed cs
      end
  end.

(** A text without separator: as an agent id, it names a state file that
    lies in the state directory itself. *)
Fixpoint no_separator (s : string) : bool :=
  match s with
  | EmptyString => true
  | String c r => negb (code c =? 47)%nat && no_separator r
  end.

(** The last piece of a text: what follows its last separator. *)
Definition basename (s : string) : string := List.last (pieces s) "".

(** A text that is one component of a path and not [..]: as an agent id,
    it names a file of the state directory and directories of its own under
    [tools] and [data]. *)
Definition is_file_name (s : string) : bool :=
  no_separator s && is_component s && negb (String.eqb s "..").

(** [fnmatch(name, '*.json')] *)
Fixpoint ends_with (sfx s : string) : bool :=
  String.eqb sfx s ||
  match s with
  | String _ r => ends_with sfx r
  | EmptyString => false
  end.

(** ** The file system *)

Abbreviation files := (gmap Path string).

Inductive fs_op :=
| OpenW (p : Path)                 (* open(p, 'w'): create or truncate *)
| WriteChunk (p : Path) (c : string) (* f.write(c) *)
| Replace (src dst : Path)         (* src.replace(dst): atomic rename *)
| Unlink (p : Path).               (* os.unlink(p) / p.unlink() *)

Definition apply_op (fs : files) (op : fs_op) : files :=
  match op with
  | OpenW p => <[p := ""]> fs
  | WriteChunk p c => alter (fun t => t +:+ c) p fs
  | Replace src dst =>
      match fs !! src with
      | Some t => <[dst := t]> (delete src fs)
      | None => fs
      end
  | Unlink p => delete p fs
  end.

Definition run_ops (ops : list fs_op) (fs : files) : files :=
  foldl apply_op fs ops.

(** A file lies under a directory: in it, or in one of its
    subdirectories. *)
Definition under (dir : string) (p : Path) : bool :=
  String.eqb (parent p) dir || String.prefix (dir +:+ "/") (parent p).

(** [shutil.rmtree(dir)], for a [dir] without [..]: the files under it are
    gone.  Without files under it the directory is taken not to exist,
    and nothing is removed. *)
Definition rmtree (dir : string) (f : files) : files :=
  filter (fun kv => under dir kv.1 = false) f.

(** An operation that opens or writes the file [p] and touches no other. *)
Definition writes_only (p : Path) (op : fs_op) : Prop :=
  match op with
  | OpenW q | WriteChunk q _ => q = p
  | _ => False
  end.

(** [with open(p, 'w') as f: json.dump(j, f, indent=2, ensure_ascii=False)]:
    the operations performed and whether the dump raised. *)
Definition write_json_ops (p : Path) (j : json) : list fs_op * option exn :=
  let '(chunks, err) := iterencode 0 j in
  (OpenW p :: map (WriteChunk p) chunks, err).

(** ** Callables and the external environment *)

(** A callable with the attributes the engine reads and the outcome of the
    two library calls made on it: [dill.dumps] followed by the base64 text
    encoding, and [inspect.getsource].  Every callable here has a
    [__name__]: [add_tool] stores a tool under it, and the engine raises
    for an object without one. *)
Record callable := mkCallable {
  fn_name : string;
  fn_doc : option string;
  fn_module : option string;
  fn_qualname : option string;
  fn_annotations : PyDict.t json;
  fn_dill : result string;
  fn_source : result string
}.

Inductive pyobject :=
| PyCallable (f : callable)
| PyData.

(** Foreign code that returns or raises an instance of [Exception] which
    can be formatted; foreign code that may do anything else is an
    [interpreter], below. *)
Record environment := mkEnv {
  (** [dill.loads(base64.b64decode(text.encode('utf-8')))], for payloads
      that are those of callables *)
  dill_loads : string → result callable;
  (** the globals left by [exec(source, {})] *)
  py_exec : string → result (PyDict.t pyobject);
  (** [datetime.now().isoformat()] at the n-th reading of the clock *)
  isoformat : nat → string;
  (** the name chosen by the n-th [tempfile.NamedTemporaryFile] *)
  tmp_name : nat → Path
}.

(** ** ToolSerializationEngine *)

Section Engine.
Variable env : environment.

Definition doc_or_empty (f : callable) : json :=
  JStr (default "" (fn_doc f)).

(** Body of the [try] of [serialize_function], from clock reading [t]:
    the record or the exception, and the clock afterwards. *)
Definition dill_tier (f : callable) (t : nat) : result json * nat :=
  match fn_dill f with
  | Raise e => (Raise e, t)
  | Ret encoded_bytes =>
      let metadata :=
        [("name", JStr (fn_name f));
         ("doc", doc_or_empty f);
         ("module", jstr_opt (fn_module f));
         ("qualname", jstr_opt (fn_qualname f));
         ("annotations", JDict (fn_annotations f));
         ("serialization_method", JStr "dill");
         ("serialized_data", JStr encoded_bytes);
         ("timestamp", JStr (isoformat env t))] in
      match fn_source f with
      | Ret src =>
          (Ret (JDict (PyDict.set "source_code" (JStr src) metadata)), S t)
      | Raise e =>
          if is_OSError_or_TypeError (exn_cls e)
          then (Ret (JDict (PyDict.set "source_code" JNull metadata)), S t)
          else (Raise e, S t)
      end
  end.

Definition _fallback_serialization (f : callable) (t : nat) : json * nat :=
  match fn_source f with
  | Ret source_code =>
      (JDict [("name", JStr (fn_name f));
              ("doc", doc_or_empty f);
              ("source_code", JStr source_code);
              ("serialization_method", JStr "source_code");
              ("timestamp", JStr (isoformat env t))], S t)
  | Raise e =>
      (JDict [("name", JStr (fn_name f));
              ("doc", doc_or_empty f);
              ("serialization_method", JStr "metadata_only");
              ("error", JStr (exn_msg e));
              ("timestamp", JStr (isoformat env t))], S t)
  end.

Definition serialize_function (f : callable) (t : nat) : json * nat :=
  match dill_tier f t with
  | (Ret metadata, t') => (metadata, t')
  | (Raise _, t') => _fallback_serialization f t'
  end.

(** [metadata[k]] *)
Definition getitem (k : string) (d : PyDict.t json) : result json :=
  match PyDict.get k d with
  | Some v => Ret v
  | None => Raise (mkExn KeyError k)
  end.

Definition method_is (m : string) (metadata : PyDict.t json) : bool :=
  match PyDict.get "serialization_method" metadata with
  | Some (JStr s) => String.eqb s m
  | _ => false
  end.

(** [func_name in exec_globals and callable(exec_globals[func_name])] *)
Definition lookup_callable (func_name : json) (exec_globals : PyDict.t pyobject)
    : result (option callable) :=
  match func_name with
  | JStr n =>
      match PyDict.get n exec_globals with
      | Some (PyCallable f) => Ret (Some f)
      | _ => Ret None
      end
  | JList _ | JDict _ => Raise (mkExn TypeError "unhashable type")
  | _ => Ret None
  end.

(** The last two lines of the [try]: the warning reads [metadata['name']]. *)
Definition could_not_deserialize (metadata : PyDict.t json)
    : result (option callable) :=
  _ ← getitem "name" metadata; Ret None.

(** Body of the [try] of [deserialize_function], for foreign code that
    returns or raises an ordinary exception. *)
Definition deserialize_body (metadata : PyDict.t json) : result (option callable) :=
  if method_is "dill" metadata then
    encoded_bytes ← getitem "serialized_data" metadata;
    text ← match encoded_bytes with
           | JStr s => Ret s
           | _ => Raise (mkExn AttributeError "encode")
           end;
    func ← dill_loads env text;
    _ ← getitem "name" metadata;
    Ret (Some func)
  else if method_is "source_code" metadata then
    source_code ← getitem "source_code" metadata;
    if truthy source_code then
      text ← match source_code with
             | JStr s => Ret s
             | _ => Raise (mkExn TypeError "exec() arg 1 must be a string")
             end;
      exec_globals ← py_exec env text;
      func_name ← getitem "name" metadata;
      found ← lookup_callable func_name exec_globals;
      match found with
      | Some func => Ret (Some func)
      | None => could_not_deserialize metadata
      end
    else could_not_deserialize metadata
  else could_not_deserialize metadata.

(** [deserialize_function] for the foreign code of an [environment], which
    returns or raises an ordinary exception: the handler then logs and
    returns [None].  It is [deserialize_function_raw] at the interpreter
    of the environment (lemma [deserialize_function_raw_env]). *)
Definition deserialize_function (metadata : PyDict.t json)
    : result (option callable) :=
  try_except (deserialize_body metadata) (fun _ => Ret None).

End Engine.

(** *** Decoding, whatever the foreign code does

    [dill.loads] and [exec] run code that the record brings along: besides
    returning or raising an ordinary exception, it may exit, or raise an
    exception that cannot be formatted. *)
Record interpreter := mkInterpreter {
  (** [dill.loads(base64.b64decode(text.encode('utf-8')))] *)
  run_dill_loads : string → outcome callable;
  (** the globals left by [exec(source, {})] *)
  run_exec : string → outcome (PyDict.t pyobject)
}.

(** The interpreter of an [environment]: foreign code that returns or
    raises an ordinary exception. *)
Definition interpreter_of (env : environment) : interpreter :=
  mkInterpreter (fun text => of_result (dill_loads env text))
    (fun source => of_result (py_exec env source)).

Section Decoding.
Variable python : interpreter.

(** Body of the [try] of [deserialize_function]. *)
Definition deserialize_body_raw (metadata : PyDict.t json)
    : outcome (option callable) :=
  if method_is "dill" metadata then
    encoded_bytes ← of_result (getitem "serialized_data" metadata);
    text ← match encoded_bytes with
           | JStr s => Returns s
           | _ => of_result (Raise (mkExn AttributeError "encode"))
           end;
    func ← run_dill_loads python text;
    _ ← of_result (getitem "name" metadata);
    Returns (Some func)
  else if method_is "source_code" metadata then
    source_code ← of_result (getitem "source_code" metadata);
    if truthy source_code then
      text ← match source_code with
             | JStr s => Returns s
             | _ => of_result
                      (Raise (mkExn TypeError "exec() arg 1 must be a string"))
             end;
      exec_globals ← run_exec python text;
      func_name ← of_result (getitem "name" metadata);
      found ← of_result (lookup_callable func_name exec_globals);
      match found with
      | Some func => Returns (Some func)
      | None => of_result (could_not_deserialize metadata)
      end
    else of_result (could_not_deserialize metadata)
  else of_result (could_not_deserialize metadata).

(** [except Exception as e: logger.error(f"... {e}"); return None]: an
    exit is not caught, and formatting the exception may raise or exit in
    the handler. *)
Definition return_None_on_error (o : outcome (option callable))
    : outcome (option callable) :=
  match o with
  | Returns r => Returns r
  | Throws e Formats => Returns None
  | Throws e (FormatRaises e' f) => Throws e' f
  | Throws e (FormatExits b) => Exits b
  | Exits b => Exits b
  end.

Definition deserialize_function_raw (metadata : PyDict.t json)
    : outcome (option callable) :=
  return_None_on_error (deserialize_body_raw metadata).

(** [deserialize_function] on whatever [json.load] gave for a record.  A
    value that is no dictionary has no [get]: the first statement of the
    [try] raises [AttributeError], and so does the [metadata.get] of the
    handler, whose exception reaches the caller. *)
Definition deserialize_function_loaded (metadata : json)
    : outcome (option callable) :=
  match metadata with
  | JDict d => deserialize_function_raw d
  | _ => of_result (Raise (mkExn AttributeError "get"))
  end.

End Decoding.

(** The backup [inspect.getsource] of the first tier returned, or raised
    one of the two classes that [serialize_function] tolerates. *)
Definition source_tolerated (f : callable) : bool :=
  match fn_source f with
  | Ret _ => true
  | Raise e => is_OSError_or_TypeError (exn_cls e)
  end.

(** ** PersistentA1 *)

(** Attributes the base class [A1] may have set on the instance; [None] is
    an absent attribute, for which [getattr] takes its default. *)
Record provider_attrs := mkAttrs {
  attr_path : option json;
  attr_llm : option json;
  attr_use_tool_retriever : option json;
  attr_timeout_seconds : option json
}.

(** The fields of one agent.  The three dictionaries are attributes created
    on first use: [None] is [not hasattr(self, ...)]. *)
Record PersistentA1 := mkAgent {
  agent_id : string;
  state_dir : string;
  auto_save_enabled : bool;
  state_dirty : bool;
  custom_tools : option (PyDict.t callable);
  custom_data : option (PyDict.t json);
  custom_software : option (PyDict.t json);
  original_config : option json;
  provider : provider_attrs
}.

Definition set_tools (v : option (PyDict.t callable)) (a : PersistentA1) :=
  mkAgent (agent_id a) (state_dir a) (auto_save_enabled a) (state_dirty a)
    v (custom_data a) (custom_software a) (original_config a) (provider a).
Definition set_data (v : option (PyDict.t json)) (a : PersistentA1) :=
  mkAgent (agent_id a) (state_dir a) (auto_save_enabled a) (state_dirty a)
    (custom_tools a) v (custom_software a) (original_config a) (provider a).
Definition set_software (v : option (PyDict.t json)) (a : PersistentA1) :=
  mkAgent (agent_id a) (state_dir a) (auto_save_enabled a) (state_dirty a)
    (custom_tools a) (custom_data a) v (original_config a) (provider a).
Definition set_dirty (b : bool) (a : PersistentA1) :=
  mkAgent (agent_id a) (state_dir a) (auto_save_enabled a) b
    (custom_tools a) (custom_data a) (custom_software a) (original_config a)
    (provider a).
Definition set_config (c : json) (a : PersistentA1) :=
  mkAgent (agent_id a) (state_dir a) (auto_save_enabled a) (state_dirty a)
    (custom_tools a) (custom_data a) (custom_software a) (Some c) (provider a).

(** The identity of an agent: its id, its directory, its auto-save flag and
    the attributes of the base class. *)
Definition same_agent (a a' : PersistentA1) : Prop :=
  agent_id a' = agent_id a ∧ state_dir a' = state_dir a ∧
  auto_save_enabled a' = auto_save_enabled a ∧ provider a' = provider a.

(** [self.state_file = self.state_dir / f"{agent_id}.json"] *)
Definition state_file (a : PersistentA1) : Path :=
  joinpath (state_dir a) (agent_id a +:+ ".json").

(** What the agent's methods read and change outside the agent. *)
Record world := mkWorld { fs : files; clock : nat }.

Definition as_dict (j : json) : result (PyDict.t json) :=
  match j with
  | JDict d => Ret d
  | _ => Raise (mkExn AttributeError "items")
  end.

Fixpoint contains (p s : string) : bool :=
  match strip_prefix p s with
  | Some _ => true
  | None => match s with String _ r => contains p r | EmptyString => false end
  end.

Definition is_JStr (k : string) (j : json) : bool :=
  match j with JStr s => String.eqb s k | _ => false end.

(** [state[k] if k in state else nothing], for whatever [json.load] gave. *)
Definition state_field (k : string) (state : json) : result (option json) :=
  let not_subscriptable := Raise (mkExn TypeError "indices must be integers") in
  match state with
  | JDict d => Ret (PyDict.get k d)
  | JList l => if existsb (is_JStr k) l then not_subscriptable else Ret None
  | JStr s => if contains k s then not_subscriptable else Ret None
  | _ => Raise (mkExn TypeError "argument is not iterable")
  end.

Section Agent.
Variable env : environment.

(** [_serialize_custom_tools]: one record per tool, in dictionary order;
    every record reads the clock. *)
Fixpoint serialize_tools (tools : PyDict.t callable) (acc : PyDict.t json)
    (t : nat) : PyDict.t json * nat :=
  match tools with
  | [] => (acc, t)
  | (tool_name, tool_func) :: rest =>
      let '(metadata, t') := serialize_function env tool_func t in
      serialize_tools rest (PyDict.set tool_name metadata acc) t'
  end.

Definition _serialize_custom_tools (a : PersistentA1) (t : nat)
    : PyDict.t json * nat :=
  match custom_tools a with
  | None => ([], t)
  | Some tools => serialize_tools tools [] t
  end.

Definition agent_config (a : PersistentA1) : json :=
  JDict [("path", default (JStr "./data") (attr_path (provider a)));
         ("llm", default (JStr "claude-3-5-sonnet-20241022") (attr_llm (provider a)));
         ("use_tool_retriever",
          default (JBool true) (attr_use_tool_retriever (provider a)));
         ("timeout_seconds",
          default (JInt 600) (attr_timeout_seconds (provider a)))].

(** The dictionary [state] built by [_save_persistent_state]. *)
Definition saved_state (a : PersistentA1) (t : nat) : json * nat :=
  let timestamp := isoformat env t in
  let '(tools, t') := _serialize_custom_tools a (S t) in
  (JDict [("agent_id", JStr (agent_id a));
          ("timestamp", JStr timestamp);
          ("agent_config", agent_config a);
          ("custom_tools", JDict tools);
          ("custom_data", JDict (default [] (custom_data a)));
          ("custom_software", JDict (default [] (custom_software a)));
          ("version", JStr "1.0")], t').

Definition temp_file (a : PersistentA1) : Path :=
  with_suffix (state_file a) ".tmp".

(** File operations of one save, in order, and whether the body of the
    [try] ran to its end: the rename is reached only if the dump did not
    raise. *)
Definition save_ops (a : PersistentA1) (t : nat) : list fs_op * bool :=
  let '(ops, err) := write_json_ops (temp_file a) (saved_state a t).1 in
  match err with
  | None => ((ops ++ [Replace (temp_file a) (state_file a)])%list, true)
  | Some _ => (ops, false)
  end.

Definition _save_persistent_state (a : PersistentA1) (w : world)
    : PersistentA1 * world :=
  if negb (auto_save_enabled a) then (a, w)
  else
    let '(ops, ok) := save_ops a (clock w) in
    let w' := mkWorld (run_ops ops (fs w)) (saved_state a (clock w)).2 in
    (if ok then set_dirty false a else a, w').

(** [save_state] *)
Definition save_state (a : PersistentA1) (w : world) : PersistentA1 * world :=
  _save_persistent_state a w.

Definition maybe_save (a : PersistentA1) (w : world) : PersistentA1 * world :=
  if auto_save_enabled a then _save_persistent_state a w else (a, w).

(** *** Restoring *)

Definition ensure_tools (a : PersistentA1) : PersistentA1 :=
  match custom_tools a with None => set_tools (Some []) a | Some _ => a end.
Definition ensure_data (a : PersistentA1) : PersistentA1 :=
  match custom_data a with None => set_data (Some []) a | Some _ => a end.
Definition ensure_software (a : PersistentA1) : PersistentA1 :=
  match custom_software a with None => set_software (Some []) a | Some _ => a end.

(** One turn of the loop of [_restore_custom_tools]; a record that is not
    a dictionary makes [deserialize_function] raise, which the loop
    catches like a failed decoding. *)
Definition restore_tool (tools : PyDict.t callable) (entry : string * json)
    : PyDict.t callable :=
  match entry.2 with
  | JDict metadata =>
      match deserialize_function env metadata with
      | Ret (Some func) => PyDict.set entry.1 func tools
      | _ => tools
      end
  | _ => tools
  end.

(** The callable an entry of an imported [custom_tools] decodes to. *)
Definition decode_entry (record : json) : option callable :=
  match record with
  | JDict metadata =>
      match deserialize_function env metadata with
      | Ret (Some func) => Some func
      | _ => None
      end
  | _ => None
  end.

Definition _restore_custom_tools (a : PersistentA1) (tools_data : json)
    : PersistentA1 * result unit :=
  let a := ensure_tools a in
  match as_dict tools_data with
  | Raise e => (a, Raise e)
  | Ret d =>
      (set_tools (Some (foldl restore_tool (default [] (custom_tools a)) d)) a,
       Ret ())
  end.

Definition _restore_custom_data (a : PersistentA1) (data_dict : json)
    : PersistentA1 * result unit :=
  let a := ensure_data a in
  match as_dict data_dict with
  | Raise e => (a, Raise e)
  | Ret d =>
      (set_data (Some (PyDict.update (default [] (custom_data a)) d)) a, Ret ())
  end.

Definition _restore_custom_software (a : PersistentA1) (software_dict : json)
    : PersistentA1 * result unit :=
  let a := ensure_software a in
  match as_dict software_dict with
  | Raise e => (a, Raise e)
  | Ret d =>
      (set_software (Some (PyDict.update (default [] (custom_software a)) d)) a,
       Ret ())
  end.

Definition _restore_agent_config (a : PersistentA1) (config : json)
    : PersistentA1 * result unit :=
  (set_config config a, Ret ()).

(** [if k in state: restore(state[k])], inside a [try]: the agent as
    changed so far, and the exception if one was raised. *)
Definition restore_field (k : string)
    (restore : PersistentA1 → json → PersistentA1 * result unit)
    (state : json) (acc : PersistentA1 * result unit)
    : PersistentA1 * result unit :=
  match acc with
  | (a, Raise e) => (a, Raise e)
  | (a, Ret _) =>
      match state_field k state with
      | Raise e => (a, Raise e)
      | Ret None => (a, Ret ())
      | Ret (Some v) => restore a v
      end
  end.

Definition _load_persistent_state (a : PersistentA1) (w : world) : PersistentA1 :=
  match fs w !! state_file a with
  | None => a
  | Some text =>
      match loads text with
      | Raise _ => a
      | Ret state =>
          (restore_field "agent_config" _restore_agent_config state
             (restore_field "custom_software" _restore_custom_software state
                (restore_field "custom_data" _restore_custom_data state
                   (restore_field "custom_tools" _restore_custom_tools state
                      (a, Ret ()))))).1
      end
  end.

(** *** Adding and removing *)

Definition jstr_values (d : PyDict.t string) : PyDict.t json :=
  map (fun kv => (kv.1, JStr kv.2)) d.

(** [add_tool]; [super_result] is what the base class's [add_tool] did,
    called first: if it raises, nothing else happens. *)
Definition add_tool (a : PersistentA1) (api : callable)
    (super_result : result json) (w : world)
    : PersistentA1 * world * result json :=
  match super_result with
  | Raise e => (a, w, Raise e)
  | Ret r =>
      let a := ensure_tools a in
      let a := set_tools (Some (PyDict.set (fn_name api) api
                                  (default [] (custom_tools a)))) a in
      let a := set_dirty true a in
      let '(a, w) := maybe_save a w in
      (a, w, Ret r)
  end.

Definition add_data (a : PersistentA1) (data : PyDict.t string)
    (super_result : result json) (w : world)
    : PersistentA1 * world * result json :=
  match super_result with
  | Raise e => (a, w, Raise e)
  | Ret r =>
      let a := ensure_data a in
      let a := set_data (Some (PyDict.update (default [] (custom_data a))
                                 (jstr_values data))) a in
      let a := set_dirty true a in
      let '(a, w) := maybe_save a w in
      (a, w, Ret r)
  end.

(** [add_software]; [_install_package] runs a package manager and catches
    every failure: it changes nothing the model holds, whatever [install]. *)
Definition add_software (a : PersistentA1) (software : PyDict.t string)
    (install : bool) (super_result : result json) (w : world)
    : PersistentA1 * world * result json :=
  match super_result with
  | Raise e => (a, w, Raise e)
  | Ret r =>
      let a := ensure_software a in
      let a := set_software (Some (PyDict.update (default [] (custom_software a))
                                     (jstr_values software))) a in
      let a := set_dirty true a in
      let '(a, w) := maybe_save a w in
      (a, w, Ret r)
  end.

Definition remove_custom_tool (a : PersistentA1) (tool_name : string) (w : world)
    : PersistentA1 * world :=
  match custom_tools a with
  | Some tools =>
      if PyDict.mem tool_name tools then
        maybe_save (set_dirty true (set_tools (Some (PyDict.del tool_name tools)) a)) w
      else (a, w)
  | None => (a, w)
  end.

Definition remove_custom_data (a : PersistentA1) (data_key : string) (w : world)
    : PersistentA1 * world :=
  match custom_data a with
  | Some data =>
      if PyDict.mem data_key data then
        maybe_save (set_dirty true (set_data (Some (PyDict.del data_key data)) a)) w
      else (a, w)
  | None => (a, w)
  end.

Definition list_custom_tools (a : PersistentA1) : list string :=
  match custom_tools a with Some tools => PyDict.keys tools | None => [] end.

Definition list_custom_data (a : PersistentA1) : list string :=
  match custom_data a with Some data => PyDict.keys data | None => [] end.

(** [get_custom_tool] *)
Definition get_custom_tool (a : PersistentA1) (tool_name : string)
    : option (PyDict.t json) :=
  match custom_tools a with
  | Some tools =>
      match PyDict.get tool_name tools with
      | Some func =>
          Some [("name", JStr (fn_name func));
                ("doc", jstr_opt (fn_doc func));
                ("module", jstr_opt (fn_module func));
                ("annotations", JDict (fn_annotations func))]
      | None => None
      end
  | None => None
  end.

(** [get_custom_data]: [None] for an absent attribute and for an absent
    key alike. *)
Definition get_custom_data (a : PersistentA1) (data_key : string) : option json :=
  match custom_data a with
  | Some data => PyDict.get data_key data
  | None => None
  end.

(** *** Export and import *)

Definition exported_state (a : PersistentA1) (t : nat) : json * nat :=
  let timestamp := isoformat env t in
  let '(tools, t') := _serialize_custom_tools a (S t) in
  (JDict [("agent_id", JStr (agent_id a));
          ("timestamp", JStr timestamp);
          ("custom_tools", JDict tools);
          ("custom_data", JDict (default [] (custom_data a)));
          ("custom_software", JDict (default [] (custom_software a)));
          ("export_version", JStr "1.0")], t').

(** [export_state]: the handler logs and raises again. *)
Definition export_state (a : PersistentA1) (export_path : Path) (w : world)
    : world * result unit :=
  let '(state, t') := exported_state a (clock w) in
  let '(ops, err) := write_json_ops export_path state in
  (mkWorld (run_ops ops (fs w)) t',
   match err with None => Ret () | Some e => Raise e end).

(** Where the embedding of [import_state] stops.  The [custom_data] and
    [custom_software] of a snapshot are meant to be objects, and the
    attributes of an agent hold dictionaries here.  Python checks nothing:
    a field that is not an object is assigned as it is, or handed to
    [dict.update], and the attribute may afterwards hold a value that is
    no dictionary (for [null] and [merge=False] the import returns and the
    save that follows fails at [dict(None)], so that nothing is written).
    Such snapshots are not embedded: [as_mapping] marks them with
    [not_embedded], which stands for no outcome of the code, and every
    statement about [import_state] says which snapshots it is about, by
    [object_or_absent] or by giving the fields. *)
Definition not_embedded (what : string) : exn :=
  mkExn (OtherException "not embedded") what.

Definition as_mapping (j : json) : result (PyDict.t json) :=
  match j with
  | JDict d => Ret d
  | _ => Raise (not_embedded "a field that is not an object")
  end.

(** The field [k] of a snapshot is an object if it is there. *)
Definition object_or_absent (k : string) (state : json) : bool :=
  match state_field k state with
  | Ret (Some (JDict _)) | Ret None | Raise _ => true
  | Ret (Some _) => false
  end.

Definition import_data (merge : bool) (a : PersistentA1) (v : json)
    : PersistentA1 * result unit :=
  match as_mapping v with
  | Raise e => (a, Raise e)
  | Ret d =>
      match merge, custom_data a with
      | true, Some cur => (set_data (Some (PyDict.update cur d)) a, Ret ())
      | _, _ => (set_data (Some d) a, Ret ())
      end
  end.

Definition import_software (merge : bool) (a : PersistentA1) (v : json)
    : PersistentA1 * result unit :=
  match as_mapping v with
  | Raise e => (a, Raise e)
  | Ret d =>
      match merge, custom_software a with
      | true, Some cur => (set_software (Some (PyDict.update cur d)) a, Ret ())
      | _, _ => (set_software (Some d) a, Ret ())
      end
  end.

Definition clear_state (a : PersistentA1) : PersistentA1 :=
  set_software (Some []) (set_data (Some []) (set_tools (Some []) a)).

(** The in-memory part of [import_state], between reading the file and
    saving. *)
Definition import_fields (a : PersistentA1) (merge : bool) (state : json)
    : PersistentA1 * result unit :=
  let a := if merge then a else clear_state a in
  restore_field "custom_software" (import_software merge) state
    (restore_field "custom_data" (import_data merge) state
       (restore_field "custom_tools" _restore_custom_tools state (a, Ret ()))).

Definition FileNotFoundError (p : Path) : exn := mkExn OSError (name p).

(** [import_state]: the handler logs and raises again; what was changed
    before the exception stays changed. *)
Definition import_state (a : PersistentA1) (import_path : Path) (merge : bool)
    (w : world) : PersistentA1 * world * result unit :=
  match fs w !! import_path with
  | None => (a, w, Raise (FileNotFoundError import_path))
  | Some text =>
      match loads text with
      | Raise e => (a, w, Raise e)
      | Ret state =>
          match import_fields a merge state with
          | (a, Raise e) => (a, w, Raise e)
          | (a, Ret _) =>
              let '(a, w) := _save_persistent_state a w in (a, w, Ret ())
          end
      end
  end.

(** [PersistentA1.__init__], after the base class has set its attributes:
    the three dictionaries do not exist yet, then the state file is read. *)
Record kwargs := mkKwargs {
  kw_auto_save : option bool;
  kw_attrs : provider_attrs
}.

Definition PersistentA1_init (agent_id state_dir : string) (kw : kwargs)
    (w : world) : PersistentA1 :=
  _load_persistent_state
    (mkAgent agent_id state_dir (default true (kw_auto_save kw)) false
       None None None None (kw_attrs kw)) w.

End Agent.

(** ** GlobalAgentManager *)

(** The registry [_agents] maps an agent id to a reference; [objects] holds
    the agents the references denote, so that two holders of one reference
    see the same agent.  [outside] is the file system and the clock. *)
Record GlobalAgentManager := mkManager {
  base_state_dir : string;
  _agents : PyDict.t nat;
  objects : list PersistentA1;
  tmp_count : nat;
  outside : world
}.

Definition set_outside (w : world) (m : GlobalAgentManager) : GlobalAgentManager :=
  mkManager (base_state_dir m) (_agents m) (objects m) (tmp_count m) w.
Definition set_object (h : nat) (a : PersistentA1) (m : GlobalAgentManager)
    : GlobalAgentManager :=
  mkManager (base_state_dir m) (_agents m) (<[h := a]> (objects m))
    (tmp_count m) (outside m).

(** [self.base_state_dir / "states"] *)
Definition states_dir (m : GlobalAgentManager) : string := base_state_dir m +:+ "/states".

Section Manager.
Variable env : environment.

Definition create_agent (m : GlobalAgentManager) (agent_id : string) (overwrite : bool)
    (agent_kwargs : kwargs) : nat * GlobalAgentManager :=
  match PyDict.get agent_id (_agents m), overwrite with
  | Some h, false => (h, m)
  | _, _ =>
      let agent := PersistentA1_init env agent_id (states_dir m) agent_kwargs
                     (outside m) in
      let h := length (objects m) in
      (h, mkManager (base_state_dir m) (PyDict.set agent_id h (_agents m))
            (objects m ++ [agent]) (tmp_count m) (outside m))
  end.

Definition get_agent (m : GlobalAgentManager) (agent_id : string) (agent_kwargs : kwargs)
    : nat * GlobalAgentManager :=
  match PyDict.get agent_id (_agents m) with
  | Some h => (h, m)
  | None => create_agent m agent_id false agent_kwargs
  end.

(** [state_dir.glob("*.json")], as the stems of the matching names. *)
Definition on_disk (m : GlobalAgentManager) : list string :=
  omap (fun p => if decide (parent p = states_dir m)
                 then if ends_with ".json" (name p) then Some (stem (name p))
                      else None
                 else None)
    (elements (dom (fs (outside m)))).

Definition in_memory (m : GlobalAgentManager) : list string := PyDict.keys (_agents m).

(** [sorted(in_memory.union(on_disk))] *)
Definition list_agents (m : GlobalAgentManager) : list string :=
  merge_sort String.le (remove_dups (in_memory m ++ on_disk m)).

(** [delete_agent]: the registry entry goes; with [remove_files] the state
    file is unlinked and the directories [tools/<id>] and [data/<id>] are
    removed with what they hold.  An id with a [..] component makes
    [rmtree] work on a directory above the one it names (for the id [..],
    on the states directory itself) and fail at the end: such ids are
    outside this embedding, and every statement below about the files left
    by a deletion is for an id that [is_file_name]. *)
Definition delete_agent (m : GlobalAgentManager) (agent_id : string) (remove_files : bool)
    : GlobalAgentManager :=
  let state_file := joinpath (states_dir m) (agent_id +:+ ".json") in
  let tools_dir := joindir (states_dir m +:+ "/tools") agent_id in
  let data_dir := joindir (states_dir m +:+ "/data") agent_id in
  mkManager (base_state_dir m) (PyDict.del agent_id (_agents m)) (objects m)
    (tmp_count m)
    (if remove_files
     then mkWorld (rmtree data_dir
                     (rmtree tools_dir
                        (apply_op (fs (outside m)) (Unlink state_file))))
            (clock (outside m))
     else outside m).

Definition default_kwargs : kwargs := mkKwargs None (mkAttrs None None None None).

(** [clone_agent]: the reference of the target, or the exception that
    leaves the method.  An agent absent from the registry is obtained
    through [get_agent].  A reference held by the registry always denotes
    an object, so the two [KeyError] branches below are never taken. *)
Definition clone_agent (m : GlobalAgentManager) (source_agent_id target_agent_id : string)
    : result nat * GlobalAgentManager :=
  let '(src, m) :=
    match PyDict.get source_agent_id (_agents m) with
    | None => get_agent m source_agent_id default_kwargs
    | Some h => (h, m)
    end in
  match objects m !! src with
  | None => (Raise (mkExn KeyError source_agent_id), m)
  | Some source_agent =>
      let temp_path := tmp_name env (tmp_count m) in
      let m := mkManager (base_state_dir m) (_agents m) (objects m)
                 (S (tmp_count m))
                 (mkWorld (apply_op (fs (outside m)) (OpenW temp_path))
                    (clock (outside m))) in
      match export_state env source_agent temp_path (outside m) with
      | (w, Raise e) => (Raise e, set_outside w m)
      | (w, Ret _) =>
          let m := set_outside w m in
          let '(tgt, m) := create_agent m target_agent_id false default_kwargs in
          match objects m !! tgt with
          | None => (Raise (mkExn KeyError target_agent_id), m)
          | Some target_agent =>
              let '(target_agent, w, r) :=
                import_state env target_agent temp_path false (outside m) in
              let w := mkWorld (apply_op (fs w) (Unlink temp_path)) (clock w) in
              let m := set_outside w (set_object tgt target_agent m) in
              (match r with Ret _ => Ret tgt | Raise e => Raise e end, m)
          end
      end
  end.

End Manager.

(** What the registry keeps true: ids are registered once, and every
    registered reference denotes an agent that carries the id it is
    registered under and the states directory of the manager. *)
Definition registry_ok (m : GlobalAgentManager) : Prop :=
  NoDup (PyDict.keys (_agents m)) ∧
  ∀ id h, PyDict.get id (_agents m) = Some h →
    ∃ a, objects m !! h = Some a ∧ agent_id a = id ∧ state_dir a = states_dir m.

(** [cleanup_unused_agents].  File times are not part of [files]: the
    comparison [agent.state_file.stat().st_mtime < cutoff_time] made by one
    call is a parameter.  The method removes registry entries only. *)
Section Cleanup.
Variable expired : Path → bool.

Definition unused (m : GlobalAgentManager) (entry : string * nat) : option string :=
  match objects m !! entry.2 with
  | Some agent =>
      if bool_decide (is_Some (fs (outside m) !! state_file agent))
         && expired (state_file agent)
      then Some entry.1
      else None
  | None => None
  end.

Definition cleanup_unused_agents (m : GlobalAgentManager) : nat * GlobalAgentManager :=
  let to_remove := omap (unused m) (_agents m) in
  (length to_remove,
   mkManager (base_state_dir m)
     (foldl (fun d agent_id => PyDict.del agent_id d) (_agents m) to_remove)
     (objects m) (tmp_count m) (outside m)).

End Cleanup.

(** ** Runs of the module *)

Section Runs.
Variable env : environment.

(** *** A save that stops early

    The file system left by [_save_persistent_state] when only the first
    [k] of its file operations take effect: the process is killed, or an
    operation fails and the handler of the [try] logs the error. *)
Definition interrupted_save (a : PersistentA1) (w : world) (k : nat) : files :=
  if auto_save_enabled a
  then run_ops (take k (save_ops env a (clock w)).1) (fs w)
  else fs w.

(** [load]: the text a later [_load_persistent_state] reads. *)
Definition load (a : PersistentA1) (f : files) : option string :=
  f !! state_file a.

(** *** Calls on one agent *)

Inductive agent_call :=
| CallAddTool (api : callable) (super_result : result json)
| CallAddData (data : PyDict.t string) (super_result : result json)
| CallAddSoftware (software : PyDict.t string) (install : bool)
    (super_result : result json)
| CallRemoveTool (tool_name : string)
| CallRemoveData (data_key : string)
| CallSaveState
| CallImportState (import_path : Path) (merge : bool)
| CallExportState (export_path : Path).

Definition is_export (c : agent_call) : bool :=
  match c with CallExportState _ => true | _ => false end.

Definition call (c : agent_call) (a : PersistentA1) (w : world)
    : PersistentA1 * world :=
  match c with
  | CallAddTool api r => (add_tool env a api r w).1
  | CallAddData data r => (add_data env a data r w).1
  | CallAddSoftware software install r => (add_software env a software install r w).1
  | CallRemoveTool n => remove_custom_tool env a n w
  | CallRemoveData k => remove_custom_data env a k w
  | CallSaveState => save_state env a w
  | CallImportState p merge => (import_state env a p merge w).1
  | CallExportState p => (a, (export_state env a p w).1)
  end.

Definition calls (cs : list agent_call) (a : PersistentA1) (w : world)
    : PersistentA1 * world :=
  foldl (fun aw c => call c aw.1 aw.2) (a, w) cs.

(** *** Texts with time stamps left out *)

Definition drop_key (k : string) (j : json) : json :=
  match j with JDict d => JDict (PyDict.del k d) | _ => j end.

Definition map_values (g : json → json) (j : json) : json :=
  match j with JDict d => JDict (map (fun kv => (kv.1, g kv.2)) d) | _ => j end.

Definition at_key (k : string) (g : json → json) (j : json) : json :=
  match j with
  | JDict d =>
      JDict (map (fun kv => (kv.1, if String.eqb kv.1 k then g kv.2 else kv.2)) d)
  | _ => j
  end.

(** The state without its top-level [timestamp]. *)
Definition without_timestamp (state : json) : json := drop_key "timestamp" state.

(** The state without its top-level [timestamp] and without the
    [timestamp] of each capability record. *)
Definition without_timestamps (state : json) : json :=
  at_key "custom_tools" (map_values (drop_key "timestamp"))
    (drop_key "timestamp" state).

Definition drop_record_time (kv : string * json) : string * json :=
  (kv.1, drop_key "timestamp" kv.2).

(** An agent without capabilities. *)
Definition no_tools (a : PersistentA1) : bool :=
  match custom_tools a with None | Some [] => true | _ => false end.

(** A file text read back, a field removed, and written again. *)
Definition text_without (scrub : json → json) (text : string) : result string :=
  state ← loads text; dumps (scrub state).

(** *** Interleaved [get_agent] calls

    A call of [get_agent] for an agent id, cut at the points where another
    thread may run: the membership test of [get_agent], the one of
    [create_agent], the construction of the agent (which reads the state
    file), and the assignment to [_agents]. *)
Inductive pc :=
| AtGetLookup
| AtCreateLookup
| AtConstruct
| AtStore (h : nat)
| Returned (h : nat).

Definition thread_step (agent_id : string) (kw : kwargs) (p : pc) (m : GlobalAgentManager)
    : pc * GlobalAgentManager :=
  match p with
  | AtGetLookup =>
      match PyDict.get agent_id (_agents m) with
      | Some h => (Returned h, m)
      | None => (AtCreateLookup, m)
      end
  | AtCreateLookup =>
      match PyDict.get agent_id (_agents m) with
      | Some h => (Returned h, m)
      | None => (AtConstruct, m)
      end
  | AtConstruct =>
      let agent := PersistentA1_init env agent_id (states_dir m) kw (outside m) in
      (AtStore (length (objects m)),
       mkManager (base_state_dir m) (_agents m) (objects m ++ [agent])
         (tmp_count m) (outside m))
  | AtStore h =>
      (Returned h,
       mkManager (base_state_dir m) (PyDict.set agent_id h (_agents m))
         (objects m) (tmp_count m) (outside m))
  | Returned h => (Returned h, m)
  end.

(** [n] steps of one thread. *)
Fixpoint thread_steps (agent_id : string) (kw : kwargs) (n : nat)
    (pm : pc * GlobalAgentManager) : pc * GlobalAgentManager :=
  match n with
  | 0 => pm
  | S n' => thread_steps agent_id kw n' (thread_step agent_id kw pm.1 pm.2)
  end.

Definition is_returned (p : pc) : Prop :=
  match p with Returned _ => True | _ => False end.

(** The scheduler picks the thread that makes the next step. *)
Definition sched_step (agent_id : string) (kw : kwargs)
    (st : list pc * GlobalAgentManager) (i : nat) : list pc * GlobalAgentManager :=
  match st.1 !! i with
  | Some p =>
      let '(p', m') := thread_step agent_id kw p st.2 in (<[i := p']> st.1, m')
  | None => st
  end.

Definition run_schedule (agent_id : string) (kw : kwargs) (n : nat)
    (schedule : list nat) (m : GlobalAgentManager) : list pc * GlobalAgentManager :=
  foldl (sched_step agent_id kw) (replicate n AtGetLookup, m) schedule.

(** What every state of an interleaved run satisfies, for a start in
    which the id is unknown: the outside world is untouched, and either
    the id has been registered once, or no caller has returned yet. *)
Definition run_invariant (agent_id : string) (m0 : GlobalAgentManager)
    (st : list pc * GlobalAgentManager) : Prop :=
  outside st.2 = outside m0 ∧
  (PyDict.keys (_agents st.2) = PyDict.keys (_agents m0) ++ [agent_id] ∨
   (PyDict.keys (_agents st.2) = PyDict.keys (_agents m0) ∧
    Forall (fun p => ¬ is_returned p) st.1)).

(** [n] calls one after the other, each run to its end. *)
Fixpoint sequential_calls (agent_id : string) (kw : kwargs) (n : nat)
    (m : GlobalAgentManager) : list nat * GlobalAgentManager :=
  match n with
  | 0 => ([], m)
  | S n' =>
      let '(h, m1) := get_agent env m agent_id kw in
      let '(hs, m2) := sequential_calls agent_id kw n' m1 in
      (h :: hs, m2)
  end.

End Runs.

(** ** A small world to run the module in *)

Definition decimal (n : nat) : string := NilZero.string_of_uint (Nat.to_uint n).

(** A clock that shows a new time at every reading. *)
Definition sample_clock (n : nat) : string := "2025-01-01T00:00:00." +:+ decimal n.

(** Two tools with a dill payload and a source, a newer version of the
    second under the same name, and a tool that can be neither pickled nor
    read back from a file. *)
Definition tool_x : callable :=
  mkCallable "x" (Some "first tool") (Some "tools") (Some "x") []
    (Ret "gASVeA==") (Ret "def x(): return 1").
Definition tool_y : callable :=
  mkCallable "y" (Some "second tool") (Some "tools") (Some "y") []
    (Ret "gASVeQ==") (Ret "def y(): return 2").
Definition tool_y' : callable :=
  mkCallable "y" (Some "second tool, revised") (Some "tools") (Some "y") []
    (Ret "gASVeSc=") (Ret "def y(): return 3").
Definition tool_z : callable :=
  mkCallable "z" None (Some "__main__") (Some "z") []
    (Raise (mkExn (OtherException "PicklingError") "cannot pickle z"))
    (Raise (mkExn OSError "could not get source code")).

Definition sample_dill_loads (payload : string) : result callable :=
  if String.eqb payload "gASVeA==" then Ret tool_x
  else if String.eqb payload "gASVeQ==" then Ret tool_y
  else if String.eqb payload "gASVeSc=" then Ret tool_y'
  else Raise (mkExn (OtherException "UnpicklingError") "invalid load key").

Definition sample_globals (n : string) (f : callable) : PyDict.t pyobject :=
  [("__builtins__", PyData); (n, PyCallable f)].

Definition sample_exec (source : string) : result (PyDict.t pyobject) :=
  if String.eqb source "def x(): return 1" then Ret (sample_globals "x" tool_x)
  else if String.eqb source "def y(): return 2" then Ret (sample_globals "y" tool_y)
  else if String.eqb source "def y(): return 3" then Ret (sample_globals "y" tool_y')
  else Raise (mkExn (OtherException "SyntaxError") "invalid syntax").

Definition sample_env : environment :=
  mkEnv sample_dill_loads sample_exec sample_clock
    (fun n => mkPath "/tmp" ("tmp" +:+ decimal n +:+ ".json")).

Definition no_attrs : provider_attrs := mkAttrs None None None None.

Definition sample_dir : string := "./data/agents/states".

Definition empty_world : world := mkWorld ∅ 0.

(** The agent whose state is exported: the revised [y] and [z]. *)
Definition donor : PersistentA1 :=
  mkAgent "donor" sample_dir true false
    (Some [("y", tool_y'); ("z", tool_z)])
    (Some [("y.csv", JStr "counts, revised"); ("z.csv", JStr "samples")])
    (Some [("y-lib", JStr "2.0"); ("z-lib", JStr "1.0")])
    None no_attrs.

(** The agent that imports: [x] and the first [y]. *)
Definition receiver (auto_save : bool) : PersistentA1 :=
  mkAgent "receiver" sample_dir auto_save false
    (Some [("x", tool_x); ("y", tool_y)])
    (Some [("x.csv", JStr "genes"); ("y.csv", JStr "counts")])
    (Some [("x-lib", JStr "1.0"); ("y-lib", JStr "1.0")])
    None no_attrs.

Definition snapshot_path : Path := mkPath "/exports" "donor_export.json".

(** The world after the donor has exported its state. *)
Definition world_with_snapshot : world :=
  (export_state sample_env donor snapshot_path empty_world).1.

(** A manager that has seen no agent, on an empty disk. *)
Definition fresh_manager : GlobalAgentManager :=
  mkManager "./data/agents" [] [] 0 empty_world.

(** The snapshot as [import_state] reads it. *)
Definition snapshot_text : string :=
  default "" (fs world_with_snapshot !! snapshot_path).
Definition snapshot_state : PyDict.t json :=
  match loads snapshot_text with Ret (JDict st) => st | _ => [] end.
Definition snapshot_field (k : string) : PyDict.t json :=
  match PyDict.get k snapshot_state with Some (JDict d) => d | _ => [] end.


(** A state file left by an earlier process: agent [alice] has saved, and a
    new manager starts on that disk with an empty registry. *)
Definition alice : PersistentA1 :=
  mkAgent "alice" sample_dir true true (Some [("x", tool_x)]) None None None no_attrs.

Definition later_manager : GlobalAgentManager :=
  mkManager "./data/agents" [] [] 0
    (_save_persistent_state sample_env alice empty_world).2.





(** The record [serialize_function] makes of [tool_z], as a dictionary. *)
Definition record_of_z : PyDict.t json :=
  match (serialize_function sample_env tool_z 0).1 with
  | JDict d => d
  | _ => []
  end.

(** Source text that exits when executed, an interpreter that runs it,
    and a record that carries it. *)
Definition exiting_source : string := "import sys" +:+ newline +:+ "sys.exit(3)".

Definition exiting_python : interpreter :=
  mkInterpreter (fun text => of_result (sample_dill_loads text))
    (fun source =>
       if String.eqb source exiting_source then Exits SystemExit
       else of_result (sample_exec source)).

Definition exiting_record : PyDict.t json :=
  [("name", JStr "f"); ("doc", JStr "");
   ("source_code", JStr exiting_source);
   ("serialization_method", JStr "source_code");
   ("timestamp", JStr (sample_clock 0))].


(** A tool whose annotations are classes, as for
    [def typed(n: int) -> str], and an agent that holds it. *)
Definition tool_typed : callable :=
  mkCallable "typed" (Some "typed tool") (Some "tools") (Some "typed")
    [("n", JOpaque "type"); ("return", JOpaque "type")]
    (Ret "gASVdA==") (Ret "def typed(n: int) -> str: return str(n)").

Definition typed_agent : PersistentA1 :=
  mkAgent "typed" sample_dir true true (Some [("typed", tool_typed)])
    None None None no_attrs.

(** A snapshot whose [custom_tools] field is a list. *)
Definition bad_snapshot_world : world :=
  mkWorld {[ snapshot_path :=
               concat_chunks (iterencode 0 (JDict [("custom_tools", JList [])])).1 ]} 0.

(** The manager of a later process after [get_agent("alice")] has loaded
    the agent from its state file. *)
Definition loaded_manager : GlobalAgentManager :=
  (get_agent sample_env later_manager "alice" default_kwargs).2.

(** A cut-off after which every state file counts as old. *)
Definition always_expired (p : Path) : bool := true.

(** * Properties *)

(** ** Strings and paths *)

Lemma app_cons (c : ascii) (s t : string) :
  String c s +:+ t = String c (s +:+ t).
Proof. reflexivity. Qed.

Lemma app_empty_l (s : string) : "" +:+ s = s.
Proof. reflexivity. Qed.

Lemma app_empty_r (s : string) : s +:+ "" = s.
Proof.
  induction s as [|c s IH]; [reflexivity|].
  rewrite app_cons. by rewrite IH.
Qed.

Lemma app_assoc_string (s t u : string) : (s +:+ t) +:+ u = s +:+ (t +:+ u).
Proof.
  induction s as [|c s IH]; [reflexivity|].
  rewrite !app_cons. by rewrite IH.
Qed.

Lemma length_app_string (s t : string) :
  String.length (s +:+ t) = String.length s + String.length t.
Proof.
  induction s as [|c s IH]; [reflexivity|].
  rewrite app_cons. cbn [String.length]. by rewrite IH.
Qed.

Lemma rfind_dot_json (id : string) :
  rfind_dot (id +:+ ".json") = Some (String.length id).
Proof.
  induction id as [|c id IH]; [reflexivity|].
  rewrite app_cons. cbn [rfind_dot String.length]. by rewrite IH.
Qed.

Lemma substring_prefix (s t : string) :
  String.substring 0 (String.length s) (s +:+ t) = s.
Proof.
  induction s as [|c s IH].
  - cbn [String.length]. rewrite app_empty_l. by destruct t.
  - rewrite app_cons. cbn [String.length String.substring]. by rewrite IH.
Qed.

(** The stem of a state file name is the agent id, except for the empty id,
    whose file [.json] is a dot file without suffix. *)
Lemma stem_state_name (id : string) :
  stem (id +:+ ".json") = if decide (id = "") then ".json" else id.
Proof.
  unfold stem, suffix_start. rewrite rfind_dot_json, length_app_string.
  destruct id as [|c id]; [reflexivity|].
  rewrite decide_False by done.
  assert ((0 <? String.length (String c id))%nat = true) as ->
    by (apply Nat.ltb_lt; cbn; lia).
  assert ((String.length (String c id)
           <? String.length (String c id) + String.length ".json" - 1)%nat = true)
    as -> by (apply Nat.ltb_lt; cbn; lia).
  apply substring_prefix.
Qed.

(** *** Joining paths *)

Lemma pieces_cons (s : string) : ∃ p ps, pieces s = p :: ps.
Proof.
  induction s as [|c s (p & ps & IH)]; [by eexists _, _|].
  cbn [pieces]. rewrite IH. destruct (code c =? 47)%nat; by eexists _, _.
Qed.

Lemma pieces_no_separator (s : string) : no_separator s = true → pieces s = [s].
Proof.
  induction s as [|c s IH]; [done|]. cbn [no_separator pieces].
  intros [Hc Hs]%andb_prop. apply negb_true_iff in Hc. rewrite Hc.
  by rewrite (IH Hs).
Qed.

Lemma removelast_snoc {A : Type} (l : list A) (x : A) : removelast (l ++ [x]) = l.
Proof.
  induction l as [|y l IH]; [done|]. cbn [app removelast].
  rewrite IH. by destruct l.
Qed.

Lemma last_snoc {A : Type} (l : list A) (x d : A) : List.last (l ++ [x]) d = x.
Proof.
  induction l as [|y l IH]; [done|]. cbn [app List.last].
  rewrite IH. by destruct l.
Qed.

(** A text without separator, put after a path text, extends its last
    piece. *)
Lemma pieces_app (s t : string) :
  no_separator t = true →
  pieces (s +:+ t) = removelast (pieces s) ++ [basename s +:+ t].
Proof.
  intros Ht. unfold basename. induction s as [|c s IH].
  - rewrite app_empty_l. by rewrite (pieces_no_separator t Ht).
  - rewrite app_cons. cbn [pieces]. rewrite IH.
    destruct (pieces_cons s) as (p & ps & Hs). rewrite Hs.
    destruct (code c =? 47)%nat.
    + change (removelast ("" :: p :: ps)) with ("" :: removelast (p :: ps)).
      by change (List.last ("" :: p :: ps) "") with (List.last (p :: ps) "").
    + destruct ps as [|q ps].
      * cbn [removelast List.last app]. by rewrite app_cons.
      * change (removelast (p :: q :: ps)) with (p :: removelast (q :: ps)).
        change (List.last (p :: q :: ps) "") with (List.last (q :: ps) "").
        cbn [app].
        change (removelast (String c p :: q :: ps))
          with (String c p :: removelast (q :: ps)).
        by change (List.last (String c p :: q :: ps) "") with (List.last (q :: ps) "").
Qed.

Lemma is_component_json (l : string) : is_component (l +:+ ".json") = true.
Proof.
  destruct l as [|c l]; [reflexivity|]. rewrite app_cons.
  unfold is_component. cbn [String.eqb negb andb].
  destruct (Ascii.eqb c "."); [|done]. by destruct l.
Qed.

Lemma components_json (id : string) :
  components (id +:+ ".json")
  = filter is_component (removelast (pieces id)) ++ [basename id +:+ ".json"].
Proof.
  unfold components. rewrite pieces_app by done.
  rewrite filter_app. cbn [filter]. unfold filter at 2. cbn [list_filter].
  by rewrite decide_True by (by rewrite is_component_json).
Qed.

(** The name of a state file is what follows the last separator of the
    agent id, with [.json]. *)
Lemma state_file_name (a : PersistentA1) :
  name (state_file a) = basename (agent_id a) +:+ ".json".
Proof.
  unfold state_file, joinpath. rewrite components_json, last_snoc.
  by destruct (root _).
Qed.

Lemma root_no_separator (id : string) :
  no_separator id = true → root (id +:+ ".json") = None.
Proof.
  destruct id as [|c id]; [done|]. cbn [no_separator].
  intros [Hc _]%andb_prop. apply negb_true_iff in Hc.
  rewrite app_cons. cbn [root].
  destruct (id +:+ ".json") as [|c2 [|c3 r]]; by rewrite Hc.
Qed.

(** The state file of an agent whose id has no separator lies in the state
    directory, under the id with [.json]. *)
Lemma state_file_plain (a : PersistentA1) :
  no_separator (agent_id a) = true →
  state_file a = mkPath (state_dir a) (agent_id a +:+ ".json").
Proof.
  intros Hid. unfold state_file, joinpath.
  rewrite components_json, last_snoc, removelast_snoc, root_no_separator by done.
  unfold basename. by rewrite (pieces_no_separator _ Hid).
Qed.

Lemma joinpath_plain (dir id : string) :
  no_separator id = true →
  joinpath dir (id +:+ ".json") = mkPath dir (id +:+ ".json").
Proof.
  intros Hid.
  exact (state_file_plain (mkAgent id dir true false None None None None
                             (mkAttrs None None None None)) Hid).
Qed.

Lemma root_file_name (id : string) : no_separator id = true → root id = None.
Proof.
  destruct id as [|c1 [|c2 [|c3 id]]]; cbn [no_separator root]; try done.
  - by intros [->%negb_true_iff _]%andb_prop.
  - by intros [->%negb_true_iff _]%andb_prop.
  - by intros [->%negb_true_iff _]%andb_prop.
Qed.

(** The directory of an agent under [tools] or [data]. *)
Lemma joindir_file_name (dir id : string) :
  is_file_name id = true → joindir dir id = dir +:+ "/" +:+ id.
Proof.
  unfold is_file_name. intros [[Hsep Hcomp]%andb_prop _]%andb_prop.
  unfold joindir, components. rewrite (root_file_name _ Hsep).
  rewrite (pieces_no_separator _ Hsep). cbn [filter]. unfold filter.
  cbn [list_filter]. rewrite decide_True by (by rewrite Hcomp).
  unfold slashed. cbn [String.concat]. reflexivity.
Qed.

Lemma prefix_length (s t : string) :
  String.prefix s t = true → String.length s ≤ String.length t.
Proof.
  revert t. induction s as [|c s IH]; intros t; [cbn; lia|].
  destruct t as [|c' t]; [done|]. cbn [String.prefix String.length].
  destruct (Ascii.ascii_dec c c'); [|done]. intros Hp%IH. lia.
Qed.

(** No file of a directory lies under one of its subdirectories. *)
Lemma under_subdirectory (dir sub rest : string) (p : Path) :
  under ((dir +:+ String "/" sub) +:+ rest) p = true → parent p ≠ dir.
Proof.
  unfold under. intros [Heq%String.eqb_eq | Hpre%prefix_length]%orb_prop Hp.
  - rewrite Hp in Heq. apply (f_equal String.length) in Heq.
    rewrite !length_app_string in Heq. cbn in Heq. lia.
  - rewrite Hp, !length_app_string in Hpre. cbn in Hpre. lia.
Qed.

Lemma rmtree_lookup (dir : string) (f : files) (p : Path) :
  under dir p = false → rmtree dir f !! p = f !! p.
Proof.
  intros Hp. unfold rmtree. rewrite map_lookup_filter.
  destruct (f !! p) as [text|]; [|done]. cbn.
  by rewrite option_guard_True.
Qed.

Lemma rmtree_lookup_Some (dir : string) (f : files) (p : Path) (text : string) :
  rmtree dir f !! p = Some text → f !! p = Some text.
Proof. unfold rmtree. by intros [? _]%map_lookup_filter_Some. Qed.

Lemma temp_file_name (a : PersistentA1) :
  name (temp_file a) =
    (if decide (basename (agent_id a) = "") then ".json"
     else basename (agent_id a)) +:+ ".tmp".
Proof.
  unfold temp_file, with_suffix. cbn [name].
  by rewrite state_file_name, stem_state_name.
Qed.

(** The temporary file is a sibling of the state file and never the state
    file itself. *)
Lemma temp_file_sibling (a : PersistentA1) :
  parent (temp_file a) = parent (state_file a).
Proof. reflexivity. Qed.

Lemma temp_file_ne (a : PersistentA1) : temp_file a ≠ state_file a.
Proof.
  intros H. apply (f_equal name) in H.
  rewrite temp_file_name, state_file_name in H.
  case_decide as Hid.
  - rewrite Hid in H. discriminate H.
  - by apply (inj (String.app _)) in H.
Qed.

(** ** File operations *)

Lemma run_ops_app (ops1 ops2 : list fs_op) (f : files) :
  run_ops (ops1 ++ ops2) f = run_ops ops2 (run_ops ops1 f).
Proof. apply foldl_app. Qed.

Lemma apply_op_frame (p q : Path) (op : fs_op) (f : files) :
  writes_only p op → q ≠ p → apply_op f op !! q = f !! q.
Proof.
  destruct op as [r|r c|src dst|r]; cbn; try done; intros -> Hne.
  - by rewrite lookup_insert_ne.
  - by rewrite lookup_alter_ne.
Qed.

Lemma run_ops_frame (p q : Path) (ops : list fs_op) (f : files) :
  Forall (writes_only p) ops → q ≠ p → run_ops ops f !! q = f !! q.
Proof.
  intros Hops Hne. revert f.
  induction Hops as [|op ops Hop _ IH]; intros f; [done|].
  change (run_ops ops (apply_op f op) !! q = f !! q).
  rewrite IH. by apply (apply_op_frame p).
Qed.

Lemma run_writes (p : Path) (cs : list string) (f : files) (t : string) :
  f !! p = Some t →
  run_ops (map (WriteChunk p) cs) f !! p = Some (t +:+ concat_chunks cs).
Proof.
  revert f t. induction cs as [|c cs IH]; intros f t Hp.
  - cbn. by rewrite Hp, app_empty_r.
  - change (run_ops (map (WriteChunk p) cs) (alter (fun t => t +:+ c) p f) !! p
            = Some (t +:+ (c +:+ concat_chunks cs))).
    erewrite IH; [by rewrite app_assoc_string|].
    by rewrite lookup_alter_eq, Hp.
Qed.

Lemma write_json_ops_only (p : Path) (j : json) :
  Forall (writes_only p) (write_json_ops p j).1.
Proof.
  unfold write_json_ops. destruct (iterencode 0 j) as [chunks err]. cbn.
  constructor; [done|]. apply Forall_forall. intros op Hin.
  apply list_elem_of_fmap in Hin as (c & -> & _). done.
Qed.

(** After a dump that did not raise, the file holds the whole text. *)
Lemma write_json_ops_complete (p : Path) (j : json) (f : files) (text : string) :
  dumps j = Ret text →
  run_ops (write_json_ops p j).1 f !! p = Some text.
Proof.
  unfold dumps, write_json_ops. destruct (iterencode 0 j) as [chunks [e|]]; [done|].
  intros [= <-].
  change (run_ops (map (WriteChunk p) chunks) (<[p := ""]> f) !! p
          = Some ("" +:+ concat_chunks chunks)).
  apply run_writes. by rewrite lookup_insert_eq.
Qed.

(** ** Saving *)

Section SaveProperties.
Variable env : environment.

Lemma saved_state_set_dirty (b : bool) (a : PersistentA1) (t : nat) :
  saved_state env (set_dirty b a) t = saved_state env a t.
Proof. reflexivity. Qed.

(** The operations of a save: writes to the temporary file, followed by
    the rename exactly when the dump did not raise. *)
Lemma save_ops_shape (a : PersistentA1) (t : nat) :
  let state := (saved_state env a t).1 in
  let writes := (write_json_ops (temp_file a) state).1 in
  Forall (writes_only (temp_file a)) writes ∧
  match dumps state with
  | Ret _ =>
      save_ops env a t = (writes ++ [Replace (temp_file a) (state_file a)], true)
  | Raise _ => save_ops env a t = (writes, false)
  end.
Proof.
  intros state writes. split; [apply write_json_ops_only|].
  unfold save_ops, dumps, writes, write_json_ops. fold state.
  by destruct (iterencode 0 state) as [chunks [e|]].
Qed.

Lemma run_rename (writes : list fs_op) (tmp dst : Path) (f : files) (text : string) :
  run_ops writes f !! tmp = Some text →
  run_ops (writes ++ [Replace tmp dst]) f !! dst = Some text.
Proof.
  intros Htmp. rewrite run_ops_app. cbn. rewrite Htmp.
  by rewrite lookup_insert_eq.
Qed.

(** A save with auto-save enabled whose dump succeeds leaves the text of
    the state in the state file. *)
Lemma save_writes_state_file (a : PersistentA1) (w : world) (text : string) :
  auto_save_enabled a = true →
  dumps (saved_state env a (clock w)).1 = Ret text →
  fs (_save_persistent_state env a w).2 !! state_file a = Some text.
Proof.
  intros Hauto Hdump. unfold _save_persistent_state. rewrite Hauto. cbn [negb].
  pose proof (save_ops_shape a (clock w)) as [_ Hshape].
  cbn zeta in Hshape. rewrite Hdump in Hshape. rewrite Hshape. cbn [fs].
  apply run_rename. by apply write_json_ops_complete.
Qed.

(** C1: [_save_persistent_state] writes the whole state to the sibling
    file [<stem>.tmp] and then renames it over the state file.  Whatever
    the agent and the world: a completed save whose dump succeeds leaves
    the full text in the state file, having first put it in the temporary
    file; a save stopped after any [k] operations short of the rename, or
    whose dump raises, leaves the state file as it was; and what a later
    load reads is always either the previous text or the complete new
    one. *)
Theorem save_is_atomic (a : PersistentA1) (w : world) (k : nat) :
  let ops := (save_ops env a (clock w)).1 in
  let state := (saved_state env a (clock w)).1 in
  (parent (temp_file a) = parent (state_file a) ∧ temp_file a ≠ state_file a) ∧
  fs (_save_persistent_state env a w).2 = interrupted_save env a w (length ops) ∧
  (∀ text, auto_save_enabled a = true → dumps state = Ret text →
     ∃ writes,
       ops = writes ++ [Replace (temp_file a) (state_file a)] ∧
       Forall (writes_only (temp_file a)) writes ∧
       run_ops writes (fs w) !! temp_file a = Some text ∧
       load a (fs (_save_persistent_state env a w).2) = Some text) ∧
  (k < length ops ∨ is_Ret (dumps state) = false →
     load a (interrupted_save env a w k) = load a (fs w)) ∧
  (load a (interrupted_save env a w k) = load a (fs w) ∨
   ∃ text, dumps state = Ret text ∧ load a (interrupted_save env a w k) = Some text).
Proof.
  intros ops state.
  pose proof (save_ops_shape a (clock w)) as [Hwrites Hshape].
  fold state in Hwrites, Hshape.
  set (writes := (write_json_ops (temp_file a) state).1) in *.
  pose proof (temp_file_ne a) as Hne.
  assert (Hframe : ∀ n, run_ops (take n writes) (fs w) !! state_file a
                        = fs w !! state_file a).
  { intros n. apply (run_ops_frame (temp_file a)); [|done].
    by apply Forall_take. }
  assert (Hsaved : fs (_save_persistent_state env a w).2
                   = interrupted_save env a w (length ops)).
  { unfold _save_persistent_state, interrupted_save, ops.
    destruct (auto_save_enabled a); cbn; [|done].
    destruct (save_ops env a (clock w)) as [ops' ok]. cbn.
    by rewrite firstn_all. }
  split; [done|]. split; [done|].
  unfold load, interrupted_save. fold ops.
  destruct (dumps state) as [text|e] eqn:Hdump.
  - assert (Hops : ops = writes ++ [Replace (temp_file a) (state_file a)])
      by (unfold ops; by rewrite Hshape).
    assert (Htmp : run_ops writes (fs w) !! temp_file a = Some text)
      by (by apply write_json_ops_complete).
    split; [|split].
    + intros text' Hauto [= <-]. exists writes. repeat split; try done.
      rewrite Hsaved. unfold interrupted_save. fold ops. rewrite Hauto.
      rewrite firstn_all, Hops. by apply run_rename.
    + intros [Hk|Hfail]; [|done].
      destruct (auto_save_enabled a); [|done].
      rewrite Hops in Hk |- *. rewrite length_app in Hk. cbn in Hk.
      rewrite take_app_le by lia. apply Hframe.
    + destruct (auto_save_enabled a); [|by left].
      destruct (decide (k < length ops)) as [Hk|Hk].
      * left. rewrite Hops in Hk |- *. rewrite length_app in Hk. cbn in Hk.
        rewrite take_app_le by lia. apply Hframe.
      * right. exists text. split; [done|].
        rewrite take_ge by lia. rewrite Hops. by apply run_rename.
  - assert (Hops : ops = writes) by (unfold ops; by rewrite Hshape).
    rewrite Hops.
    split; [done|]. split.
    + intros _. destruct (auto_save_enabled a); [apply Hframe|done].
    + left. destruct (auto_save_enabled a); [apply Hframe|done].
Qed.

End SaveProperties.

(** ** What the methods of an agent never change *)

#[export] Instance same_agent_refl : Reflexive same_agent.
Proof. by intros a. Qed.

Lemma same_agent_trans (a b c : PersistentA1) :
  same_agent a b → same_agent b c → same_agent a c.
Proof. unfold same_agent. intros (?&?&?&?) (?&?&?&?). repeat split; congruence. Qed.

Lemma same_agent_state_file (a a' : PersistentA1) :
  same_agent a a' → state_file a' = state_file a.
Proof. intros (Hid & Hdir & _). unfold state_file. by rewrite Hid, Hdir. Qed.

Create HintDb agent discriminated.

Lemma same_set_tools v a : same_agent a (set_tools v a).
Proof. done. Qed.
Lemma same_set_data v a : same_agent a (set_data v a).
Proof. done. Qed.
Lemma same_set_software v a : same_agent a (set_software v a).
Proof. done. Qed.
Lemma same_set_dirty b a : same_agent a (set_dirty b a).
Proof. done. Qed.
Lemma same_set_config c a : same_agent a (set_config c a).
Proof. done. Qed.
Lemma same_ensure_tools a : same_agent a (ensure_tools a).
Proof. unfold ensure_tools. by destruct (custom_tools a). Qed.
Lemma same_ensure_data a : same_agent a (ensure_data a).
Proof. unfold ensure_data. by destruct (custom_data a). Qed.
Lemma same_ensure_software a : same_agent a (ensure_software a).
Proof. unfold ensure_software. by destruct (custom_software a). Qed.
Lemma same_clear_state a : same_agent a (clear_state a).
Proof. done. Qed.

#[export] Hint Resolve same_set_tools same_set_data same_set_software
  same_set_dirty same_set_config same_ensure_tools same_ensure_data
  same_ensure_software same_clear_state : agent.
#[export] Hint Extern 1 (same_agent ?a ?a) => reflexivity : agent.

Ltac same_agent_step :=
  eapply same_agent_trans; [|solve [eauto with agent]].

Section Frame.
Variable env : environment.

Lemma same_save (a : PersistentA1) (w : world) :
  same_agent a (_save_persistent_state env a w).1.
Proof.
  unfold _save_persistent_state. destruct (negb _); [done|].
  destruct (save_ops env a (clock w)) as [ops [|]]; done.
Qed.

Lemma same_maybe_save (a : PersistentA1) (w : world) :
  same_agent a (maybe_save env a w).1.
Proof. unfold maybe_save. destruct (auto_save_enabled a); [apply same_save|done]. Qed.

Lemma same_restore_tools (a : PersistentA1) (v : json) :
  same_agent a (_restore_custom_tools env a v).1.
Proof.
  unfold _restore_custom_tools. destruct (as_dict v); cbn; [|auto with agent].
  same_agent_step. auto with agent.
Qed.

Lemma same_import_data (merge : bool) (a : PersistentA1) (v : json) :
  same_agent a (import_data merge a v).1.
Proof.
  unfold import_data. destruct (as_mapping v); [|done].
  by destruct merge, (custom_data a).
Qed.

Lemma same_import_software (merge : bool) (a : PersistentA1) (v : json) :
  same_agent a (import_software merge a v).1.
Proof.
  unfold import_software. destruct (as_mapping v); [|done].
  by destruct merge, (custom_software a).
Qed.

Lemma same_restore_field (k : string) restore (state : json)
    (a : PersistentA1) (acc : PersistentA1 * result unit) :
  (∀ b v, same_agent b (restore b v).1) →
  same_agent a acc.1 →
  same_agent a (restore_field k restore state acc).1.
Proof.
  intros Hrestore Hacc. unfold restore_field.
  destruct acc as [b [[]|e]]; [|done].
  destruct (state_field k state) as [[v|]|e]; try done.
  eapply same_agent_trans; [exact Hacc|apply Hrestore].
Qed.

Lemma same_import_fields (a : PersistentA1) (merge : bool) (state : json) :
  same_agent a (import_fields env a merge state).1.
Proof.
  unfold import_fields.
  apply same_restore_field; [apply same_import_software|].
  apply same_restore_field; [apply same_import_data|].
  apply same_restore_field; [apply same_restore_tools|].
  destruct merge; cbn; auto with agent.
Qed.

Lemma same_import_state (a : PersistentA1) (p : Path) (merge : bool) (w : world) :
  same_agent a (import_state env a p merge w).1.1.
Proof.
  unfold import_state. destruct (fs w !! p) as [text|]; [|done].
  destruct (loads text) as [state|e]; [|done].
  pose proof (same_import_fields a merge state) as Hsame.
  destruct (import_fields env a merge state) as [b [[]|e]]; [|done].
  pose proof (same_save b w) as Hsave.
  destruct (_save_persistent_state env b w) as [c w']. cbn in *.
  by eapply same_agent_trans.
Qed.

(** A save of an agent without auto-save is the identity. *)
Lemma save_disabled (a : PersistentA1) (w : world) :
  auto_save_enabled a = false → _save_persistent_state env a w = (a, w).
Proof. unfold _save_persistent_state. by intros ->. Qed.

Lemma maybe_save_disabled (a : PersistentA1) (w : world) :
  auto_save_enabled a = false → maybe_save env a w = (a, w).
Proof. unfold maybe_save. by intros ->. Qed.

Lemma call_disabled (c : agent_call) (a : PersistentA1) (w : world) :
  auto_save_enabled a = false → is_export c = false →
  (call env c a w).2 = w ∧ auto_save_enabled (call env c a w).1 = false.
Proof.
  intros Hauto Hc.
  assert (Hkeep : ∀ b, same_agent a b → auto_save_enabled b = false)
    by (intros b (_ & _ & Hb & _); congruence).
  destruct c as [api r|data r|software install r|n|key| |p merge|p]; cbn [call];
    try discriminate Hc.
  - unfold add_tool. destruct r as [v|e]; [|done].
    match goal with |- context [maybe_save env ?b w] =>
      assert (Hb : same_agent a b)
        by (same_agent_step; same_agent_step; auto with agent);
      rewrite (maybe_save_disabled b w (Hkeep b Hb))
    end.
    split; [done|]. by apply Hkeep.
  - unfold add_data. destruct r as [v|e]; [|done].
    match goal with |- context [maybe_save env ?b w] =>
      assert (Hb : same_agent a b)
        by (same_agent_step; same_agent_step; auto with agent);
      rewrite (maybe_save_disabled b w (Hkeep b Hb))
    end.
    split; [done|]. by apply Hkeep.
  - unfold add_software. destruct r as [v|e]; [|done].
    match goal with |- context [maybe_save env ?b w] =>
      assert (Hb : same_agent a b)
        by (same_agent_step; same_agent_step; auto with agent);
      rewrite (maybe_save_disabled b w (Hkeep b Hb))
    end.
    split; [done|]. by apply Hkeep.
  - unfold remove_custom_tool. destruct (custom_tools a) as [tools|]; [|done].
    destruct (PyDict.mem n tools); [|done].
    by rewrite maybe_save_disabled.
  - unfold remove_custom_data. destruct (custom_data a) as [data|]; [|done].
    destruct (PyDict.mem key data); [|done].
    by rewrite maybe_save_disabled.
  - unfold save_state. by rewrite save_disabled.
  - pose proof (same_import_state a p merge w) as Hsame.
    split; [|by apply Hkeep].
    unfold import_state. destruct (fs w !! p) as [text|]; [|done].
    destruct (loads text) as [state|e]; [|done].
    pose proof (same_import_fields a merge state) as Hf.
    destruct (import_fields env a merge state) as [b [[]|e]]; [|done].
    rewrite save_disabled; [done|]. by apply Hkeep.
Qed.

Lemma calls_cons (c : agent_call) (cs : list agent_call) (a : PersistentA1)
    (w : world) :
  calls env (c :: cs) a w = calls env cs (call env c a w).1 (call env c a w).2.
Proof. unfold calls. cbn [foldl fst snd]. by destruct (call env c a w). Qed.

Lemma calls_disabled (cs : list agent_call) (a : PersistentA1) (w : world) :
  auto_save_enabled a = false →
  forallb (fun c => negb (is_export c)) cs = true →
  (calls env cs a w).2 = w ∧ auto_save_enabled (calls env cs a w).1 = false.
Proof.
  revert a w. induction cs as [|c cs IH]; intros a w Hauto Hcs; [done|].
  cbn in Hcs. apply andb_prop in Hcs as [Hc Hcs].
  apply negb_true_iff in Hc.
  destruct (call_disabled c a w Hauto Hc) as [Hw Ha].
  rewrite calls_cons, Hw. by apply IH.
Qed.

(** C10: for an agent built with [auto_save=False], [save_state] returns
    without writing: the world (every file, the state file among them) and
    the agent (its dirty flag among its fields) are unchanged.  The same
    holds for the file system after any sequence of calls other than
    [export_state]: adding, removing, saving and importing write nothing. *)
Theorem save_state_without_auto_save (a : PersistentA1) (w : world)
    (cs : list agent_call) :
  auto_save_enabled a = false →
  save_state env a w = (a, w) ∧
  load a (fs (save_state env a w).2) = load a (fs w) ∧
  state_dirty (save_state env a w).1 = state_dirty a ∧
  (forallb (fun c => negb (is_export c)) cs = true →
   (calls env cs a w).2 = w ∧ auto_save_enabled (calls env cs a w).1 = false).
Proof.
  intros Hauto. unfold save_state. rewrite save_disabled by done.
  repeat split; try done; by apply calls_disabled.
Qed.

End Frame.

(** ** Import and the state file *)

Section ImportSaves.
Variable env : environment.

Lemma saved_state_same (a b : PersistentA1) (t : nat) :
  same_agent a b →
  custom_tools b = custom_tools a → custom_data b = custom_data a →
  custom_software b = custom_software a →
  saved_state env b t = saved_state env a t.
Proof.
  intros (Hid & _ & _ & Hprov) Htools Hdata Hsoft.
  unfold saved_state, _serialize_custom_tools, agent_config.
  by rewrite Hid, Hprov, Htools, Hdata, Hsoft.
Qed.

Lemma save_keeps_contents (a : PersistentA1) (w : world) :
  let a' := (_save_persistent_state env a w).1 in
  custom_tools a' = custom_tools a ∧ custom_data a' = custom_data a ∧
  custom_software a' = custom_software a.
Proof.
  unfold _save_persistent_state. destruct (negb _); [done|].
  by destruct (save_ops env a (clock w)) as [ops [|]].
Qed.

(** For a snapshot within the embedding, the fields that [import_state]
    assigns are dictionaries. *)
Lemma object_field (k : string) (state v : json) :
  object_or_absent k state = true → state_field k state = Ret (Some v) →
  ∃ d, as_mapping v = Ret d.
Proof.
  unfold object_or_absent. intros Hobj Hfield. rewrite Hfield in Hobj.
  destruct v; try done. by eexists.
Qed.


End ImportSaves.

(** ** Dictionaries *)

Section DictLemmas.
Context {V : Type}.
Implicit Types (d : PyDict.t V) (k : string) (v : V).

Lemma get_set_eq k v d : PyDict.get k (PyDict.set k v d) = Some v.
Proof.
  induction d as [|[k' v'] d IH]; cbn.
  - by rewrite String.eqb_refl.
  - destruct (String.eqb k k') eqn:E; cbn; rewrite E; [done|exact IH].
Qed.

Lemma get_set_ne k k' v d :
  k ≠ k' → PyDict.get k' (PyDict.set k v d) = PyDict.get k' d.
Proof.
  intros Hne. induction d as [|[k0 v0] d IH]; cbn.
  - destruct (String.eqb_spec k' k); [congruence|done].
  - destruct (String.eqb_spec k k0) as [->|Hk]; cbn.
    + destruct (String.eqb_spec k' k0); [congruence|done].
    + destruct (String.eqb_spec k' k0); [done|exact IH].
Qed.

Lemma get_set k k' v d :
  PyDict.get k' (PyDict.set k v d) =
    if decide (k = k') then Some v else PyDict.get k' d.
Proof.
  case_decide as Hk; [subst; apply get_set_eq|by apply get_set_ne].
Qed.

Lemma get_None_keys k d : PyDict.get k d = None ↔ k ∉ PyDict.keys d.
Proof.
  induction d as [|[k' v'] d IH]; cbn.
  - split; [intros _; apply not_elem_of_nil|done].
  - rewrite not_elem_of_cons.
    destruct (String.eqb_spec k k') as [->|Hk].
    + split; [done|]. by intros [? _].
    + rewrite IH. split; [done|]. by intros [_ ?].
Qed.

Lemma keys_set_new k v d :
  PyDict.get k d = None → PyDict.keys (PyDict.set k v d) = PyDict.keys d ++ [k].
Proof.
  induction d as [|[k' v'] d IH]; cbn; [done|].
  destruct (String.eqb k k'); [done|]. intros Hd.
  change (k' :: PyDict.keys (PyDict.set k v d) = k' :: (PyDict.keys d ++ [k])).
  by rewrite IH.
Qed.

(** [update] gives the entries of the second dictionary priority. *)
Lemma get_update k d other :
  NoDup (PyDict.keys other) →
  PyDict.get k (PyDict.update d other) =
    match PyDict.get k other with
    | Some v => Some v
    | None => PyDict.get k d
    end.
Proof.
  unfold PyDict.update. revert d.
  induction other as [|[k' v'] other IH]; intros d Hnodup; [done|].
  cbn in Hnodup. apply NoDup_cons in Hnodup as [Hk' Hnodup].
  cbn [fold_left PyDict.get fst snd]. rewrite (IH _ Hnodup).
  destruct (String.eqb_spec k k') as [->|Hne].
  - apply get_None_keys in Hk'. rewrite Hk'. apply get_set_eq.
  - destruct (PyDict.get k other); [done|]. by apply get_set_ne.
Qed.
End DictLemmas.

Lemma map_set {V W : Type} (g : V → W) (k : string) (v : V) (d : PyDict.t V) :
  map (fun kv => (kv.1, g kv.2)) (PyDict.set k v d)
  = PyDict.set k (g v) (map (fun kv => (kv.1, g kv.2)) d).
Proof.
  induction d as [|[k' v'] d IH]; cbn; [done|].
  destruct (String.eqb k k'); cbn; [done|]. by rewrite IH.
Qed.

(** ** Two saves in a row *)

Section SaveTwice.
Variable env : environment.

(** The record of a callable depends on the clock only through its
    [timestamp]. *)
Lemma serialize_function_time (f : callable) (t t' : nat) :
  drop_key "timestamp" (serialize_function env f t).1
  = drop_key "timestamp" (serialize_function env f t').1.
Proof.
  unfold serialize_function, dill_tier, _fallback_serialization.
  destruct (fn_dill f) as [data|e]; destruct (fn_source f) as [src|e'];
    try reflexivity.
  destruct (is_OSError_or_TypeError (exn_cls e')); reflexivity.
Qed.

Lemma serialize_tools_time (tools : PyDict.t callable) (acc acc' : PyDict.t json)
    (t t' : nat) :
  map drop_record_time acc = map drop_record_time acc' →
  map drop_record_time (serialize_tools env tools acc t).1
  = map drop_record_time (serialize_tools env tools acc' t').1.
Proof.
  revert acc acc' t t'.
  induction tools as [|[n f] tools IH]; intros acc acc' t t' Hacc; [done|].
  cbn [serialize_tools].
  pose proof (serialize_function_time f t t') as Hf.
  destruct (serialize_function env f t) as [r t1].
  destruct (serialize_function env f t') as [r' t1'].
  apply IH. unfold drop_record_time in *.
  rewrite !(map_set (drop_key "timestamp")). cbn in Hf. by rewrite Hf, Hacc.
Qed.

Lemma saved_state_time (a : PersistentA1) (t t' : nat) :
  without_timestamps (saved_state env a t).1
  = without_timestamps (saved_state env a t').1.
Proof.
  unfold saved_state, _serialize_custom_tools.
  destruct (custom_tools a) as [tools|]; [|reflexivity].
  pose proof (serialize_tools_time tools [] [] (S t) (S t') eq_refl) as Htools.
  destruct (serialize_tools env tools [] (S t)) as [r t1].
  destruct (serialize_tools env tools [] (S t')) as [r' t1'].
  cbn in Htools. unfold without_timestamps. cbn.
  unfold drop_record_time in Htools. by rewrite Htools.
Qed.

Lemma saved_state_time_no_tools (a : PersistentA1) (t t' : nat) :
  no_tools a = true →
  without_timestamp (saved_state env a t).1
  = without_timestamp (saved_state env a t').1.
Proof.
  unfold no_tools, saved_state, _serialize_custom_tools.
  by destruct (custom_tools a) as [[|]|].
Qed.

(** C8, as the code has it: two saves in a row, with nothing changed in
    between, build states that are equal once the top-level [timestamp]
    and the [timestamp] of every capability record are left out, so their
    texts without these fields are byte-identical; each text is what the
    save put in the state file.  For an agent without capabilities,
    leaving out the top-level [timestamp] alone is enough. *)
Theorem save_twice_same_text (a : PersistentA1) (w : world) :
  let a1 := (_save_persistent_state env a w).1 in
  let w1 := (_save_persistent_state env a w).2 in
  let w2 := (_save_persistent_state env a1 w1).2 in
  let state1 := (saved_state env a (clock w)).1 in
  let state2 := (saved_state env a1 (clock w1)).1 in
  dumps (without_timestamps state1) = dumps (without_timestamps state2) ∧
  (no_tools a = true →
   dumps (without_timestamp state1) = dumps (without_timestamp state2)) ∧
  (∀ text1 text2, auto_save_enabled a = true →
     dumps state1 = Ret text1 → dumps state2 = Ret text2 →
     load a (fs w1) = Some text1 ∧ load a (fs w2) = Some text2).
Proof.
  intros a1 w1 w2 state1 state2.
  pose proof (same_save env a w) as Hsame. fold a1 in Hsame.
  pose proof (save_keeps_contents env a w) as (Ht & Hd & Hs).
  fold a1 in Ht, Hd, Hs.
  assert (Hstate : ∀ t, saved_state env a1 t = saved_state env a t)
    by (intros t; by apply saved_state_same).
  unfold state1, state2. rewrite Hstate.
  split; [by rewrite (saved_state_time a (clock w) (clock w1))|].
  split.
  - intros Hnone.
    by rewrite (saved_state_time_no_tools a (clock w) (clock w1)).
  - intros text1 text2 Hauto H1 H2. unfold load. split.
    + by apply save_writes_state_file.
    + rewrite <- (same_agent_state_file _ _ Hsame).
      apply save_writes_state_file.
      * destruct Hsame as (_ & _ & Hb & _). congruence.
      * by rewrite Hstate.
Qed.

End SaveTwice.

(** ** Encoding and decoding of callables *)

Section EngineProperties.
Variable env : environment.


(** Every way the body of [deserialize_function] can end. *)
Lemma deserialize_function_total (metadata : PyDict.t json) :
  deserialize_function env metadata = Ret None ∨
  ∃ func, deserialize_function env metadata = Ret (Some func).
Proof.
  unfold deserialize_function, try_except.
  destruct (deserialize_body env metadata) as [[func|]|e]; eauto.
Qed.

Lemma method_is_exclusive (m m' : string) (metadata : PyDict.t json) :
  method_is m metadata = true → m ≠ m' → method_is m' metadata = false.
Proof.
  unfold method_is.
  destruct (PyDict.get "serialization_method" metadata) as [[| | |s| | |]|];
    try done.
  intros ->%String.eqb_eq Hne. by apply String.eqb_neq.
Qed.

End EngineProperties.

(** ** Decoding, whatever the foreign code does *)

Lemma of_result_bind {A B : Type} (r : result A) (k : A → result B) :
  of_result (x ← r; k x) = (x ← of_result r; of_result (k x)).
Proof. by destruct r. Qed.

(** For foreign code that returns or raises an ordinary exception, the
    two embeddings of [deserialize_function] agree. *)
Lemma deserialize_body_raw_env (env : environment) (metadata : PyDict.t json) :
  deserialize_body_raw (interpreter_of env) metadata
  = of_result (deserialize_body env metadata).
Proof.
  unfold deserialize_body_raw, deserialize_body.
  destruct (method_is "dill" metadata).
  - destruct (getitem "serialized_data" metadata) as [[| | |s| | |]|e]; try done.
    cbn. destruct (dill_loads env s) as [func|e]; [|done]. cbn.
    by destruct (getitem "name" metadata).
  - destruct (method_is "source_code" metadata); [|done].
    destruct (getitem "source_code" metadata) as [source_code|e]; [|done]. cbn.
    destruct (truthy source_code); [|done].
    destruct source_code as [| | |s| | |]; try done.
    cbn. destruct (py_exec env s) as [exec_globals|e]; [|done]. cbn.
    destruct (getitem "name" metadata) as [func_name|e]; [|done]. cbn.
    destruct (lookup_callable func_name exec_globals) as [[func|]|e]; done.
Qed.

Lemma deserialize_function_raw_env (env : environment) (metadata : PyDict.t json) :
  deserialize_function_raw (interpreter_of env) metadata
  = of_result (deserialize_function env metadata).
Proof.
  unfold deserialize_function_raw, deserialize_function.
  rewrite deserialize_body_raw_env.
  by destruct (deserialize_body env metadata).
Qed.

Section DecodingProperties.
Variable python : interpreter.

Lemma ordinary_bind {A B : Type} (o : outcome A) (k : A → outcome B) :
  ordinary o = true → (∀ a, ordinary (k a) = true) → ordinary (x ← o; k x) = true.
Proof. destruct o as [a|e [| |]|b]; try done. intros _ Hk. apply Hk. Qed.

Lemma ordinary_of_result {A : Type} (r : result A) : ordinary (of_result r) = true.
Proof. by destruct r. Qed.

(** If the foreign code does nothing but return or raise an ordinary
    exception, so does the body of the [try]. *)
Lemma deserialize_body_raw_ordinary (metadata : PyDict.t json) :
  (∀ text, ordinary (run_dill_loads python text) = true) →
  (∀ source, ordinary (run_exec python source) = true) →
  ordinary (deserialize_body_raw python metadata) = true.
Proof.
  intros Hdill Hexec. unfold deserialize_body_raw.
  destruct (method_is "dill" metadata).
  - apply ordinary_bind; [apply ordinary_of_result|]. intros encoded_bytes.
    apply ordinary_bind; [by destruct encoded_bytes|]. intros text.
    apply ordinary_bind; [apply Hdill|]. intros func.
    apply ordinary_bind; [apply ordinary_of_result|]. done.
  - destruct (method_is "source_code" metadata); [|apply ordinary_of_result].
    apply ordinary_bind; [apply ordinary_of_result|]. intros source_code.
    destruct (truthy source_code); [|apply ordinary_of_result].
    apply ordinary_bind; [by destruct source_code|]. intros text.
    apply ordinary_bind; [apply Hexec|]. intros exec_globals.
    apply ordinary_bind; [apply ordinary_of_result|]. intros func_name.
    apply ordinary_bind; [apply ordinary_of_result|]. intros [func|]; [done|].
    apply ordinary_of_result.
Qed.

(** The body of the [try] for a record of the source tier. *)
Lemma deserialize_body_raw_source (metadata : PyDict.t json) (src : string) :
  method_is "source_code" metadata = true →
  PyDict.get "source_code" metadata = Some (JStr src) → src ≠ "" →
  deserialize_body_raw python metadata
  = (exec_globals ← run_exec python src;
     func_name ← of_result (getitem "name" metadata);
     found ← of_result (lookup_callable func_name exec_globals);
     match found with
     | Some func => Returns (Some func)
     | None => of_result (could_not_deserialize metadata)
     end).
Proof.
  intros Hm Hsrc Hne. unfold deserialize_body_raw.
  rewrite (method_is_exclusive _ "dill" _ Hm) by done. rewrite Hm.
  unfold getitem. rewrite Hsrc. cbn [of_result mbind outcome_bind].
  unfold truthy. by destruct src.
Qed.

(** The body of the [try] for a record of the dill tier. *)
Lemma deserialize_body_raw_dill (metadata : PyDict.t json) (payload : string) :
  method_is "dill" metadata = true →
  PyDict.get "serialized_data" metadata = Some (JStr payload) →
  deserialize_body_raw python metadata
  = (func ← run_dill_loads python payload;
     _ ← of_result (getitem "name" metadata);
     Returns (Some func)).
Proof.
  intros Hm Hdata. unfold deserialize_body_raw. rewrite Hm.
  unfold getitem. by rewrite Hdata.
Qed.

(** C7, as the code has it.  Decoding a metadata-only record yields no
    callable.  When unpickling and re-executed source text do nothing but
    return or raise an ordinary exception (an instance of [Exception]
    that can be formatted for the log), decoding any record returns, a
    callable or [None]: every failure inside the body (a missing key, a
    payload that does not load, source text whose execution raises, a
    recorded name absent from the executed text) gives [None].  What the
    handler does not turn into [None] reaches the caller: an exit
    ([SystemExit], [KeyboardInterrupt]) raised by unpickling or by the
    re-executed text, and whatever formatting the caught exception
    raises.  A record that is no dictionary makes the handler itself raise
    [AttributeError]. *)
Theorem deserialize_function_fails_closed (metadata : PyDict.t json) :
  (method_is "metadata_only" metadata = true →
   deserialize_function_raw python metadata = Returns None) ∧
  ((∀ text, ordinary (run_dill_loads python text) = true) →
   (∀ source, ordinary (run_exec python source) = true) →
   (deserialize_function_raw python metadata = Returns None ∨
    ∃ func, deserialize_function_raw python metadata = Returns (Some func)) ∧
   (∀ e f, deserialize_body_raw python metadata = Throws e f →
      deserialize_function_raw python metadata = Returns None)) ∧
  (∀ src e, method_is "source_code" metadata = true →
     PyDict.get "source_code" metadata = Some (JStr src) →
     run_exec python src = Throws e Formats →
     deserialize_function_raw python metadata = Returns None) ∧
  (∀ src exec_globals n, method_is "source_code" metadata = true →
     PyDict.get "source_code" metadata = Some (JStr src) →
     run_exec python src = Returns exec_globals →
     PyDict.get "name" metadata = Some (JStr n) →
     PyDict.get n exec_globals = None →
     deserialize_function_raw python metadata = Returns None) ∧
  (∀ src b, method_is "source_code" metadata = true →
     PyDict.get "source_code" metadata = Some (JStr src) → src ≠ "" →
     run_exec python src = Exits b →
     deserialize_function_raw python metadata = Exits b) ∧
  (∀ payload b, method_is "dill" metadata = true →
     PyDict.get "serialized_data" metadata = Some (JStr payload) →
     run_dill_loads python payload = Exits b →
     deserialize_function_raw python metadata = Exits b) ∧
  (∀ e e' f, deserialize_body_raw python metadata = Throws e (FormatRaises e' f) →
     deserialize_function_raw python metadata = Throws e' f) ∧
  (∀ e b, deserialize_body_raw python metadata = Throws e (FormatExits b) →
     deserialize_function_raw python metadata = Exits b) ∧
  deserialize_function_loaded python (JDict metadata)
  = deserialize_function_raw python metadata ∧
  (∀ v, (∀ d, v ≠ JDict d) →
     deserialize_function_loaded python v
     = Throws (mkExn AttributeError "get") Formats).
Proof.
  split; [|split; [|split; [|split; [|split; [|split; [|split; [|split; [|split]]]]]]]].
  - intros Hm. unfold deserialize_function_raw, deserialize_body_raw.
    rewrite (method_is_exclusive _ "dill" _ Hm) by done.
    rewrite (method_is_exclusive _ "source_code" _ Hm) by done.
    unfold could_not_deserialize, getitem.
    by destruct (PyDict.get "name" metadata).
  - intros Hdill Hexec.
    pose proof (deserialize_body_raw_ordinary metadata Hdill Hexec) as Hbody.
    unfold deserialize_function_raw.
    destruct (deserialize_body_raw python metadata) as [[func|]|e [| |]|b];
      try done; cbn; split; eauto; done.
  - intros src e Hm Hsrc Hexec. unfold deserialize_function_raw.
    destruct (String.eqb_spec src "") as [->|Hne].
    + unfold deserialize_body_raw.
      rewrite (method_is_exclusive _ "dill" _ Hm) by done. rewrite Hm.
      unfold getitem. rewrite Hsrc. cbn.
      unfold could_not_deserialize, getitem.
      by destruct (PyDict.get "name" metadata).
    + by rewrite (deserialize_body_raw_source _ _ Hm Hsrc Hne), Hexec.
  - intros src exec_globals n Hm Hsrc Hexec Hname Hn.
    unfold deserialize_function_raw.
    destruct (String.eqb_spec src "") as [->|Hne].
    + unfold deserialize_body_raw.
      rewrite (method_is_exclusive _ "dill" _ Hm) by done. rewrite Hm.
      unfold getitem. rewrite Hsrc. cbn.
      unfold could_not_deserialize, getitem. by rewrite Hname.
    + rewrite (deserialize_body_raw_source _ _ Hm Hsrc Hne), Hexec. cbn.
      unfold getitem. rewrite Hname. cbn. rewrite Hn. cbn.
      unfold could_not_deserialize, getitem. by rewrite Hname.
  - intros src b Hm Hsrc Hne Hexec. unfold deserialize_function_raw.
    by rewrite (deserialize_body_raw_source _ _ Hm Hsrc Hne), Hexec.
  - intros payload b Hm Hdata Hload. unfold deserialize_function_raw.
    by rewrite (deserialize_body_raw_dill _ _ Hm Hdata), Hload.
  - intros e e' f Hbody. unfold deserialize_function_raw. by rewrite Hbody.
  - intros e b Hbody. unfold deserialize_function_raw. by rewrite Hbody.
  - done.
  - intros v Hv. destruct v as [| | | | |d|]; try done. by destruct (Hv d).
Qed.

End DecodingProperties.

(** ** Import: merge and replace *)

Section ImportProperties.
Variable env : environment.

Lemma restore_tool_spec (tools : PyDict.t callable) (k : string) (record : json) :
  restore_tool env tools (k, record) =
    match decode_entry env record with
    | Some func => PyDict.set k func tools
    | None => tools
    end.
Proof.
  unfold restore_tool, decode_entry. cbn.
  destruct record as [| | | | |metadata|]; try done.
  by destruct (deserialize_function env metadata) as [[func|]|e].
Qed.

(** After the loop of [_restore_custom_tools], a name is bound to the
    decoded imported callable if there is one, and as before otherwise. *)
Lemma get_restore_tools (k : string) (records : PyDict.t json)
    (tools : PyDict.t callable) :
  NoDup (PyDict.keys records) →
  PyDict.get k (foldl (restore_tool env) tools records) =
    match PyDict.get k records ≫= decode_entry env with
    | Some func => Some func
    | None => PyDict.get k tools
    end.
Proof.
  revert tools.
  induction records as [|[k' record] records IH]; intros tools Hnodup; [done|].
  cbn in Hnodup. apply NoDup_cons in Hnodup as [Hk' Hnodup].
  change (foldl (restore_tool env) tools ((k', record) :: records))
    with (foldl (restore_tool env) (restore_tool env tools (k', record)) records).
  rewrite (IH _ Hnodup), restore_tool_spec.
  change (PyDict.get k ((k', record) :: records))
    with (if String.eqb k k' then Some record else PyDict.get k records).
  destruct (String.eqb_spec k k') as [->|Hne].
  - apply get_None_keys in Hk'. rewrite Hk'. cbn.
    destruct (decode_entry env record) as [func|]; [apply get_set_eq|done].
  - destruct (PyDict.get k records ≫= decode_entry env); [done|].
    destruct (decode_entry env record) as [func|]; [by apply get_set_ne|done].
Qed.

Lemma import_state_fields (a b : PersistentA1) (p : Path) (merge : bool)
    (w : world) (text : string) (state : json) :
  fs w !! p = Some text → loads text = Ret state →
  import_fields env a merge state = (b, Ret ()) →
  import_state env a p merge w =
    ((_save_persistent_state env b w).1, (_save_persistent_state env b w).2, Ret ()).
Proof.
  intros Hfile Hloads Hfields. unfold import_state.
  rewrite Hfile, Hloads, Hfields.
  by destruct (_save_persistent_state env b w).
Qed.

(** The dictionaries left by the in-memory part of an import of a snapshot
    that has the three fields. *)
Lemma import_fields_spec (a : PersistentA1) (merge : bool)
    (st records d s : PyDict.t json) :
  PyDict.get "custom_tools" st = Some (JDict records) →
  PyDict.get "custom_data" st = Some (JDict d) →
  PyDict.get "custom_software" st = Some (JDict s) →
  ∃ b, import_fields env a merge (JDict st) = (b, Ret ()) ∧
    custom_tools b =
      Some (foldl (restore_tool env)
              (if merge then default [] (custom_tools a) else []) records) ∧
    custom_data b =
      Some (match merge, custom_data a with
            | true, Some cur => PyDict.update cur d
            | _, _ => d
            end) ∧
    custom_software b =
      Some (match merge, custom_software a with
            | true, Some cur => PyDict.update cur s
            | _, _ => s
            end).
Proof.
  intros Htools Hdata Hsoft.
  unfold import_fields, restore_field, state_field.
  rewrite Htools, Hdata, Hsoft.
  unfold _restore_custom_tools, import_data, import_software, ensure_tools.
  cbn [as_dict as_mapping].
  destruct a as [id dir auto dirty tools data soft conf prov].
  destruct merge, tools as [tools|], data as [data|], soft as [soft|];
    cbn; eexists; repeat split.
Qed.

(** C3, as the code has it.  For a snapshot file with the three fields:
    the import returns normally; data and software references are the
    imported ones, on top of the existing ones when [merge] (the imported
    value wins a collision), and exactly the imported ones when not; a
    capability name is bound to the imported callable when its record
    decodes, and otherwise stays as it was when [merge] and is absent when
    not. *)
Theorem import_state_merge_or_replace (a : PersistentA1) (p : Path)
    (merge : bool) (w : world) (text : string) (st records d s : PyDict.t json) :
  fs w !! p = Some text → loads text = Ret (JDict st) →
  PyDict.get "custom_tools" st = Some (JDict records) →
  PyDict.get "custom_data" st = Some (JDict d) →
  PyDict.get "custom_software" st = Some (JDict s) →
  NoDup (PyDict.keys records) → NoDup (PyDict.keys d) → NoDup (PyDict.keys s) →
  let r := import_state env a p merge w in
  let old_if_merge {V} (k : string) (cur : option (PyDict.t V)) :=
    if merge then PyDict.get k (default [] cur) else None in
  r.2 = Ret () ∧
  (∀ k, PyDict.get k (default [] (custom_data r.1.1)) =
          match PyDict.get k d with
          | Some v => Some v
          | None => old_if_merge k (custom_data a)
          end) ∧
  (∀ k, PyDict.get k (default [] (custom_software r.1.1)) =
          match PyDict.get k s with
          | Some v => Some v
          | None => old_if_merge k (custom_software a)
          end) ∧
  (∀ k, PyDict.get k (default [] (custom_tools r.1.1)) =
          match PyDict.get k records ≫= decode_entry env with
          | Some func => Some func
          | None => old_if_merge k (custom_tools a)
          end) ∧
  (merge = false →
   custom_data r.1.1 = Some d ∧ custom_software r.1.1 = Some s).
Proof.
  intros Hfile Hloads Htools Hdata Hsoft Hrecords Hd Hs r old_if_merge.
  destruct (import_fields_spec a merge st records d s Htools Hdata Hsoft)
    as (b & Hfields & Hbt & Hbd & Hbs).
  pose proof (import_state_fields a b p merge w text _ Hfile Hloads Hfields) as Hr.
  pose proof (save_keeps_contents env b w) as (Ht & Hd' & Hs').
  unfold r. rewrite Hr. cbn [fst snd].
  rewrite Ht, Hd', Hs', Hbt, Hbd, Hbs. cbn [from_option id].
  unfold old_if_merge. split; [done|]. split; [|split; [|split]].
  - intros k. destruct merge, (custom_data a) as [cur|]; cbn;
      try (by destruct (PyDict.get k d)). by apply get_update.
  - intros k. destruct merge, (custom_software a) as [cur|]; cbn;
      try (by destruct (PyDict.get k s)). by apply get_update.
  - intros k. rewrite get_restore_tools by done. by destruct merge.
  - by intros ->.
Qed.

End ImportProperties.

(** ** The registry *)

Section ManagerProperties.
Variable env : environment.

Lemma ends_with_json (id : string) : ends_with ".json" (id +:+ ".json") = true.
Proof.
  induction id as [|c id IH]; [reflexivity|].
  rewrite app_cons. cbn [ends_with]. rewrite IH. apply orb_true_r.
Qed.

(** What [glob("*.json")] finds: the stems of the files of the states
    directory whose name ends in [.json]. *)
Lemma elem_of_on_disk (m : GlobalAgentManager) (x : string) :
  x ∈ on_disk m ↔
  ∃ p, is_Some (fs (outside m) !! p) ∧ parent p = states_dir m ∧
       ends_with ".json" (name p) = true ∧ stem (name p) = x.
Proof.
  unfold on_disk. rewrite list_elem_of_omap. split.
  - intros (p & Hp & Hx). apply elem_of_elements, elem_of_dom in Hp.
    case_decide as Hdir; [|done].
    destruct (ends_with ".json" (name p)) eqn:Hend; [|done].
    injection Hx as <-. by exists p.
  - intros (p & Hp & Hdir & Hend & <-). exists p. split.
    + by apply elem_of_elements, elem_of_dom.
    + by rewrite decide_True, Hend.
Qed.

Lemma elem_of_list_agents (m : GlobalAgentManager) (x : string) :
  x ∈ list_agents m ↔ x ∈ in_memory m ∨ x ∈ on_disk m.
Proof.
  unfold list_agents.
  by rewrite merge_sort_Permutation, elem_of_remove_dups, elem_of_app.
Qed.


(** *** Cloning *)

Lemma create_agent_keeps (m : GlobalAgentManager) (id id' : string) (overwrite : bool)
    (kw : kwargs) :
  is_Some (PyDict.get id (_agents m)) →
  is_Some (PyDict.get id (_agents (create_agent env m id' overwrite kw).2)).
Proof.
  intros Hid. unfold create_agent.
  destruct (PyDict.get id' (_agents m)) as [h|] eqn:Hid', overwrite; try done;
    cbn; rewrite get_set; by case_decide.
Qed.

(** An agent absent from the registry is created by [get_agent], whether
    or not a state file exists for it. *)
Lemma get_agent_registers (m : GlobalAgentManager) (id : string) (kw : kwargs) :
  PyDict.get id (_agents (get_agent env m id kw).2) = Some (get_agent env m id kw).1.
Proof.
  unfold get_agent, create_agent.
  destruct (PyDict.get id (_agents m)) as [h|] eqn:Hid; [done|].
  cbn. apply get_set_eq.
Qed.

(** Whatever happens next, [clone_agent] leaves its source registered: a
    source that nobody has seen is created on the way. *)
Lemma clone_agent_registers_source (m : GlobalAgentManager) (source target : string) :
  is_Some (PyDict.get source (_agents (clone_agent env m source target).2)).
Proof.
  unfold clone_agent.
  assert (Hsrc : ∃ h m1,
    match PyDict.get source (_agents m) with
    | None => get_agent env m source default_kwargs
    | Some h => (h, m)
    end = (h, m1) ∧ is_Some (PyDict.get source (_agents m1))).
  { destruct (PyDict.get source (_agents m)) as [h|] eqn:Hget.
    - exists h, m. by rewrite Hget.
    - pose proof (get_agent_registers m source default_kwargs) as Hreg.
      destruct (get_agent env m source default_kwargs) as [h m1].
      cbn in Hreg. exists h, m1. by rewrite Hreg. }
  destruct Hsrc as (h & m1 & -> & Hreg).
  destruct (objects m1 !! h) as [source_agent|]; [|done].
  destruct (export_state env source_agent _ _) as [w [[]|e]]; [|done].
  match goal with |- context [create_agent env ?m2 target false default_kwargs] =>
    pose proof (create_agent_keeps m2 source target false default_kwargs Hreg) as Hkeep;
    destruct (create_agent env m2 target false default_kwargs) as [tgt m3]
  end.
  destruct (objects m3 !! tgt) as [target_agent|]; [|done].
  by destruct (import_state env target_agent _ false _) as [[? ?] ?].
Qed.

End ManagerProperties.

(** ** Calls of [get_agent] for one agent id *)

Lemma keys_set_present {V : Type} (k : string) (v : V) (d : PyDict.t V) :
  is_Some (PyDict.get k d) → PyDict.keys (PyDict.set k v d) = PyDict.keys d.
Proof.
  induction d as [|[k' v'] d IH]; cbn; [by intros [? ?]|].
  destruct (String.eqb k k'); [done|]. intros Hd.
  change (k' :: PyDict.keys (PyDict.set k v d) = k' :: PyDict.keys d).
  by rewrite IH.
Qed.

Section GetAgentRuns.
Variable env : environment.
Variable agent_id : string.
Variable kw : kwargs.

(** A thread left alone makes the call: the steps of the interleaving
    model compose to [get_agent]. *)
Lemma thread_alone (m : GlobalAgentManager) :
  thread_steps env agent_id kw 4 (AtGetLookup, m) =
    (Returned (get_agent env m agent_id kw).1, (get_agent env m agent_id kw).2).
Proof.
  unfold get_agent, create_agent. cbn.
  destruct (PyDict.get agent_id (_agents m)) as [h|] eqn:Hget; cbn; [done|].
  rewrite Hget. reflexivity.
Qed.

Lemma get_agent_seen (m : GlobalAgentManager) (h : nat) (kw' : kwargs) :
  PyDict.get agent_id (_agents m) = Some h → get_agent env m agent_id kw' = (h, m).
Proof. unfold get_agent. by intros ->. Qed.

Lemma sequential_calls_seen (n : nat) (m : GlobalAgentManager) (h : nat) :
  PyDict.get agent_id (_agents m) = Some h →
  sequential_calls env agent_id kw n m = (replicate n h, m).
Proof.
  intros Hget. induction n as [|n IH]; [done|].
  cbn [sequential_calls]. by rewrite (get_agent_seen m h kw Hget), IH.
Qed.

Lemma registered_is_Some (m0 m : GlobalAgentManager) :
  PyDict.keys (_agents m) = PyDict.keys (_agents m0) ++ [agent_id] →
  is_Some (PyDict.get agent_id (_agents m)).
Proof.
  intros Hkeys. destruct (PyDict.get agent_id (_agents m)) eqn:Hget; [done|].
  apply get_None_keys in Hget. rewrite Hkeys in Hget.
  exfalso. apply Hget, elem_of_app. right. apply list_elem_of_singleton. done.
Qed.

(** One step of a thread leaves the outside world alone; it either keeps
    the registry, returning only what is registered, or assigns the id. *)
Lemma thread_step_cases (p : pc) (m : GlobalAgentManager) :
  let r := thread_step env agent_id kw p m in
  outside r.2 = outside m ∧
  ((_agents r.2 = _agents m ∧
    (is_returned r.1 →
     is_returned p ∨ is_Some (PyDict.get agent_id (_agents m)))) ∨
   ∃ h, _agents r.2 = PyDict.set agent_id h (_agents m)).
Proof.
  destruct p as [| | |h|h]; cbn.
  - destruct (PyDict.get agent_id (_agents m)) eqn:Hget; cbn; eauto.
  - destruct (PyDict.get agent_id (_agents m)) eqn:Hget; cbn; eauto.
  - split; [done|]. left. split; [done|]. by intros [].
  - eauto.
  - eauto.
Qed.

Lemma sched_step_invariant (m0 : GlobalAgentManager)
    (st : list pc * GlobalAgentManager) (i : nat) :
  PyDict.get agent_id (_agents m0) = None →
  run_invariant agent_id m0 st →
  run_invariant agent_id m0 (sched_step env agent_id kw st i).
Proof.
  intros Hfresh [Hout Hkeys]. unfold sched_step.
  destruct st as [pcs m]. cbn [fst snd] in *.
  destruct (pcs !! i) as [p|] eqn:Hp; [|done].
  pose proof (thread_step_cases p m) as [Hout' Hcases].
  destruct (thread_step env agent_id kw p m) as [p' m']. cbn [fst snd] in *.
  split; cbn [fst snd]; [congruence|].
  destruct Hkeys as [Hreg|[Hsame Hnone]].
  - left. pose proof (registered_is_Some m0 m Hreg) as Hsome.
    destruct Hcases as [[-> _]|[h ->]]; [done|].
    by rewrite keys_set_present.
  - assert (Hget : PyDict.get agent_id (_agents m) = None).
    { apply get_None_keys. rewrite Hsame. by apply get_None_keys. }
    destruct Hcases as [[-> Hret]|[h ->]].
    + right. split; [done|]. apply Forall_insert; [done|].
      intros Hp'. destruct (Hret Hp') as [Hold|Hsome].
      * eapply Forall_lookup_1 in Hnone; [|exact Hp]. done.
      * rewrite Hget in Hsome. by destruct Hsome.
    + left. by rewrite keys_set_new, Hsame.
Qed.

Lemma run_schedule_invariant (m0 : GlobalAgentManager) (n : nat) (schedule : list nat) :
  PyDict.get agent_id (_agents m0) = None →
  run_invariant agent_id m0 (run_schedule env agent_id kw n schedule m0).
Proof.
  intros Hfresh. unfold run_schedule.
  assert (Hstart : run_invariant agent_id m0 (replicate n AtGetLookup, m0)).
  { split; [done|]. right. split; [done|]. cbn.
    apply Forall_replicate. by intros []. }
  revert Hstart. generalize (replicate n AtGetLookup, m0).
  induction schedule as [|i schedule IH]; intros st Hst; [done|].
  cbn [foldl]. apply IH. by apply sched_step_invariant.
Qed.

Lemma sched_step_length (st : list pc * GlobalAgentManager) (i : nat) :
  length (sched_step env agent_id kw st i).1 = length st.1.
Proof.
  unfold sched_step. destruct (st.1 !! i) as [p|]; [|done].
  destruct (thread_step env agent_id kw p st.2). cbn. apply length_insert.
Qed.

Lemma run_schedule_length (n : nat) (schedule : list nat) (m : GlobalAgentManager) :
  length (run_schedule env agent_id kw n schedule m).1 = n.
Proof.
  unfold run_schedule.
  assert (Hstart : length (replicate n AtGetLookup, m).1 = n)
    by apply length_replicate.
  revert Hstart. generalize (replicate n AtGetLookup, m).
  induction schedule as [|i schedule IH]; intros st Hst; [done|].
  cbn [foldl]. apply IH. by rewrite sched_step_length.
Qed.

(** C9, as the code has it (the registry takes no lock).  For an agent id
    the registry has not seen: calls made one after the other all return
    the same single container, which is registered once; and whatever the
    interleaving of concurrent calls, once every caller has returned the
    id is registered exactly once and every later caller gets that
    registered container.  The calls write no file: a state file appears
    only with the first save. *)
Theorem get_agent_unseen (m : GlobalAgentManager) (n : nat) (schedule : list nat) :
  PyDict.get agent_id (_agents m) = None →
  let h := length (objects m) in
  let seq := sequential_calls env agent_id kw (S n) m in
  let run := run_schedule env agent_id kw (S n) schedule m in
  (seq.1 = replicate (S n) h ∧
   PyDict.get agent_id (_agents seq.2) = Some h ∧
   PyDict.keys (_agents seq.2) = PyDict.keys (_agents m) ++ [agent_id] ∧
   outside seq.2 = outside m) ∧
  (Forall is_returned run.1 →
   PyDict.keys (_agents run.2) = PyDict.keys (_agents m) ++ [agent_id] ∧
   outside run.2 = outside m ∧
   ∃ h', PyDict.get agent_id (_agents run.2) = Some h' ∧
         ∀ kw', get_agent env run.2 agent_id kw' = (h', run.2)).
Proof.
  intros Hfresh h seq run. split.
  - unfold seq. cbn [sequential_calls].
    unfold get_agent, create_agent. rewrite Hfresh.
    set (m1 := mkManager _ _ _ _ _).
    assert (Hget : PyDict.get agent_id (_agents m1) = Some h) by apply get_set_eq.
    rewrite (sequential_calls_seen n m1 h Hget). cbn [fst snd].
    repeat split; try done. by apply keys_set_new.
  - intros Hall.
    pose proof (run_schedule_invariant m (S n) schedule Hfresh) as [Hout Hkeys].
    pose proof (run_schedule_length (S n) schedule m) as Hlen.
    fold run in Hout, Hkeys, Hlen.
    assert (Hreg : PyDict.keys (_agents run.2)
                   = PyDict.keys (_agents m) ++ [agent_id]).
    { destruct Hkeys as [Hreg|[_ Hnone]]; [done|].
      destruct run.1 as [|p pcs]; [done|].
      apply Forall_cons in Hall as [Hp _]. apply Forall_cons in Hnone as [Hp' _].
      done. }
    repeat split; try done.
    destruct (registered_is_Some m run.2 Hreg) as [h' Hget].
    exists h'. split; [done|]. intros kw'. by apply get_agent_seen.
Qed.

End GetAgentRuns.

(** * Runs in the sample world *)

(** C1: a save of the receiver cut after its first three operations has
    left the state file absent, as it was; the complete save has written it. *)
Lemma save_is_atomic_witness :
  load (receiver true) (interrupted_save sample_env (receiver true) empty_world 3)
  = load (receiver true) (fs empty_world).
Proof.
  apply (save_is_atomic sample_env (receiver true) empty_world 3).
  left. vm_compute. lia.
Defined.

(** C3: the snapshot holds the capabilities [y] and [z]; the record of [z]
    is metadata only.  After a merging import the receiver has [x] and [y]
    and no [z]; after a replacing import it has [y] alone. *)
Lemma import_state_skips_undecodable :
  PyDict.keys (snapshot_field "custom_tools") = ["y"; "z"] ∧
  list_custom_tools (receiver true) = ["x"; "y"] ∧
  list_custom_tools
    (import_state sample_env (receiver true) snapshot_path true world_with_snapshot).1.1
  = ["x"; "y"] ∧
  list_custom_tools
    (import_state sample_env (receiver true) snapshot_path false world_with_snapshot).1.1
  = ["y"] ∧
  list_custom_data
    (import_state sample_env (receiver true) snapshot_path true world_with_snapshot).1.1
  = ["x.csv"; "y.csv"; "z.csv"] ∧
  list_custom_data
    (import_state sample_env (receiver true) snapshot_path false world_with_snapshot).1.1
  = ["y.csv"; "z.csv"].
Proof. vm_compute. done. Qed.

Lemma import_state_merge_or_replace_witness :
  (import_state sample_env (receiver true) snapshot_path true world_with_snapshot).2
  = Ret ().
Proof.
  refine (proj1 (import_state_merge_or_replace sample_env (receiver true)
    snapshot_path true world_with_snapshot snapshot_text snapshot_state
    (snapshot_field "custom_tools") (snapshot_field "custom_data")
    (snapshot_field "custom_software") _ _ _ _ _ _ _ _));
    try (vm_compute; reflexivity);
    match goal with
    | |- NoDup ?l => apply (bool_decide_unpack (NoDup l)); vm_compute; exact I
    end.
Defined.



(** C5: on an empty disk, with an empty registry, cloning the unknown agent
    [ghost] returns the target container; [ghost] itself has been created,
    empty, and registered. *)
Theorem clone_agent_unknown_source :
  PyDict.get "ghost" (_agents fresh_manager) = None ∧
  fs (outside fresh_manager) = ∅ ∧
  (clone_agent sample_env fresh_manager "ghost" "copy").1 = Ret 1 ∧
  PyDict.keys (_agents (clone_agent sample_env fresh_manager "ghost" "copy").2)
  = ["ghost"; "copy"] ∧
  objects (clone_agent sample_env fresh_manager "ghost" "copy").2 !! 0
  = Some (mkAgent "ghost" sample_dir true false None None None None no_attrs) ∧
  list_agents (clone_agent sample_env fresh_manager "ghost" "copy").2
  = ["copy"; "ghost"].
Proof. vm_compute. done. Qed.

(** C8: the receiver saves twice in a row; the two state files, read back
    and written again without their top-level [timestamp], differ (in the
    [timestamp] of the records of [x] and [y]). *)
Lemma save_twice_differs :
  ∃ text1 text2,
    load (receiver true) (fs (_save_persistent_state sample_env (receiver true)
                                empty_world).2) = Some text1 ∧
    load (receiver true)
      (fs (_save_persistent_state sample_env
             (_save_persistent_state sample_env (receiver true) empty_world).1
             (_save_persistent_state sample_env (receiver true) empty_world).2).2)
    = Some text2 ∧
    is_Ret (text_without without_timestamp text1) = true ∧
    text_without without_timestamp text1 ≠ text_without without_timestamp text2.
Proof.
  eexists _, _. split; [vm_compute; reflexivity|].
  split; [vm_compute; reflexivity|].
  split; [vm_compute; reflexivity|].
  vm_compute. intros [=].
Qed.

(** C9: two callers of [get_agent] for the unseen id [A], taking turns: the
    first receives container 0, the second container 1; the registry keeps
    container 1 only, and no state file exists afterwards. *)
Lemma get_agent_race :
  (run_schedule sample_env "A" default_kwargs 2 [0; 1; 0; 1; 0; 1; 0; 1]
     fresh_manager).1 = [Returned 0; Returned 1] ∧
  _agents (run_schedule sample_env "A" default_kwargs 2 [0; 1; 0; 1; 0; 1; 0; 1]
             fresh_manager).2 = [("A", 1)] ∧
  length (objects (run_schedule sample_env "A" default_kwargs 2
                     [0; 1; 0; 1; 0; 1; 0; 1] fresh_manager).2) = 2 ∧
  fs (outside (run_schedule sample_env "A" default_kwargs 2
                 [0; 1; 0; 1; 0; 1; 0; 1] fresh_manager).2)
    !! mkPath (states_dir fresh_manager) "A.json" = None.
Proof. vm_compute. done. Qed.

Lemma get_agent_unseen_witness :
  (sequential_calls sample_env "A" default_kwargs 2 fresh_manager).1 = [0; 0] ∧
  PyDict.get "A" (_agents (sequential_calls sample_env "A" default_kwargs 2
                             fresh_manager).2) = Some 0 ∧
  PyDict.keys (_agents (sequential_calls sample_env "A" default_kwargs 2
                          fresh_manager).2) = ["A"] ∧
  outside (sequential_calls sample_env "A" default_kwargs 2 fresh_manager).2
  = outside fresh_manager.
Proof.
  exact (proj1 (get_agent_unseen sample_env "A" default_kwargs fresh_manager 1
                  [0; 1; 0; 1; 0; 1; 0; 1] eq_refl)).
Defined.

(** C10: the receiver built with [auto_save=False] adds a tool, imports the
    snapshot and saves by hand: the world is as before. *)
Lemma save_state_without_auto_save_witness :
  save_state sample_env (receiver false) world_with_snapshot
  = (receiver false, world_with_snapshot) ∧
  (calls sample_env
     [CallAddTool tool_z (Ret JNull); CallImportState snapshot_path true;
      CallSaveState]
     (receiver false) world_with_snapshot).2 = world_with_snapshot.
Proof.
  destruct (save_state_without_auto_save sample_env (receiver false)
              world_with_snapshot
              [CallAddTool tool_z (Ret JNull); CallImportState snapshot_path true;
               CallSaveState] eq_refl) as (Hsave & _ & _ & Hcalls).
  split; [exact Hsave|]. exact (proj1 (Hcalls eq_refl)).
Defined.





(** C7: the record of [tool_z] is metadata only and decodes to no
    callable. *)
Lemma deserialize_function_fails_closed_witness :
  method_is "metadata_only" record_of_z = true ∧
  deserialize_function_raw (interpreter_of sample_env) record_of_z = Returns None.
Proof.
  split; [reflexivity|].
  apply (proj1 (deserialize_function_fails_closed (interpreter_of sample_env)
                  record_of_z)).
  reflexivity.
Defined.

(** C7: a record of the source tier whose text exits when executed.  The
    exit is no instance of [Exception]: it passes the handler and reaches
    the caller of [deserialize_function]. *)
Lemma deserialize_function_exits :
  method_is "source_code" exiting_record = true ∧
  deserialize_function_raw exiting_python exiting_record = Exits SystemExit ∧
  deserialize_function_loaded exiting_python (JDict exiting_record)
  = Exits SystemExit.
Proof. vm_compute. done. Qed.

(** C8: the two texts of the receiver's saves agree once every time stamp
    is left out. *)
Lemma save_twice_same_text_witness :
  dumps (without_timestamps (saved_state sample_env (receiver true) 0).1)
  = dumps (without_timestamps
             (saved_state sample_env
                (_save_persistent_state sample_env (receiver true) empty_world).1
                (clock (_save_persistent_state sample_env (receiver true)
                          empty_world).2)).1).
Proof.
  exact (proj1 (save_twice_same_text sample_env (receiver true) empty_world)).
Defined.

(** * Checks of the model against Python *)

(** [json.dumps({'a': 600, 'b': ['x', True, None, -12], 'c': {}}, indent=2)]
    and back. *)
Example dumps_loads_sample :
  let j := JDict [("a", JInt 600);
                  ("b", JList [JStr "x"; JBool true; JNull; JInt (-12)]);
                  ("c", JDict [])] in
  dumps j = Ret ("{" +:+ newline +:+ "  " +:+ dquote +:+ "a" +:+ dquote +:+ ": 600,"
                 +:+ newline +:+ "  " +:+ dquote +:+ "b" +:+ dquote +:+ ": ["
                 +:+ newline +:+ "    " +:+ dquote +:+ "x" +:+ dquote +:+ ","
                 +:+ newline +:+ "    true," +:+ newline +:+ "    null,"
                 +:+ newline +:+ "    -12" +:+ newline +:+ "  ],"
                 +:+ newline +:+ "  " +:+ dquote +:+ "c" +:+ dquote +:+ ": {}"
                 +:+ newline +:+ "}") ∧
  (text ← dumps j; loads text) = Ret j.
Proof. vm_compute. done. Qed.

(** The exported snapshot reads back as an object with the six fields. *)
Example snapshot_reads_back :
  PyDict.keys snapshot_state
  = ["agent_id"; "timestamp"; "custom_tools"; "custom_data"; "custom_software";
     "export_version"].
Proof. vm_compute. done. Qed.

(** A repeated key keeps its first position and its last value; a truncated
    text does not parse. *)
Example loads_corner_cases :
  loads ("{" +:+ dquote +:+ "a" +:+ dquote +:+ ": 1, " +:+ dquote +:+ "b" +:+ dquote
         +:+ ": 2, " +:+ dquote +:+ "a" +:+ dquote +:+ ": []}")
  = Ret (JDict [("a", JList []); ("b", JInt 2)]) ∧
  is_Ret (loads "[1, 2") = false ∧
  is_Ret (loads "") = false.
Proof. vm_compute. done. Qed.

(** [Path('alice.json').stem], [Path('.json').stem], [Path('a.b.json').stem]
    and the temporary files next to them. *)
Example stem_samples :
  stem "alice.json" = "alice" ∧ stem ".json" = ".json" ∧ stem "a.b.json" = "a.b" ∧
  with_suffix (mkPath "d" "alice.json") ".tmp" = mkPath "d" "alice.tmp" ∧
  with_suffix (mkPath "d" ".json") ".tmp" = mkPath "d" ".json.tmp".
Proof. vm_compute. done. Qed.

(** * Further properties

    ** Reading back what [json.dump] wrote *)

(** The inner loops of [iterencode] are [encode_items] and
    [encode_members]. *)
Lemma iterencode_list (level : nat) (x : json) (l : list json) :
  iterencode level (JList (x :: l)) =
    let '(cs, r) := encode_items level (iterencode (S level)) true (x :: l) in
    ("[" :: cs, r).
Proof. reflexivity. Qed.

Lemma iterencode_dict (level : nat) (kv : string * json) (d : list (string * json)) :
  iterencode level (JDict (kv :: d)) =
    let '(cs, r) := encode_members level (iterencode (S level)) true (kv :: d) in
    ("{" :: cs, r).
Proof. reflexivity. Qed.

(** Induction over a value and the values it holds. *)
Lemma json_ind' (P : json → Prop) :
  P JNull → (∀ b, P (JBool b)) → (∀ z, P (JInt z)) → (∀ s, P (JStr s)) →
  (∀ l, Forall P l → P (JList l)) →
  (∀ d, Forall (fun kv => P kv.2) d → P (JDict d)) →
  (∀ ty, P (JOpaque ty)) →
  ∀ j, P j.
Proof.
  intros Hnull Hbool Hint Hstr Hlist Hdict Hopaque.
  fix IH 1. intros [| b | z | s | l | d | ty].
  - exact Hnull.
  - apply Hbool.
  - apply Hint.
  - apply Hstr.
  - apply Hlist. induction l as [|x l IHl]; constructor; [apply IH|exact IHl].
  - apply Hdict. induction d as [|[k v] d IHd]; constructor; [apply IH|exact IHd].
  - apply Hopaque.
Qed.

(** A string literal: every character is read back from its escape. *)
Lemma parse_chars_escape_char (c : ascii) (tail : string) :
  parse_chars (escape_char c +:+ tail) =
    p ← parse_chars tail; Some (String c p.1, p.2).
Proof. destruct c as [[] [] [] [] [] [] [] []]; reflexivity. Qed.

Lemma parse_chars_escape (s rest : string) :
  parse_chars (escape s +:+ dquote +:+ rest) = Some (s, rest).
Proof.
  induction s as [|c s IH]; [reflexivity|].
  cbn [escape]. rewrite app_assoc_string, parse_chars_escape_char, IH.
  reflexivity.
Qed.

(** Integers: the decimal text of an integer is read back as the integer. *)
Lemma parse_digits_stop (acc : Z) (rest : string) :
  after_number rest → parse_digits acc rest = (acc, rest).
Proof. destruct rest as [|c r]; [done|]. cbn. by intros [-> _]. Qed.

Lemma parse_digits_uint (d : Decimal.uint) (acc : positive) (rest : string) :
  after_number rest →
  parse_digits (Z.pos acc) (NilEmpty.string_of_uint d +:+ rest)
  = (Z.pos (Pos.of_uint_acc d acc), rest).
Proof.
  intros Hrest. revert acc.
  induction d as [|d IH|d IH|d IH|d IH|d IH|d IH|d IH|d IH|d IH|d IH]; intros acc;
    cbn [NilEmpty.string_of_uint Pos.of_uint_acc];
    [by apply parse_digits_stop|..];
    rewrite app_cons;
    match goal with
    | |- parse_digits ?a (String ?c ?r) = (Z.pos (Pos.of_uint_acc _ ?p), _) =>
        change (parse_digits a (String c r))
          with (parse_digits (a * 10 + Z.of_nat (code c - 48)) r);
        let k := eval vm_compute in (Z.of_nat (code c - 48)) in
        replace (a * 10 + Z.of_nat (code c - 48))%Z with (Z.pos p)
          by (change (Z.of_nat (code c - 48)) with k; lia)
    end; apply IH.
Qed.

Lemma to_uint_leading (p : positive) :
  match Pos.to_uint p with
  | Decimal.Nil | Decimal.D0 _ => False
  | _ => True
  end.
Proof.
  pose proof (Unsigned.to_uint_nonzero p) as Hnz.
  pose proof (Unsigned.to_uint_nonnil p) as Hnn.
  pose proof (Unsigned.to_of (Pos.to_uint p)) as Hnorm.
  rewrite Unsigned.of_to in Hnorm. cbn [N.to_uint] in Hnorm.
  destruct (Pos.to_uint p) as [|l| | | | | | | | |]; try done.
  rewrite unorm_D0 in Hnorm.
  assert (Hl : l ≠ Decimal.Nil) by (intros ->; by apply Hnz).
  pose proof (nb_digits_unorm l Hl) as Hlen.
  rewrite <- Hnorm in Hlen. cbn in Hlen. lia.
Qed.

Lemma parse_int_digit (c : ascii) (r : string) :
  is_digit c = true → (code c =? 48) = false →
  parse_int (String c r) =
    (let '(z, rest) := parse_digits 0 (String c r) in
     if starts_fraction rest then None else Some (z, rest)) ∧
  parse_int (String "-" (String c r)) =
    (let '(z, rest) := parse_digits 0 (String c r) in
     if starts_fraction rest then None else Some ((- z)%Z, rest)).
Proof.
  intros Hdigit Hzero.
  assert (Hminus : (code c =? 45) = false).
  { unfold is_digit in Hdigit. apply andb_prop in Hdigit as [Hlo _].
    apply Nat.leb_le in Hlo. apply Nat.eqb_neq. lia. }
  unfold parse_int.
  change (code "-" =? 45) with true. cbn iota. rewrite Hminus, Hdigit, Hzero.
  split; [done|].
  by destruct (parse_digits 0 (String c r)) as [z rest], (starts_fraction rest).
Qed.

Lemma string_of_positive (p : positive) (rest : string) :
  after_number rest →
  NilZero.string_of_uint (Pos.to_uint p) = NilEmpty.string_of_uint (Pos.to_uint p) ∧
  ∃ c r, NilEmpty.string_of_uint (Pos.to_uint p) +:+ rest = String c r ∧
         is_digit c = true ∧ (code c =? 48) = false ∧
         parse_digits 0 (String c r) = (Z.pos p, rest).
Proof.
  intros Hrest. pose proof (to_uint_leading p) as Hlead.
  pose proof (Unsigned.of_to p) as Hval.
  destruct (Pos.to_uint p) as [|l|l|l|l|l|l|l|l|l|l]; try done;
    (split; [reflexivity|]);
    cbn [NilEmpty.string_of_uint Pos.of_uint] in *; rewrite app_cons;
    injection Hval as Hval;
    (eexists _, _; split; [reflexivity|]);
    (split; [reflexivity|]); (split; [reflexivity|]);
    match goal with |- parse_digits 0 (String ?c ?r) = _ =>
      change (parse_digits 0 (String c r))
        with (parse_digits (0 * 10 + Z.of_nat (code c - 48)) r);
      match type of Hval with Pos.of_uint_acc _ ?q = _ =>
        let k := eval vm_compute in (Z.of_nat (code c - 48)) in
        replace (0 * 10 + Z.of_nat (code c - 48))%Z with (Z.pos q)
          by (change (Z.of_nat (code c - 48)) with k; lia)
      end
    end;
    rewrite parse_digits_uint by done; by rewrite Hval.
Qed.

Lemma parse_int_encode (z : Z) (rest : string) :
  after_number rest → parse_int (encode_int z +:+ rest) = Some (z, rest).
Proof.
  intros Hrest.
  assert (Hfrac : starts_fraction rest = false).
  { destruct rest; [done|]. by destruct Hrest. }
  destruct z as [|p|p]; unfold encode_int; cbn [Z.to_int NilZero.string_of_int].
  - change (parse_int (String "0" rest) = Some (0%Z, rest)).
    change (parse_int (String "0" rest))
      with (if starts_fraction rest then None else Some (0%Z, rest)).
    by rewrite Hfrac.
  - destruct (string_of_positive p rest Hrest) as (-> & c & r & -> & Hd & Hz & Hp).
    destruct (parse_int_digit c r Hd Hz) as [-> _]. by rewrite Hp, Hfrac.
  - destruct (string_of_positive p rest Hrest) as (-> & c & r & Htext & Hd & Hz & Hp).
    rewrite app_cons, Htext.
    destruct (parse_int_digit c r Hd Hz) as [_ ->]. by rewrite Hp, Hfrac.
Qed.

(** Chunks and texts. *)
Lemma concat_chunks_cons (c : string) (cs : list string) :
  concat_chunks (c :: cs) = c +:+ concat_chunks cs.
Proof. reflexivity. Qed.

Lemma concat_chunks_app (cs cs' : list string) :
  concat_chunks (cs ++ cs') = concat_chunks cs +:+ concat_chunks cs'.
Proof.
  induction cs as [|c cs IH]; [reflexivity|].
  cbn [app]. by rewrite !concat_chunks_cons, IH, app_assoc_string.
Qed.

(** The dump of an encodable value runs to its end. *)
Lemma iterencode_encodable (j : json) :
  encodable j = true → ∀ level, (iterencode level j).2 = None.
Proof.
  induction j as [| [] | z | s | l IH | d IH | ty] using json_ind';
    intros Henc level; try done.
  - destruct l as [|x l]; [done|].
    rewrite iterencode_list.
    assert (Hitems : ∀ first,
      (encode_items level (iterencode (S level)) first (x :: l)).2 = None).
    { cbn [encodable] in Henc. revert Henc IH. generalize (x :: l). clear x l.
      intros l Henc IH. induction l as [|x l IHl]; intros first; [done|].
      cbn [forallb] in Henc. apply andb_prop in Henc as [Hx Hl].
      apply Forall_cons in IH as [IHx IH].
      cbn [encode_items]. specialize (IHx Hx (S level)).
      destruct (iterencode (S level) x) as [cs [e|]]; [done|].
      specialize (IHl Hl IH false).
      by destruct (encode_items level (iterencode (S level)) false l). }
    specialize (Hitems true).
    by destruct (encode_items level (iterencode (S level)) true (x :: l)).
  - destruct d as [|kv d]; [done|].
    rewrite iterencode_dict.
    assert (Hmembers : ∀ first,
      (encode_members level (iterencode (S level)) first (kv :: d)).2 = None).
    { cbn [encodable] in Henc. revert Henc IH. generalize (kv :: d). clear kv d.
      intros d Henc IH. induction d as [|[k v] d IHd]; intros first; [done|].
      cbn [forallb] in Henc. apply andb_prop in Henc as [Hv Hd].
      apply Forall_cons in IH as [IHv IH].
      cbn [encode_members]. specialize (IHv Hv (S level)).
      cbn [snd] in IHv.
      destruct (iterencode (S level) v) as [cs [e|]]; [done|].
      specialize (IHd Hd IH false).
      by destruct (encode_members level (iterencode (S level)) false d). }
    specialize (Hmembers true).
    by destruct (encode_members level (iterencode (S level)) true (kv :: d)).
Qed.

Lemma items_text_cons (level : nat) (x : json) (l : list json) :
  encodable x = true →
  items_text level (x :: l)
  = "," +:+ newline_indent (S level) +:+ render (S level) x +:+ items_text level l.
Proof.
  intros Hx. unfold items_text, render. cbn [encode_items].
  pose proof (iterencode_encodable x Hx (S level)) as Hnone.
  destruct (iterencode (S level) x) as [cs r]. cbn in Hnone. subst r.
  destruct (encode_items level (iterencode (S level)) false l) as [cs' r'].
  cbn [fst]. rewrite concat_chunks_cons, concat_chunks_app.
  by rewrite app_assoc_string.
Qed.

Lemma render_list (level : nat) (x : json) (l : list json) :
  encodable x = true →
  render level (JList (x :: l))
  = "[" +:+ newline_indent (S level) +:+ render (S level) x +:+ items_text level l.
Proof.
  intros Hx. unfold items_text, render. rewrite iterencode_list.
  cbn [encode_items].
  pose proof (iterencode_encodable x Hx (S level)) as Hnone.
  destruct (iterencode (S level) x) as [cs r]. cbn in Hnone. subst r.
  destruct (encode_items level (iterencode (S level)) false l) as [cs' r'].
  cbn [fst]. rewrite !concat_chunks_cons, concat_chunks_app.
  reflexivity.
Qed.

Lemma members_text_cons (level : nat) (k : string) (v : json)
    (d : list (string * json)) :
  encodable v = true →
  members_text level ((k, v) :: d)
  = "," +:+ newline_indent (S level) +:+ encode_str k +:+ ": "
    +:+ render (S level) v +:+ members_text level d.
Proof.
  intros Hv. unfold members_text, render. cbn [encode_members].
  pose proof (iterencode_encodable v Hv (S level)) as Hnone.
  destruct (iterencode (S level) v) as [cs r]. cbn in Hnone. subst r.
  destruct (encode_members level (iterencode (S level)) false d) as [cs' r'].
  cbn [fst]. rewrite !concat_chunks_cons, concat_chunks_app.
  by rewrite app_assoc_string.
Qed.

Lemma render_dict (level : nat) (k : string) (v : json) (d : list (string * json)) :
  encodable v = true →
  render level (JDict ((k, v) :: d))
  = "{" +:+ newline_indent (S level) +:+ encode_str k +:+ ": "
    +:+ render (S level) v +:+ members_text level d.
Proof.
  intros Hv. unfold members_text, render. rewrite iterencode_dict.
  cbn [encode_members].
  pose proof (iterencode_encodable v Hv (S level)) as Hnone.
  destruct (iterencode (S level) v) as [cs r]. cbn in Hnone. subst r.
  destruct (encode_members level (iterencode (S level)) false d) as [cs' r'].
  cbn [fst]. rewrite !concat_chunks_cons, concat_chunks_app.
  reflexivity.
Qed.

(** White space, and the parser by first character. *)
Lemma after_value_number (rest : string) : after_value rest → after_number rest.
Proof.
  destruct rest as [|c r]; [done|]. intros [H|H]; cbn.
  - unfold is_digit. by rewrite H.
  - unfold is_digit. by rewrite H.
Qed.

Lemma skip_ws_spaces (n : nat) (s : string) : skip_ws (spaces n +:+ s) = skip_ws s.
Proof. induction n as [|n IH]; [reflexivity|exact IH]. Qed.

Lemma skip_ws_newline_indent (n : nat) (s : string) :
  skip_ws (newline_indent n +:+ s) = skip_ws s.
Proof. exact (skip_ws_spaces n s). Qed.

Lemma skip_ws_starts_value (s : string) : starts_value s → skip_ws s = s.
Proof. destruct s as [|c r]; [done|]. intros [H _]. cbn. by rewrite H. Qed.

Lemma skip_ws_idemp (s : string) : skip_ws (skip_ws s) = skip_ws s.
Proof.
  induction s as [|c r IH]; [done|]. cbn.
  destruct (is_ws c) eqn:Hc; [done|]. cbn. by rewrite Hc.
Qed.

Lemma parse_value_skip_ws (fuel : nat) (s : string) :
  parse_value fuel (skip_ws s) = parse_value fuel s.
Proof.
  destruct fuel as [|fuel]; [reflexivity|].
  cbn [parse_value]. by rewrite skip_ws_idemp.
Qed.

Lemma parse_value_newline_indent (fuel n : nat) (s : string) :
  parse_value fuel (newline_indent n +:+ s) = parse_value fuel s.
Proof.
  by rewrite <- parse_value_skip_ws, skip_ws_newline_indent, parse_value_skip_ws.
Qed.

Lemma parse_members_skip_ws (fuel : nat) (s : string) acc :
  parse_members fuel (skip_ws s) acc = parse_members fuel s acc.
Proof.
  destruct fuel as [|fuel]; [reflexivity|].
  cbn [parse_members]. by rewrite skip_ws_idemp.
Qed.

Lemma parse_value_string (fuel : nat) (r : string) :
  parse_value (S fuel) (dquote +:+ r) = p ← parse_chars r; Some (JStr p.1, p.2).
Proof. reflexivity. Qed.

Lemma parse_value_null (fuel : nat) (r : string) :
  parse_value (S fuel) ("null" +:+ r) = Some (JNull, r).
Proof. reflexivity. Qed.

Lemma parse_value_true (fuel : nat) (r : string) :
  parse_value (S fuel) ("true" +:+ r) = Some (JBool true, r).
Proof. reflexivity. Qed.

Lemma parse_value_false (fuel : nat) (r : string) :
  parse_value (S fuel) ("false" +:+ r) = Some (JBool false, r).
Proof. reflexivity. Qed.

Lemma parse_value_list (fuel : nat) (r : string) :
  parse_value (S fuel) ("[" +:+ r)
  = match skip_ws r with
    | String c' r' =>
        if (code c' =? 93)%nat then Some (JList [], r') else parse_elems fuel r []
    | EmptyString => None
    end.
Proof. reflexivity. Qed.

Lemma parse_value_dict (fuel : nat) (r : string) :
  parse_value (S fuel) ("{" +:+ r)
  = match skip_ws r with
    | String c' r' =>
        if (code c' =? 125)%nat then Some (JDict [], r') else parse_members fuel r []
    | EmptyString => None
    end.
Proof. reflexivity. Qed.

Lemma parse_value_digit (fuel : nat) (c : ascii) (r : string) :
  is_digit c = true →
  parse_value (S fuel) (String c r)
  = p ← parse_int (String c r); Some (JInt p.1, p.2).
Proof.
  destruct c as [[] [] [] [] [] [] [] []]; try discriminate; reflexivity.
Qed.

Lemma parse_value_minus (fuel : nat) (r : string) :
  parse_value (S fuel) ("-" +:+ r) = p ← parse_int ("-" +:+ r); Some (JInt p.1, p.2).
Proof. reflexivity. Qed.

Lemma is_digit_starts_value (c : ascii) (r : string) :
  is_digit c = true → starts_value (String c r).
Proof.
  destruct c as [[] [] [] [] [] [] [] []]; try discriminate; done.
Qed.

Lemma encode_int_cases (z : Z) (rest : string) :
  after_number rest →
  ∃ c r, encode_int z +:+ rest = String c r
         ∧ (is_digit c = true ∨ c = "-"%char).
Proof.
  intros Hrest. destruct z as [|p|p].
  - exists "0"%char, rest. split; [reflexivity|by left].
  - destruct (string_of_positive p rest Hrest) as (Heq & c & r & Hs & Hd & _).
    exists c, r. split; [|by left].
    rewrite <- Hs. unfold encode_int. cbn [Z.to_int]. cbn [NilZero.string_of_int].
    by rewrite Heq.
  - eexists "-"%char, _. split; [|by right].
    unfold encode_int. cbn [Z.to_int NilZero.string_of_int].
    rewrite app_cons. reflexivity.
Qed.

Lemma parse_value_encode_int (fuel : nat) (z : Z) (rest : string) :
  after_number rest →
  parse_value (S fuel) (encode_int z +:+ rest) = Some (JInt z, rest).
Proof.
  intros Hrest.
  destruct (encode_int_cases z rest Hrest) as (c & r & Heq & [Hc | ->]).
  - rewrite Heq, (parse_value_digit _ _ _ Hc), <- Heq.
    by rewrite (parse_int_encode z rest Hrest).
  - rewrite Heq. change (String "-" r) with ("-" +:+ r).
    rewrite parse_value_minus. change ("-" +:+ r) with (String "-" r).
    rewrite <- Heq. by rewrite (parse_int_encode z rest Hrest).
Qed.

Lemma render_starts_value (level : nat) (j : json) (rest : string) :
  encodable j = true → after_number rest →
  starts_value (render level j +:+ rest).
Proof.
  intros Henc Hrest.
  destruct j as [| [] | z | s | l | d | ty]; try done.
  - destruct (encode_int_cases z rest Hrest) as (c & r & Heq & [Hc | ->]).
    + unfold render. cbn [iterencode fst]. rewrite concat_chunks_cons.
      cbn [concat_chunks foldr]. rewrite app_empty_r, Heq.
      by apply is_digit_starts_value.
    + unfold render. cbn [iterencode fst]. rewrite concat_chunks_cons.
      cbn [concat_chunks foldr]. rewrite app_empty_r, Heq. done.
  - destruct l as [|x l]; [done|].
    unfold render. rewrite iterencode_list.
    destruct (encode_items level (iterencode (S level)) true (x :: l)) as [cs r].
    done.
  - destruct d as [|kv d]; [done|].
    unfold render. rewrite iterencode_dict.
    destruct (encode_members level (iterencode (S level)) true (kv :: d)) as [cs r].
    done.
Qed.

Lemma items_text_nil (level : nat) : items_text level [] = newline_indent level +:+ "]".
Proof. reflexivity. Qed.

Lemma members_text_nil (level : nat) :
  members_text level [] = newline_indent level +:+ "}".
Proof. reflexivity. Qed.

Lemma items_text_after_value (level : nat) (l : list json) (rest : string) :
  forallb encodable l = true → after_value (items_text level l +:+ rest).
Proof.
  destruct l as [|x l]; intros Henc.
  - by right.
  - cbn [forallb] in Henc. apply andb_prop in Henc as [Hx _].
    rewrite (items_text_cons _ _ _ Hx). by left.
Qed.

Lemma members_text_after_value (level : nat) (d : list (string * json)) (rest : string) :
  forallb (fun kv => encodable kv.2) d = true →
  after_value (members_text level d +:+ rest).
Proof.
  destruct d as [|[k v] d]; intros Henc.
  - by right.
  - cbn [forallb] in Henc. apply andb_prop in Henc as [Hv _].
    rewrite (members_text_cons _ _ _ _ Hv). by left.
Qed.

(** Lists and dictionaries. *)
Lemma parse_elems_step (fuel : nat) (s : string) (acc : list json) :
  parse_elems (S fuel) s acc
  = p ← parse_value fuel s;
    match skip_ws p.2 with
    | String c r =>
        match code c with
        | 44 => parse_elems fuel r (acc ++ [p.1])
        | 93 => Some (JList (acc ++ [p.1]), r)
        | _ => None
        end
    | EmptyString => None
    end.
Proof. reflexivity. Qed.

Lemma parse_elems_render (l : list json) :
  Forall reads_back l → forallb encodable l = true →
  ∀ x, reads_back x → encodable x = true →
  ∀ level fuel acc rest,
    S (json_size x) + elems_size l ≤ fuel → after_value rest →
    parse_elems fuel
      (newline_indent (S level) +:+ render (S level) x
       +:+ items_text level l +:+ rest) acc
    = Some (JList (acc ++ x :: l), rest).
Proof.
  induction l as [|y l IH]; intros Hl Hencl x Hx Hencx level fuel acc rest Hfuel Hrest.
  - destruct fuel as [|fuel]; [unfold elems_size, list_sum in Hfuel; cbn [map fold_right] in Hfuel; lia|].
    rewrite parse_elems_step, parse_value_newline_indent.
    rewrite (Hx (S level) fuel (items_text level [] +:+ rest));
      [|unfold elems_size, list_sum in Hfuel; cbn [map fold_right] in Hfuel; lia|by apply items_text_after_value].
    cbn [mbind option_bind fst snd].
    rewrite items_text_nil, app_assoc_string, skip_ws_newline_indent.
    reflexivity.
  - destruct fuel as [|fuel]; [unfold elems_size, list_sum in Hfuel; cbn [map fold_right] in Hfuel; lia|].
    apply Forall_cons in Hl as [Hy Hl].
    pose proof Hencl as Hencl'.
    cbn [forallb] in Hencl. apply andb_prop in Hencl as [Hency Hencl].
    rewrite parse_elems_step, parse_value_newline_indent.
    rewrite (Hx (S level) fuel (items_text level (y :: l) +:+ rest));
      [|unfold elems_size, list_sum in Hfuel; cbn [map fold_right] in Hfuel; lia|by apply items_text_after_value].
    cbn [mbind option_bind fst snd].
    rewrite (items_text_cons _ _ _ Hency), !app_assoc_string.
    change (skip_ws ("," +:+ ?s)) with ("," +:+ s).
    change (match "," +:+ ?s with String c r => _ | EmptyString => _ end)
      with (parse_elems fuel s (acc ++ [x])).
    rewrite <- !app_assoc_string, !app_assoc_string.
    rewrite (IH Hl Hencl y Hy Hency level fuel (acc ++ [x]) rest); [|  |done].
    + by rewrite <- app_assoc.
    + unfold elems_size, list_sum in *. cbn [map fold_right] in *. lia.
Qed.

Lemma set_new {V : Type} (k : string) (v : V) (d : PyDict.t V) :
  k ∉ PyDict.keys d → PyDict.set k v d = d ++ [(k, v)].
Proof.
  induction d as [|[k' v'] d IH]; cbn; [done|].
  rewrite not_elem_of_cons. intros [Hne Hd].
  destruct (String.eqb_spec k k'); [done|]. by rewrite IH.
Qed.

Lemma parse_members_key (fuel : nat) (r : string) (acc : list (string * json)) :
  parse_members (S fuel) (dquote +:+ r) acc
  = k ← parse_chars r;
    match skip_ws k.2 with
    | String c r' =>
        if (code c =? 58)%nat then
          p ← parse_value fuel r';
          let acc' := PyDict.set k.1 p.1 acc in
          match skip_ws p.2 with
          | String c' r'' =>
              match code c' with
              | 44 => parse_members fuel r'' acc'
              | 125 => Some (JDict acc', r'')
              | _ => None
              end
          | EmptyString => None
          end
        else None
    | EmptyString => None
    end.
Proof. reflexivity. Qed.

Lemma parse_members_entry (fuel : nat) (k text : string) (acc : list (string * json)) :
  parse_members (S fuel) (encode_str k +:+ ": " +:+ text) acc
  = (p ← parse_value fuel text; members_next fuel k acc p).
Proof.
  unfold encode_str. rewrite !app_assoc_string.
  rewrite parse_members_key, parse_chars_escape.
  cbn [mbind option_bind fst snd].
  change ((p ← parse_value fuel (" " +:+ text); members_next fuel k acc p)
          = (p ← parse_value fuel text; members_next fuel k acc p)).
  rewrite <- (parse_value_skip_ws fuel (" " +:+ text)).
  change (skip_ws (" " +:+ text)) with (skip_ws text).
  by rewrite parse_value_skip_ws.
Qed.

Lemma parse_members_render (d : list (string * json)) :
  Forall (fun kv => reads_back kv.2) d →
  forallb (fun kv => encodable kv.2) d = true →
  ∀ k v, reads_back v → encodable v = true →
  ∀ level fuel acc rest,
    NoDup (PyDict.keys (acc ++ (k, v) :: d)) →
    S (json_size v) + members_size d ≤ fuel → after_value rest →
    parse_members fuel
      (newline_indent (S level) +:+ encode_str k +:+ ": " +:+ render (S level) v
       +:+ members_text level d +:+ rest) acc
    = Some (JDict (acc ++ (k, v) :: d), rest).
Proof.
  induction d as [|[k' v'] d IH];
    intros Hd Hencd k v Hv Hencv level fuel acc rest Hkeys Hfuel Hrest.
  - destruct fuel as [|fuel];
      [unfold members_size, list_sum in Hfuel; cbn [map fold_right] in Hfuel; lia|].
    rewrite <- parse_members_skip_ws, skip_ws_newline_indent, parse_members_skip_ws.
    rewrite parse_members_entry.
    rewrite (Hv (S level) fuel (members_text level [] +:+ rest));
      [|unfold members_size, list_sum in Hfuel; cbn [map fold_right] in Hfuel; lia
       |by apply members_text_after_value].
    cbn [mbind option_bind]. unfold members_next. cbn [fst snd].
    rewrite members_text_nil, app_assoc_string, skip_ws_newline_indent.
    change (Some (JDict (PyDict.set k v acc), rest) = Some (JDict (acc ++ [(k, v)]), rest)).
    rewrite set_new; [done|].
    unfold PyDict.keys in Hkeys. rewrite map_app in Hkeys.
    apply NoDup_app in Hkeys as (_ & Hdisj & _).
    intros Hin. apply (Hdisj k Hin). cbn. by left.
  - destruct fuel as [|fuel];
      [unfold members_size, list_sum in Hfuel; cbn [map fold_right] in Hfuel; lia|].
    apply Forall_cons in Hd as [Hv' Hd]. cbn [snd] in Hv'.
    pose proof Hencd as Hencd'.
    cbn [forallb] in Hencd. apply andb_prop in Hencd as [Hencv' Hencd].
    cbn [snd] in Hencv'.
    rewrite <- parse_members_skip_ws, skip_ws_newline_indent, parse_members_skip_ws.
    rewrite parse_members_entry.
    rewrite (Hv (S level) fuel (members_text level ((k', v') :: d) +:+ rest));
      [|unfold members_size, list_sum in Hfuel; cbn [map fold_right] in Hfuel; lia
       |by apply members_text_after_value].
    cbn [mbind option_bind]. unfold members_next. cbn [fst snd].
    rewrite (members_text_cons _ _ _ _ Hencv'), !app_assoc_string.
    change (skip_ws ("," +:+ ?s)) with ("," +:+ s).
    cbn zeta.
    change (match "," +:+ ?s with String c r => _ | EmptyString => _ end)
      with (parse_members fuel s (PyDict.set k v acc)).
    assert (Hk : k ∉ PyDict.keys acc).
    { unfold PyDict.keys in Hkeys. rewrite map_app in Hkeys.
      apply NoDup_app in Hkeys as (_ & Hdisj & _).
      intros Hin. apply (Hdisj k Hin). cbn. by left. }
    rewrite (set_new _ _ _ Hk).
    rewrite <- !app_assoc_string, !app_assoc_string.
    rewrite (IH Hd Hencd k' v' Hv' Hencv' level fuel (acc ++ [(k, v)]) rest);
      [| | |done].
    + by rewrite <- app_assoc.
    + by rewrite <- app_assoc.
    + unfold members_size, list_sum in *. cbn [map fold_right snd] in *. lia.
Qed.

Lemma json_size_list (x : json) (l : list json) :
  json_size (JList (x :: l)) = S (S (json_size x) + elems_size l).
Proof. reflexivity. Qed.

Lemma json_size_dict (k : string) (v : json) (d : list (string * json)) :
  json_size (JDict ((k, v) :: d)) = S (S (json_size v) + members_size d).
Proof. reflexivity. Qed.

Lemma render_scalar (level : nat) (j : json) (text : string) :
  iterencode level j = ([text], None) → render level j = text.
Proof. unfold render. intros ->. cbn. apply app_empty_r. Qed.

(** The text of an encodable value without repeated keys, followed by a
    separator or by nothing, is read back as the value, given fuel for
    every node. *)
Lemma parse_value_render (j : json) :
  encodable j = true → well_keyed j = true → reads_back j.
Proof.
  induction j as [| b | z | s | l IH | d IH | ty] using json_ind';
    intros Henc Hkeys level fuel rest Hfuel Hrest; try done.
  - destruct fuel as [|fuel]; [cbn in Hfuel; lia|].
    rewrite (render_scalar level JNull "null" eq_refl). apply parse_value_null.
  - destruct fuel as [|fuel]; [cbn in Hfuel; lia|].
    destruct b.
    + rewrite (render_scalar level (JBool true) "true" eq_refl).
      apply parse_value_true.
    + rewrite (render_scalar level (JBool false) "false" eq_refl).
      apply parse_value_false.
  - destruct fuel as [|fuel]; [cbn in Hfuel; lia|].
    rewrite (render_scalar level (JInt z) (encode_int z) eq_refl).
    apply parse_value_encode_int. by apply after_value_number.
  - destruct fuel as [|fuel]; [cbn in Hfuel; lia|].
    rewrite (render_scalar level (JStr s) (encode_str s) eq_refl).
    unfold encode_str. rewrite !app_assoc_string.
    by rewrite parse_value_string, parse_chars_escape.
  - destruct l as [|x l].
    + destruct fuel as [|fuel]; [cbn in Hfuel; lia|]. reflexivity.
    + rewrite json_size_list in Hfuel.
      destruct fuel as [|fuel]; [lia|].
      cbn [encodable forallb] in Henc. apply andb_prop in Henc as [Hx Hl].
      cbn [well_keyed forallb] in Hkeys. apply andb_prop in Hkeys as [Hkx Hkl].
      apply Forall_cons in IH as [IHx IH].
      rewrite (render_list _ _ _ Hx), !app_assoc_string.
      rewrite parse_value_list, skip_ws_newline_indent.
      assert (Hstart : starts_value
        (render (S level) x +:+ items_text level l +:+ rest)).
      { apply render_starts_value; [done|].
        apply after_value_number. by apply items_text_after_value. }
      rewrite (skip_ws_starts_value _ Hstart).
      destruct (render (S level) x +:+ items_text level l +:+ rest)
        as [|c r] eqn:Htext; [done|].
      destruct Hstart as (_ & -> & _). rewrite <- Htext.
      apply (parse_elems_render l); [|done|by apply IHx|done|lia|done].
      apply Forall_forall. intros y Hy.
      rewrite Forall_forall in IH. apply IH; [done| |].
      * rewrite forallb_forall in Hl. apply Hl. by apply list_elem_of_In.
      * rewrite forallb_forall in Hkl. apply Hkl. by apply list_elem_of_In.
  - destruct d as [|[k v] d].
    + destruct fuel as [|fuel]; [cbn in Hfuel; lia|]. reflexivity.
    + rewrite json_size_dict in Hfuel.
      destruct fuel as [|fuel]; [lia|].
      cbn [encodable forallb] in Henc. apply andb_prop in Henc as [Hv Hd].
      cbn [snd] in Hv.
      cbn [well_keyed] in Hkeys. apply andb_prop in Hkeys as [Hnodup Hkd].
      apply bool_decide_eq_true in Hnodup.
      cbn [forallb] in Hkd. apply andb_prop in Hkd as [Hkv Hkd]. cbn [snd] in Hkv.
      apply Forall_cons in IH as [IHv IH]. cbn [snd] in IHv.
      rewrite (render_dict _ _ _ _ Hv), !app_assoc_string.
      rewrite parse_value_dict, skip_ws_newline_indent.
      change (skip_ws (encode_str k +:+ ?s)) with (encode_str k +:+ s).
      change (match encode_str k +:+ ?s with
              | String c' r' => _ | EmptyString => _ end)
        with (parse_members fuel
                (newline_indent (S level) +:+ encode_str k +:+ s) []).
      rewrite <- !app_assoc_string, !app_assoc_string.
      apply (parse_members_render d); [|done|by apply IHv|done|done|lia|done].
      apply Forall_forall. intros [k' v'] Hin. cbn [snd].
      rewrite Forall_forall in IH. apply (IH (k', v') Hin).
      * rewrite forallb_forall in Hd. apply (Hd (k', v')). by apply list_elem_of_In.
      * rewrite forallb_forall in Hkd. apply (Hkd (k', v')). by apply list_elem_of_In.
Qed.

(** The fuel [loads] gives is enough: a text is at least as long as its
    value has nodes. *)
Lemma length_newline_indent (n : nat) :
  String.length (newline_indent n) = S (String.length (spaces n)).
Proof. reflexivity. Qed.

Lemma length_encode_int (z : Z) : 1 ≤ String.length (encode_int z).
Proof.
  destruct (encode_int_cases z "" I) as (c & r & Heq & _).
  rewrite app_empty_r in Heq. rewrite Heq. cbn. lia.
Qed.

Lemma json_size_render (j : json) :
  encodable j = true → ∀ level, json_size j ≤ String.length (render level j).
Proof.
  induction j as [| b | z | s | l IH | d IH | ty] using json_ind';
    intros Henc level; try done.
  - vm_compute. lia.
  - destruct b; vm_compute; lia.
  - rewrite (render_scalar level (JInt z) (encode_int z) eq_refl).
    apply length_encode_int.
  - rewrite (render_scalar level (JStr s) (encode_str s) eq_refl).
    unfold encode_str. rewrite length_app_string. cbn. lia.
  - destruct l as [|x l]; [vm_compute; lia|].
    cbn [encodable forallb] in Henc. apply andb_prop in Henc as [Hx Hl].
    apply Forall_cons in IH as [IHx IH].
    rewrite json_size_list, (render_list _ _ _ Hx).
    rewrite !length_app_string, length_newline_indent.
    specialize (IHx Hx (S level)).
    assert (Hitems : elems_size l ≤ String.length (items_text level l)).
    { clear IHx Hx x. induction l as [|y l IHl]; [cbn; lia|].
      cbn [forallb] in Hl. apply andb_prop in Hl as [Hy Hl].
      apply Forall_cons in IH as [IHy IH].
      rewrite (items_text_cons _ _ _ Hy).
      rewrite !length_app_string, length_newline_indent.
      specialize (IHy Hy (S level)). specialize (IHl IH Hl).
      unfold elems_size, list_sum in *. cbn [map fold_right String.length] in *.
      lia. }
    cbn [String.length]. lia.
  - destruct d as [|[k v] d]; [vm_compute; lia|].
    cbn [encodable forallb] in Henc. apply andb_prop in Henc as [Hv Hd].
    cbn [snd] in Hv.
    apply Forall_cons in IH as [IHv IH]. cbn [snd] in IHv.
    rewrite json_size_dict, (render_dict _ _ _ _ Hv).
    rewrite !length_app_string, length_newline_indent.
    specialize (IHv Hv (S level)).
    assert (Hmembers : members_size d ≤ String.length (members_text level d)).
    { clear IHv Hv k v. induction d as [|[k v] d IHd]; [cbn; lia|].
      cbn [forallb] in Hd. apply andb_prop in Hd as [Hv Hd]. cbn [snd] in Hv.
      apply Forall_cons in IH as [IHv IH]. cbn [snd] in IHv.
      rewrite (members_text_cons _ _ _ _ Hv).
      rewrite !length_app_string, length_newline_indent.
      specialize (IHv Hv (S level)). specialize (IHd IH Hd).
      unfold members_size, list_sum in *.
      cbn [map fold_right String.length snd] in *.
      lia. }
    cbn [String.length]. lia.
Qed.

(** [dumps] returns exactly for the encodable values. *)
Lemma dumps_render (j : json) :
  encodable j = true → dumps j = Ret (render 0 j).
Proof.
  intros Henc. unfold dumps, render.
  pose proof (iterencode_encodable j Henc 0) as Hnone.
  destruct (iterencode 0 j) as [cs r]. cbn in Hnone. by subst r.
Qed.

Lemma dumps_encodable (j : json) :
  encodable j = false → ∃ e, dumps j = Raise e.
Proof.
  intros Henc.
  assert (H : ∀ level, ∃ e, (iterencode level j).2 = Some e).
  { induction j as [| b | z | s | l IH | d IH | ty] using json_ind';
      intros level; try done.
    - destruct l as [|x l]; [done|]. rewrite iterencode_list.
      assert (Hitems : ∀ first, ∃ e,
        (encode_items level (iterencode (S level)) first (x :: l)).2 = Some e).
      { cbn [encodable] in Henc. revert Henc IH. generalize (x :: l). clear x l.
        intros l Henc IH. induction l as [|x l IHl]; intros first; [done|].
        cbn [forallb] in Henc. apply Forall_cons in IH as [IHx IH].
        cbn [encode_items].
        destruct (encodable x) eqn:Hx.
        - rewrite (surjective_pairing (iterencode (S level) x)).
          rewrite (iterencode_encodable x Hx (S level)).
          destruct (IHl Henc IH false) as [e He].
          destruct (encode_items level (iterencode (S level)) false l).
          by exists e.
        - destruct (IHx eq_refl (S level)) as [e He].
          destruct (iterencode (S level) x) as [cs r]. cbn in He. subst r.
          by exists e. }
      destruct (Hitems true) as [e He].
      destruct (encode_items level (iterencode (S level)) true (x :: l)).
      by exists e.
    - destruct d as [|kv d]; [done|]. rewrite iterencode_dict.
      assert (Hmembers : ∀ first, ∃ e,
        (encode_members level (iterencode (S level)) first (kv :: d)).2 = Some e).
      { cbn [encodable] in Henc. revert Henc IH. generalize (kv :: d). clear kv d.
        intros d Henc IH. induction d as [|[k v] d IHd]; intros first; [done|].
        cbn [forallb snd] in Henc. apply Forall_cons in IH as [IHv IH].
        cbn [snd] in IHv. cbn [encode_members].
        destruct (encodable v) eqn:Hv.
        - rewrite (surjective_pairing (iterencode (S level) v)).
          rewrite (iterencode_encodable v Hv (S level)).
          destruct (IHd Henc IH false) as [e He].
          destruct (encode_members level (iterencode (S level)) false d).
          by exists e.
        - destruct (IHv eq_refl (S level)) as [e He].
          destruct (iterencode (S level) v) as [cs r]. cbn in He. subst r.
          by exists e. }
      destruct (Hmembers true) as [e He].
      destruct (encode_members level (iterencode (S level)) true (kv :: d)).
      by exists e.
    - by eexists. }
  destruct (H 0) as [e He]. unfold dumps.
  destruct (iterencode 0 j) as [cs r]. cbn in He. subst r. by exists e.
Qed.

Lemma loads_render (j : json) :
  encodable j = true → well_keyed j = true → loads (render 0 j) = Ret j.
Proof.
  intros Henc Hkeys. unfold loads.
  pose proof (parse_value_render j Henc Hkeys 0
    (2 * String.length (render 0 j) + 2) "") as Hparse.
  rewrite app_empty_r in Hparse. rewrite Hparse; [done| |done].
  pose proof (json_size_render j Henc 0). lia.
Qed.

Lemma dumps_Ret_encodable (j : json) (text : string) :
  dumps j = Ret text → encodable j = true.
Proof.
  intros Hdumps. destruct (encodable j) eqn:Henc; [done|].
  destruct (dumps_encodable j Henc) as [e He]. congruence.
Qed.

(** X1: what [json.dump] wrote, [json.load] reads. For every value without
    repeated keys: if the dump returns a text, then loading the text
    returns the value itself, whatever its strings (quotes, backslashes,
    control characters), integers and nesting. *)
Theorem dumps_then_loads (j : json) (text : string) :
  well_keyed j = true → dumps j = Ret text → loads text = Ret j.
Proof.
  intros Hkeys Hdumps.
  pose proof (dumps_Ret_encodable j text Hdumps) as Henc.
  rewrite (dumps_render j Henc) in Hdumps. injection Hdumps as <-.
  by apply loads_render.
Qed.

(** ** More on dictionaries *)

Section MoreDictLemmas.
Context {V : Type}.
Implicit Types (d other : PyDict.t V) (k : string) (v : V).




Lemma get_del k k' d :
  NoDup (PyDict.keys d) →
  PyDict.get k (PyDict.del k' d) = if decide (k = k') then None else PyDict.get k d.
Proof.
  induction d as [|[k0 v0] d IH]; intros Hnodup; cbn.
  - by case_decide.
  - cbn in Hnodup. apply NoDup_cons in Hnodup as [Hk0 Hnodup].
    destruct (String.eqb_spec k' k0) as [->|Hne'].
    + case_decide as Hk; [subst|].
      * by apply get_None_keys.
      * by destruct (String.eqb_spec k k0).
    + cbn. destruct (String.eqb_spec k k0) as [->|Hne].
      * by rewrite decide_False.
      * by apply IH.
Qed.

Lemma keys_del_subset k k' d : k ∈ PyDict.keys (PyDict.del k' d) → k ∈ PyDict.keys d.
Proof.
  induction d as [|[k0 v0] d IH]; cbn; [done|].
  destruct (String.eqb k' k0); cbn.
  - by right.
  - rewrite !elem_of_cons. intros [->|Hin]; [by left|right; by apply IH].
Qed.

Lemma keys_del_NoDup k d : NoDup (PyDict.keys d) → NoDup (PyDict.keys (PyDict.del k d)).
Proof.
  induction d as [|[k0 v0] d IH]; cbn; [done|].
  intros Hnodup. apply NoDup_cons in Hnodup as [Hk0 Hnodup].
  destruct (String.eqb k k0); cbn; [done|].
  apply NoDup_cons. split; [|by apply IH].
  intros Hin. by apply Hk0, (keys_del_subset _ k).
Qed.

Lemma keys_set_NoDup k v d : NoDup (PyDict.keys d) → NoDup (PyDict.keys (PyDict.set k v d)).
Proof.
  intros Hnodup. destruct (PyDict.get k d) as [v'|] eqn:Hget.
  - by rewrite keys_set_present.
  - rewrite keys_set_new by done. apply NoDup_app. split; [done|]. split.
    + intros x Hx [->|Hin]%elem_of_cons; [|by apply elem_of_nil in Hin].
      by apply get_None_keys in Hget.
    + apply NoDup_singleton.
Qed.

Lemma get_Some_keys k v d : PyDict.get k d = Some v → k ∈ PyDict.keys d.
Proof.
  intros Hget. destruct (decide (k ∈ PyDict.keys d)) as [|Hk]; [done|].
  apply get_None_keys in Hk. congruence.
Qed.

Lemma get_Some_elem k v d : PyDict.get k d = Some v → (k, v) ∈ d.
Proof.
  induction d as [|[k0 v0] d IH]; cbn; [done|].
  destruct (String.eqb_spec k k0) as [->|Hne].
  - intros [= ->]. by left.
  - intros Hget. right. by apply IH.
Qed.

End MoreDictLemmas.

(** ** Encoding and decoding a callable *)

Section EngineRoundTrip.
Variable env : environment.


End EngineRoundTrip.

(** After a dump, whether it raised or not, the file holds the chunks
    written. *)
Lemma write_json_ops_partial (p : Path) (j : json) (f : files) :
  run_ops (write_json_ops p j).1 f !! p = Some (concat_chunks (iterencode 0 j).1).
Proof.
  unfold write_json_ops. destruct (iterencode 0 j) as [chunks err].
  change (run_ops (map (WriteChunk p) chunks) (<[p := ""]> f) !! p
          = Some ("" +:+ concat_chunks chunks)).
  apply run_writes. by rewrite lookup_insert_eq.
Qed.

Lemma encodable_get (d : PyDict.t json) (k : string) (v : json) :
  PyDict.get k d = Some v → encodable v = false → encodable (JDict d) = false.
Proof.
  intros Hget Hv. apply get_Some_elem in Hget.
  destruct (encodable (JDict d)) eqn:Henc; [|done].
  cbn [encodable] in Henc. rewrite forallb_forall in Henc.
  apply list_elem_of_In in Hget. specialize (Henc _ Hget). cbn in Henc. congruence.
Qed.

(** ** The records of the tools *)

Section SerializeTools.
Variable env : environment.

(** The record found under a name after [_serialize_custom_tools]. *)
Lemma get_serialize_tools_None (tools : PyDict.t callable) (acc : PyDict.t json)
    (t : nat) (n : string) :
  PyDict.get n tools = None →
  PyDict.get n (serialize_tools env tools acc t).1 = PyDict.get n acc.
Proof.
  revert acc t. induction tools as [|[n' f] tools IH]; intros acc t Hget; [done|].
  cbn in Hget. destruct (String.eqb_spec n n') as [->|Hne]; [done|].
  cbn [serialize_tools]. destruct (serialize_function env f t) as [r t1].
  rewrite (IH _ _ Hget). by apply get_set_ne.
Qed.

Lemma get_serialize_tools (tools : PyDict.t callable) (acc : PyDict.t json)
    (t : nat) (n : string) (f : callable) :
  NoDup (PyDict.keys tools) → PyDict.get n tools = Some f →
  ∃ t', PyDict.get n (serialize_tools env tools acc t).1
        = Some (serialize_function env f t').1.
Proof.
  revert acc t. induction tools as [|[n' f'] tools IH]; intros acc t Hnodup Hget;
    [done|].
  cbn in Hnodup. apply NoDup_cons in Hnodup as [Hn' Hnodup].
  cbn in Hget. cbn [serialize_tools].
  destruct (String.eqb_spec n n') as [->|Hne].
  - injection Hget as ->. exists t.
    destruct (serialize_function env f t) as [r t1].
    rewrite get_serialize_tools_None by by apply get_None_keys.
    apply get_set_eq.
  - destruct (serialize_function env f' t) as [r t1]. by apply IH.
Qed.

Lemma keys_serialize_tools (tools : PyDict.t callable) (acc : PyDict.t json) (t : nat) :
  NoDup (PyDict.keys acc ++ PyDict.keys tools) →
  PyDict.keys (serialize_tools env tools acc t).1 = PyDict.keys acc ++ PyDict.keys tools.
Proof.
  revert acc t. induction tools as [|[n f] tools IH]; intros acc t Hnodup.
  - cbn. by rewrite app_nil_r.
  - cbn [serialize_tools]. destruct (serialize_function env f t) as [r t1].
    assert (Hn : PyDict.get n acc = None).
    { apply get_None_keys. apply NoDup_app in Hnodup as (_ & Hdisj & _).
      intros Hin. apply (Hdisj n Hin). by left. }
    rewrite IH; rewrite (keys_set_new _ _ _ Hn), <- app_assoc; done.
Qed.

Lemma serialize_tools_NoDup (tools : PyDict.t callable) (acc : PyDict.t json) (t : nat) :
  NoDup (PyDict.keys acc) → NoDup (PyDict.keys (serialize_tools env tools acc t).1).
Proof.
  revert acc t. induction tools as [|[n f] tools IH]; intros acc t Hnodup; [done|].
  cbn [serialize_tools]. destruct (serialize_function env f t) as [r t1].
  apply IH. by apply keys_set_NoDup.
Qed.

End SerializeTools.

(** ** Saving, and constructing the agent again *)

Section SaveAndRestart.
Variable env : environment.

(** The two outcomes of a save with auto-save enabled. *)
Lemma save_outcome (a : PersistentA1) (w : world) :
  auto_save_enabled a = true →
  let state := (saved_state env a (clock w)).1 in
  let a' := (_save_persistent_state env a w).1 in
  let w' := (_save_persistent_state env a w).2 in
  if encodable state
  then state_dirty a' = false ∧
       fs w' !! state_file a = Some (render 0 state) ∧
       fs w' !! temp_file a = None
  else a' = a ∧
       fs w' !! state_file a = fs w !! state_file a ∧
       fs w' !! temp_file a = Some (concat_chunks (iterencode 0 state).1).
Proof.
  intros Hauto state a' w'.
  pose proof (save_ops_shape env a (clock w)) as [Hwrites Hshape].
  cbn zeta in Hshape, Hwrites. fold state in Hshape, Hwrites.
  subst a' w'. unfold _save_persistent_state. rewrite Hauto. cbn [negb].
  destruct (encodable state) eqn:Henc.
  - rewrite (dumps_render state Henc) in Hshape. rewrite Hshape. cbn [fst snd fs].
    split; [done|]. split.
    + apply run_rename. apply write_json_ops_complete. by apply dumps_render.
    + rewrite run_ops_app. cbn.
      rewrite (write_json_ops_complete _ _ _ _ (dumps_render state Henc)).
      rewrite lookup_insert_ne by (symmetry; apply temp_file_ne).
      apply lookup_delete_eq.
  - destruct (dumps_encodable state Henc) as [e He]. rewrite He in Hshape.
    rewrite Hshape. cbn [fst snd fs]. split; [done|]. split.
    + apply (run_ops_frame (temp_file a)); [done|].
      intros Heq. by apply (temp_file_ne a).
    + apply write_json_ops_partial.
Qed.


Lemma saved_state_fields (a : PersistentA1) (t : nat) :
  ∃ st, (saved_state env a t).1 = JDict st ∧
    PyDict.get "custom_tools" st
      = Some (JDict (_serialize_custom_tools env a (S t)).1) ∧
    PyDict.get "custom_data" st = Some (JDict (default [] (custom_data a))) ∧
    PyDict.get "custom_software" st = Some (JDict (default [] (custom_software a))) ∧
    PyDict.get "agent_config" st = Some (agent_config a).
Proof.
  unfold saved_state.
  destruct (_serialize_custom_tools env a (S t)) as [records t'].
  eexists. split; [reflexivity|]. by repeat split.
Qed.




End SaveAndRestart.

Section EncodeThenDecode.
Variable env : environment.
Variable python : interpreter.

(** X2: decoding the record that [serialize_function] makes of a callable,
    whatever unpickling and the re-executed text do.  The record is a
    dictionary.  If it is a dill record, decoding is the handler of
    [deserialize_function] applied to [dill.loads] of the payload: the
    callable if it returns, [None] if it raises an ordinary exception that
    can be formatted, and otherwise the exit, or what formatting the
    exception raises; the backup source text is never run.  If it is a
    source record, decoding returns [None] without running anything when
    the source text is empty; otherwise it is the handler applied to the
    execution of the text, which when it returns gives the callable bound
    to the recorded name, and [None] if no callable is bound to it.  If it
    is a metadata-only record, decoding returns [None]. *)
Theorem serialize_then_deserialize (f : callable) (t : nat) :
  ∃ record, (serialize_function env f t).1 = JDict record ∧
    (∀ payload, fn_dill f = Ret payload → source_tolerated f = true →
       deserialize_function_raw python record
       = return_None_on_error
           (func ← run_dill_loads python payload; Returns (Some func))) ∧
    (∀ e src, fn_dill f = Raise e → fn_source f = Ret src →
       deserialize_function_raw python record
       = if String.eqb src "" then Returns None
         else return_None_on_error
                (exec_globals ← run_exec python src;
                 Returns match PyDict.get (fn_name f) exec_globals with
                         | Some (PyCallable g) => Some g
                         | _ => None
                         end)) ∧
    (∀ e, fn_source f = Raise e →
       is_Ret (fn_dill f) && is_OSError_or_TypeError (exn_cls e) = false →
       deserialize_function_raw python record = Returns None).
Proof.
  unfold serialize_function, dill_tier, _fallback_serialization, source_tolerated.
  destruct (fn_dill f) as [payload|e]; destruct (fn_source f) as [src|e'].
  - eexists. split; [reflexivity|]. split; [|split]; try done.
    intros ? [= <-] _.
    unfold deserialize_function_raw, deserialize_body_raw. cbn.
    by destruct (run_dill_loads python payload).
  - destruct (is_OSError_or_TypeError (exn_cls e')) eqn:Hcls.
    + eexists. split; [reflexivity|]. split; [|split]; try done.
      * intros ? [= <-] _.
        unfold deserialize_function_raw, deserialize_body_raw. cbn.
        by destruct (run_dill_loads python payload).
      * intros ? [= <-]. by rewrite Hcls.
    + eexists. split; [reflexivity|]. split; [|split]; done.
  - eexists. split; [reflexivity|]. split; [|split]; try done.
    intros ? ? _ [= <-].
    unfold deserialize_function_raw, deserialize_body_raw. cbn.
    destruct (String.eqb src ""); cbn; [done|].
    destruct (run_exec python src) as [exec_globals|e1 f1|b]; cbn; try done.
    by destruct (PyDict.get (fn_name f) exec_globals) as [[g|]|].
  - eexists. split; [reflexivity|]. split; [|split]; done.
Qed.

End EncodeThenDecode.

Section EngineAndSave.
Variable env : environment.


Lemma serialize_function_name (f : callable) (t : nat) :
  ∃ record, (serialize_function env f t).1 = JDict record ∧
    PyDict.get "name" record = Some (JStr (fn_name f)).
Proof.
  unfold serialize_function, dill_tier, _fallback_serialization.
  destruct (fn_dill f) as [payload|e]; destruct (fn_source f) as [src|e'];
    try (eexists; split; reflexivity).
  destruct (is_OSError_or_TypeError (exn_cls e')); eexists; split; reflexivity.
Qed.

(** X4: [_serialize_custom_tools] makes one record per tool, under the
    name the tool is stored under and in the order of the dictionary; the
    [name] field of the record is the [__name__] of the callable. *)
Theorem serialize_custom_tools_records (a : PersistentA1) (t : nat) :
  NoDup (list_custom_tools a) →
  PyDict.keys (_serialize_custom_tools env a t).1 = list_custom_tools a ∧
  ∀ n f, custom_tools a ≫= PyDict.get n = Some f →
    ∃ record,
      PyDict.get n (_serialize_custom_tools env a t).1 = Some (JDict record) ∧
      PyDict.get "name" record = Some (JStr (fn_name f)).
Proof.
  unfold list_custom_tools, _serialize_custom_tools.
  destruct (custom_tools a) as [tools|]; [|done]. intros Hnodup. split.
  - by apply keys_serialize_tools.
  - intros n f Hget. cbn in Hget.
    destruct (get_serialize_tools env tools [] t n f Hnodup Hget) as [t' Hrec].
    destruct (serialize_function_name f t') as (record & Heq & Hname).
    exists record. by rewrite Hrec, Heq.
Qed.

End EngineAndSave.

Section RestartTheorems.
Variable env : environment.




Lemma typed_record_not_encodable (f : callable) (t : nat) (payload : string) :
  fn_dill f = Ret payload → source_tolerated f = true →
  encodable (JDict (fn_annotations f)) = false →
  encodable (serialize_function env f t).1 = false.
Proof.
  unfold serialize_function, dill_tier, source_tolerated. intros -> Hsrc Hann.
  destruct (fn_source f) as [src|e].
  - apply (encodable_get _ "annotations" (JDict (fn_annotations f))); done.
  - rewrite Hsrc.
    apply (encodable_get _ "annotations" (JDict (fn_annotations f))); done.
Qed.

(** X7: a pickled tool whose annotations hold an object that [json] cannot
    encode (a class, as in [def f(n: int)]) makes every save of the agent
    fail: the record of the first tier carries [__annotations__] as they
    are, the dump raises, the handler swallows the exception, and the
    agent and its state file stay as they were. *)
Theorem annotated_tool_blocks_save (a : PersistentA1) (w : world)
    (tools : PyDict.t callable) (n : string) (f : callable) (payload : string) :
  auto_save_enabled a = true →
  custom_tools a = Some tools → NoDup (PyDict.keys tools) →
  PyDict.get n tools = Some f →
  fn_dill f = Ret payload → source_tolerated f = true →
  encodable (JDict (fn_annotations f)) = false →
  (save_state env a w).1 = a ∧
  fs (save_state env a w).2 !! state_file a = fs w !! state_file a.
Proof.
  intros Hauto Htools Hnodup Hget Hdill Hsrc Hann.
  pose proof (save_outcome env a w Hauto) as Hsave. cbn zeta in Hsave.
  assert (Henc : encodable (saved_state env a (clock w)).1 = false).
  { destruct (saved_state_fields env a (clock w)) as (st & -> & Ht & _).
    apply (encodable_get _ _ _ Ht).
    unfold _serialize_custom_tools. rewrite Htools.
    destruct (get_serialize_tools env tools [] (S (clock w)) n f Hnodup Hget)
      as [t' Hrec].
    apply (encodable_get _ _ _ Hrec).
    by apply (typed_record_not_encodable f t' payload). }
  rewrite Henc in Hsave. destruct Hsave as (Ha & Hfile & _). by split.
Qed.

End RestartTheorems.

(** ** Export and import, one after the other *)

Section ExportImport.
Variable env : environment.

Lemma exported_state_fields (a : PersistentA1) (t : nat) :
  ∃ st, (exported_state env a t).1 = JDict st ∧
    PyDict.get "custom_tools" st
      = Some (JDict (_serialize_custom_tools env a (S t)).1) ∧
    PyDict.get "custom_data" st = Some (JDict (default [] (custom_data a))) ∧
    PyDict.get "custom_software" st = Some (JDict (default [] (custom_software a))).
Proof.
  unfold exported_state.
  destruct (_serialize_custom_tools env a (S t)) as [records t'].
  eexists. split; [reflexivity|]. by repeat split.
Qed.

Lemma export_outcome (a : PersistentA1) (p : Path) (w : world) :
  let state := (exported_state env a (clock w)).1 in
  (∀ q, q ≠ p → fs (export_state env a p w).1 !! q = fs w !! q) ∧
  fs (export_state env a p w).1 !! p = Some (render 0 state) ∧
  (export_state env a p w).2
  = match (iterencode 0 state).2 with None => Ret () | Some e => Raise e end.
Proof.
  intros state. unfold export_state.
  destruct (exported_state env a (clock w)) as [state' t'] eqn:Hstate.
  cbn in state. subst state.
  pose proof (write_json_ops_only p state') as Honly.
  pose proof (write_json_ops_partial p state' (fs w)) as Hpartial.
  assert (Herr : (write_json_ops p state').2 = (iterencode 0 state').2).
  { unfold write_json_ops. by destruct (iterencode 0 state'). }
  destruct (write_json_ops p state') as [ops err]. cbn in *. subst err.
  split; [|by split].
  intros q Hq. by apply (run_ops_frame p).
Qed.

(** X8: [export_state] writes in place. It touches no file but
    [export_path]; that file is created or truncated and afterwards holds
    the chunks written: the whole text when the state can be encoded (the
    call returns), and the text up to the failure when it cannot (the
    exception is raised again): a failed export has destroyed what the
    file held. *)
Theorem export_state_overwrites (a : PersistentA1) (p : Path) (w : world) :
  let state := (exported_state env a (clock w)).1 in
  let w' := (export_state env a p w).1 in
  let r := (export_state env a p w).2 in
  (∀ q, q ≠ p → fs w' !! q = fs w !! q) ∧
  fs w' !! p = Some (concat_chunks (iterencode 0 state).1) ∧
  (if encodable state
   then r = Ret () ∧ dumps state = Ret (concat_chunks (iterencode 0 state).1)
   else ∃ e, r = Raise e ∧ dumps state = Raise e).
Proof.
  intros state w' r.
  destruct (export_outcome a p w) as (Hframe & Hfile & Hres). fold state in Hfile, Hres.
  split; [done|]. split; [done|]. subst r. rewrite Hres.
  destruct (encodable state) eqn:Henc.
  - rewrite (iterencode_encodable state Henc 0). split; [done|].
    by apply dumps_render.
  - destruct (dumps_encodable state Henc) as [e He]. exists e. split; [|done].
    unfold dumps in He. destruct (iterencode 0 state) as [cs [e'|]]; [|done].
    cbn. congruence.
Qed.

(** A replacing import of the file written by an export. *)
Lemma import_exported (a b : PersistentA1) (p : Path) (w : world) :
  encodable (exported_state env a (clock w)).1 = true →
  well_keyed (exported_state env a (clock w)).1 = true →
  ∃ b' w',
    import_state env b p false (export_state env a p w).1 = (b', w', Ret ()) ∧
    custom_data b' = Some (default [] (custom_data a)) ∧
    custom_software b' = Some (default [] (custom_software a)) ∧
    ∀ n, PyDict.get n (default [] (custom_tools b'))
         = PyDict.get n (_serialize_custom_tools env a (S (clock w))).1
           ≫= decode_entry env.
Proof.
  intros Henc Hkeys.
  destruct (export_outcome a p w) as (_ & Hfile & _). cbn zeta in Hfile.
  destruct (exported_state_fields a (clock w)) as (st & Hst & Ht & Hd & Hs).
  pose proof (loads_render _ Henc Hkeys) as Hloads. rewrite Hst in Hloads at 2.
  destruct (import_fields_spec env b false st _ _ _ Ht Hd Hs)
    as (b1 & Hfields & Htools & Hdata & Hsoft).
  rewrite (import_state_fields env b b1 p false _ _ _ Hfile Hloads Hfields).
  eexists _, _. split; [reflexivity|].
  destruct (save_keeps_contents env b1 (export_state env a p w).1)
    as (Hkt & Hkd & Hks).
  cbn zeta in Hkt, Hkd, Hks. rewrite Hkd, Hks, Hkt, Hdata, Hsoft, Htools.
  split; [done|]. split; [done|]. intros n. cbn [from_option id].
  rewrite get_restore_tools.
  - by destruct (_ ≫= _).
  - unfold _serialize_custom_tools. destruct (custom_tools a); [|apply NoDup_nil_2].
    apply serialize_tools_NoDup, NoDup_nil_2.
Qed.

(** X9: export, then a replacing import into another agent. If the state
    of [a] can be encoded, then importing the exported file into any agent
    [b] with [merge=False] returns, keeps the identity of [b], and leaves
    [b] with exactly the data and software references of [a]; a tool name
    is bound in [b] exactly when the exported record decodes. *)
Theorem export_then_import (a b : PersistentA1) (p : Path) (w : world) :
  encodable (exported_state env a (clock w)).1 = true →
  well_keyed (exported_state env a (clock w)).1 = true →
  ∃ b' w',
    import_state env b p false (export_state env a p w).1 = (b', w', Ret ()) ∧
    same_agent b b' ∧
    custom_data b' = Some (default [] (custom_data a)) ∧
    custom_software b' = Some (default [] (custom_software a)) ∧
    ∀ n, PyDict.get n (default [] (custom_tools b'))
         = PyDict.get n (_serialize_custom_tools env a (S (clock w))).1
           ≫= decode_entry env.
Proof.
  intros Henc Hkeys.
  destruct (import_exported a b p w Henc Hkeys) as (b' & w' & Himport & Hrest).
  exists b', w'. split; [done|]. split; [|done].
  pose proof (same_import_state env b p false (export_state env a p w).1) as Hsame.
  by rewrite Himport in Hsame.
Qed.

(** X10: an import is not undone when it fails. For a readable snapshot
    whose [custom_tools] field is not an object, [import_state] raises and
    writes nothing; with [merge=False] the agent has by then lost its
    tools, data and software references, with [merge=True] it keeps them. *)
Theorem import_state_bad_tools (a : PersistentA1) (p : Path) (merge : bool)
    (w : world) (text : string) (st : PyDict.t json) (v : json) (e : exn) :
  fs w !! p = Some text → loads text = Ret (JDict st) →
  PyDict.get "custom_tools" st = Some v → as_dict v = Raise e →
  ∃ a', import_state env a p merge w = (a', w, Raise e) ∧
    same_agent a a' ∧ state_dirty a' = state_dirty a ∧
    if merge
    then custom_tools a' = Some (default [] (custom_tools a)) ∧
         custom_data a' = custom_data a ∧ custom_software a' = custom_software a
    else custom_tools a' = Some [] ∧ custom_data a' = Some [] ∧
         custom_software a' = Some [].
Proof.
  intros Hfile Hloads Htools Hv. unfold import_state. rewrite Hfile, Hloads.
  unfold import_fields, restore_field, state_field. rewrite Htools.
  unfold _restore_custom_tools. rewrite Hv.
  eexists. split; [reflexivity|].
  destruct a as [id dir auto dirty tools data soft conf prov].
  by destruct merge, tools as [tools|].
Qed.

End ExportImport.

(** ** Adding, looking up and removing *)

Section Mutators.
Variable env : environment.

Lemma maybe_save_keeps_contents (a : PersistentA1) (w : world) :
  let a' := (maybe_save env a w).1 in
  custom_tools a' = custom_tools a ∧ custom_data a' = custom_data a ∧
  custom_software a' = custom_software a.
Proof.
  unfold maybe_save. destruct (auto_save_enabled a); [|done].
  apply save_keeps_contents.
Qed.

Lemma get_jstr_values (k : string) (d : PyDict.t string) :
  PyDict.get k (jstr_values d) = JStr <$> PyDict.get k d.
Proof.
  induction d as [|[k' v] d IH]; [done|]. cbn.
  by destruct (String.eqb k k').
Qed.

Lemma keys_jstr_values (d : PyDict.t string) :
  PyDict.keys (jstr_values d) = PyDict.keys d.
Proof. unfold PyDict.keys, jstr_values. rewrite map_map. by apply map_ext. Qed.

(** X11: [add_tool] returns what the base class returned. After a call
    that returned, [get_custom_tool] finds the callable under its
    [__name__] (a tool of the same name added before is replaced), every
    other name is as before, and data and software references are
    untouched. If the base class raises, the agent and the world are
    unchanged. *)
Theorem add_tool_then_get (a : PersistentA1) (api : callable)
    (super_result : result json) (w : world) :
  let a' := (add_tool env a api super_result w).1.1 in
  let w' := (add_tool env a api super_result w).1.2 in
  (add_tool env a api super_result w).2 = super_result ∧
  match super_result with
  | Ret _ =>
      get_custom_tool a' (fn_name api)
      = Some [("name", JStr (fn_name api)); ("doc", jstr_opt (fn_doc api));
              ("module", jstr_opt (fn_module api));
              ("annotations", JDict (fn_annotations api))] ∧
      (∀ n, n ≠ fn_name api → get_custom_tool a' n = get_custom_tool a n) ∧
      custom_data a' = custom_data a ∧ custom_software a' = custom_software a
  | Raise _ => a' = a ∧ w' = w
  end.
Proof.
  intros a' w'. subst a' w'. unfold add_tool.
  destruct super_result as [r|e]; [|done].
  set (a1 := set_dirty true (set_tools _ (ensure_tools a))).
  destruct (maybe_save_keeps_contents a1 w) as (Ht & Hd & Hs). cbn zeta in Ht, Hd, Hs.
  destruct (maybe_save env a1 w) as [a2 w2]. cbn [fst snd] in *.
  split; [done|]. unfold get_custom_tool. rewrite Ht, Hd, Hs.
  subst a1. cbn [custom_tools set_dirty set_tools].
  split; [by rewrite get_set_eq|]. split.
  - intros n Hn. rewrite get_set_ne by done.
    unfold ensure_tools. destruct (custom_tools a) eqn:E; cbn; by rewrite ?E.
  - unfold ensure_tools. by destruct (custom_tools a).
Qed.

(** X12: [add_data] merges key by key: after it, [get_custom_data] returns
    the new description for a key of the argument and the previous answer
    for every other key. *)
Theorem add_data_then_get (a : PersistentA1) (data : PyDict.t string)
    (r : json) (w : world) (k : string) :
  NoDup (PyDict.keys data) →
  get_custom_data (add_data env a data (Ret r) w).1.1 k
  = match PyDict.get k data with
    | Some description => Some (JStr description)
    | None => get_custom_data a k
    end.
Proof.
  intros Hnodup. unfold add_data.
  set (a1 := set_dirty true (set_data _ (ensure_data a))).
  destruct (maybe_save_keeps_contents a1 w) as (Ht & Hd & Hs). cbn zeta in Ht, Hd, Hs.
  destruct (maybe_save env a1 w) as [a2 w2]. cbn [fst snd] in *.
  unfold get_custom_data. rewrite Hd. subst a1. cbn [custom_data set_dirty set_data].
  rewrite get_update by by rewrite keys_jstr_values.
  rewrite get_jstr_values. destruct (PyDict.get k data); [done|]. cbn.
  unfold ensure_data. destruct (custom_data a) eqn:E; cbn; by rewrite ?E.
Qed.

(** X13: [add_software] merges key by key, with or without [install]: a
    name of the argument is bound to its new description, every other name
    is as before. *)
Theorem add_software_then_get (a : PersistentA1) (software : PyDict.t string)
    (install : bool) (r : json) (w : world) (k : string) :
  NoDup (PyDict.keys software) →
  PyDict.get k (default []
    (custom_software (add_software env a software install (Ret r) w).1.1))
  = match PyDict.get k software with
    | Some description => Some (JStr description)
    | None => PyDict.get k (default [] (custom_software a))
    end.
Proof.
  intros Hnodup. unfold add_software.
  set (a1 := set_dirty true (set_software _ (ensure_software a))).
  destruct (maybe_save_keeps_contents a1 w) as (Ht & Hd & Hs). cbn zeta in Ht, Hd, Hs.
  destruct (maybe_save env a1 w) as [a2 w2]. cbn [fst snd] in *.
  rewrite Hs. subst a1. cbn [custom_software set_dirty set_software from_option id].
  rewrite get_update by by rewrite keys_jstr_values.
  rewrite get_jstr_values. destruct (PyDict.get k software); [done|]. cbn.
  unfold ensure_software. destruct (custom_software a) eqn:E; cbn; by rewrite ?E.
Qed.

(** X14: after [remove_custom_tool], [get_custom_tool] finds nothing under
    the removed name and answers as before for every other name; removing
    a name that is not there changes neither the agent nor the world (no
    save, no dirty flag). *)
Theorem remove_custom_tool_then_get (a : PersistentA1) (tool_name : string)
    (w : world) :
  NoDup (list_custom_tools a) →
  let a' := (remove_custom_tool env a tool_name w).1 in
  let w' := (remove_custom_tool env a tool_name w).2 in
  (∀ n, get_custom_tool a' n
        = if decide (n = tool_name) then None else get_custom_tool a n) ∧
  (get_custom_tool a tool_name = None → a' = a ∧ w' = w).
Proof.
  intros Hnodup a' w'. subst a' w'.
  unfold remove_custom_tool, get_custom_tool, list_custom_tools, PyDict.mem in *.
  destruct (custom_tools a) as [tools|] eqn:Htools.
  - destruct (PyDict.get tool_name tools) as [f|] eqn:Hget.
    + set (a1 := set_dirty true (set_tools _ a)).
      destruct (maybe_save_keeps_contents a1 w) as (Ht & _). cbn zeta in Ht.
      rewrite Ht. subst a1. cbn [custom_tools set_dirty set_tools].
      split; [|done]. intros n. rewrite get_del by done. by case_decide.
    + cbn [fst snd]. rewrite Htools. split; [|done].
      intros n. case_decide as Hn; [|done]. subst n. by rewrite Hget.
  - cbn [fst snd]. rewrite Htools. split; [|done]. intros n. by case_decide.
Qed.

(** X15: after [remove_custom_data], [get_custom_data] finds nothing under
    the removed key and answers as before for every other key; removing a
    key that is not there changes neither the agent nor the world. *)
Theorem remove_custom_data_then_get (a : PersistentA1) (data_key : string)
    (w : world) :
  NoDup (list_custom_data a) →
  let a' := (remove_custom_data env a data_key w).1 in
  let w' := (remove_custom_data env a data_key w).2 in
  (∀ k, get_custom_data a' k
        = if decide (k = data_key) then None else get_custom_data a k) ∧
  (get_custom_data a data_key = None → a' = a ∧ w' = w).
Proof.
  intros Hnodup a' w'. subst a' w'.
  unfold remove_custom_data, get_custom_data, list_custom_data, PyDict.mem in *.
  destruct (custom_data a) as [data|] eqn:Hdata.
  - destruct (PyDict.get data_key data) as [v|] eqn:Hget.
    + set (a1 := set_dirty true (set_data _ a)).
      destruct (maybe_save_keeps_contents a1 w) as (_ & Hd & _). cbn zeta in Hd.
      rewrite Hd. subst a1. cbn [custom_data set_dirty set_data].
      split; [|done]. intros k. by rewrite get_del.
    + cbn [fst snd]. rewrite Hdata. split; [|done].
      intros k. case_decide as Hk; [|done]. subst k. by rewrite Hget.
  - cbn [fst snd]. rewrite Hdata. split; [|done]. intros k. by case_decide.
Qed.

End Mutators.

(** ** Removing several keys *)

Section DictFolds.
Context {V : Type}.
Implicit Types (d : PyDict.t V) (k : string) (v : V).

Lemma elem_of_keys_get k d : k ∈ PyDict.keys d ↔ is_Some (PyDict.get k d).
Proof.
  destruct (PyDict.get k d) as [v|] eqn:Hget.
  - split; [done|]. intros _. by apply (get_Some_keys k v).
  - split; [|by intros [? ?]]. intros Hin. by apply get_None_keys in Hget.
Qed.

Lemma length_del k d :
  k ∈ PyDict.keys d → S (length (PyDict.del k d)) = length d.
Proof.
  induction d as [|[k0 v0] d IH]; cbn; [by intros ?%elem_of_nil|].
  destruct (String.eqb_spec k k0) as [->|Hne]; [done|].
  intros [?|Hin]%elem_of_cons; [done|]. cbn. by rewrite IH.
Qed.

Lemma get_foldl_del k (ks : list string) d :
  NoDup (PyDict.keys d) →
  PyDict.get k (foldl (fun d k' => PyDict.del k' d) d ks)
  = if decide (k ∈ ks) then None else PyDict.get k d.
Proof.
  revert d. induction ks as [|k0 ks IH]; intros d Hnodup; cbn.
  - rewrite decide_False; [done|]. apply not_elem_of_nil.
  - rewrite IH by by apply keys_del_NoDup. rewrite get_del by done.
    destruct (decide (k ∈ ks)) as [Hin|Hin].
    + rewrite decide_True; [done|]. by right.
    + case_decide as Hk; [subst|].
      * rewrite decide_True; [done|]. by left.
      * rewrite decide_False; [done|]. by intros [?|?]%elem_of_cons.
Qed.

Lemma keys_foldl_del_NoDup (ks : list string) d :
  NoDup (PyDict.keys d) →
  NoDup (PyDict.keys (foldl (fun d k' => PyDict.del k' d) d ks)).
Proof.
  revert d. induction ks as [|k0 ks IH]; intros d Hnodup; [done|].
  cbn. by apply IH, keys_del_NoDup.
Qed.

Lemma length_foldl_del (ks : list string) d :
  NoDup (PyDict.keys d) → NoDup ks → ks ⊆ PyDict.keys d →
  length ks + length (foldl (fun d k' => PyDict.del k' d) d ks) = length d.
Proof.
  revert d. induction ks as [|k0 ks IH]; intros d Hnodup Hks Hsub; [done|].
  apply NoDup_cons in Hks as [Hk0 Hks].
  cbn [foldl length]. rewrite <- (length_del k0 d) by (apply Hsub; by left).
  rewrite <- (IH (PyDict.del k0 d)); [lia|by apply keys_del_NoDup|done|].
  intros k Hk. apply elem_of_keys_get. rewrite get_del by done.
  rewrite decide_False by (intros ->; done).
  apply elem_of_keys_get, Hsub. by right.
Qed.

End DictFolds.

Lemma ends_with_app (sfx s : string) :
  ends_with sfx s = true → ∃ x, s = x +:+ sfx.
Proof.
  induction s as [|c s IH]; cbn [ends_with].
  - rewrite orb_false_r. intros ->%String.eqb_eq. by exists "".
  - intros [->%String.eqb_eq | Hs]%orb_prop; [by exists ""|].
    destruct (IH Hs) as [x ->]. by exists (String c x).
Qed.

(** The only [*.json] name with a given stem, the stem [.json] apart. *)
Lemma stem_json_name (n id : string) :
  ends_with ".json" n = true → stem n = id → id ≠ ".json" → n = id +:+ ".json".
Proof.
  intros [x ->]%ends_with_app. rewrite stem_state_name.
  case_decide; [by intros <-|by intros ->].
Qed.

(** ** The registry *)

Section ManagerMore.
Variable env : environment.

(** Loading keeps the identity of the agent. *)
Lemma same_load (a : PersistentA1) (w : world) :
  same_agent a (_load_persistent_state env a w).
Proof.
  unfold _load_persistent_state.
  destruct (fs w !! state_file a) as [text|]; [|done].
  destruct (loads text) as [state|e]; [|done].
  apply same_restore_field; [done|].
  apply same_restore_field.
  { intros b v. unfold _restore_custom_software.
    destruct (as_dict v); cbn; [|auto with agent].
    same_agent_step. auto with agent. }
  apply same_restore_field.
  { intros b v. unfold _restore_custom_data.
    destruct (as_dict v); cbn; [|auto with agent].
    same_agent_step. auto with agent. }
  apply same_restore_field; [apply same_restore_tools|done].
Qed.

Lemma init_identity (id dir : string) (kw : kwargs) (w : world) :
  agent_id (PersistentA1_init env id dir kw w) = id ∧
  state_dir (PersistentA1_init env id dir kw w) = dir.
Proof.
  unfold PersistentA1_init.
  by destruct (same_load (mkAgent id dir (default true (kw_auto_save kw)) false
                            None None None None (kw_attrs kw)) w) as (? & ? & _).
Qed.

(** Each method of the manager keeps the registry well formed. *)
Lemma create_agent_ok (m : GlobalAgentManager) (id : string) (overwrite : bool)
    (kw : kwargs) :
  registry_ok m → registry_ok (create_agent env m id overwrite kw).2.
Proof.
  intros [Hnodup Hreg]. unfold create_agent.
  assert (Hnew : registry_ok
    (mkManager (base_state_dir m) (PyDict.set id (length (objects m)) (_agents m))
       (objects m ++ [PersistentA1_init env id (states_dir m) kw (outside m)])
       (tmp_count m) (outside m))).
  { split; [by apply keys_set_NoDup|]. intros id' h. cbn [_agents objects].
    rewrite get_set. case_decide as Hid.
    - intros [= <-]. subst id'. eexists. split.
      + by rewrite lookup_app_r, Nat.sub_diag.
      + apply init_identity.
    - intros Hget. destruct (Hreg id' h Hget) as (a & Hobj & Ha).
      exists a. split; [|done]. by apply lookup_app_l_Some. }
  destruct (PyDict.get id (_agents m)) as [h|], overwrite; done.
Qed.

Lemma get_agent_ok (m : GlobalAgentManager) (id : string) (kw : kwargs) :
  registry_ok m → registry_ok (get_agent env m id kw).2.
Proof.
  intros Hm. unfold get_agent. destruct (PyDict.get id (_agents m)); [done|].
  by apply create_agent_ok.
Qed.

Lemma delete_agent_ok (m : GlobalAgentManager) (id : string) (remove_files : bool) :
  registry_ok m → registry_ok (delete_agent m id remove_files).
Proof.
  intros [Hnodup Hreg]. split; [by apply keys_del_NoDup|].
  intros id' h. cbn [delete_agent _agents objects]. rewrite get_del by done.
  case_decide; [done|]. apply Hreg.
Qed.

Lemma set_object_ok (m : GlobalAgentManager) (h : nat) (a a' : PersistentA1)
    (w : world) :
  registry_ok m → objects m !! h = Some a → same_agent a a' →
  registry_ok (set_outside w (set_object h a' m)).
Proof.
  intros [Hnodup Hreg] Hobj (Hid & Hdir & _). split; [done|].
  intros id h' Hget. destruct (Hreg id h' Hget) as (b & Hb & Hbid & Hbdir).
  cbn [set_outside set_object objects]. destruct (decide (h' = h)) as [->|Hne].
  - exists a'. rewrite list_lookup_insert_eq by by eapply lookup_lt_Some.
    split; [done|]. rewrite Hb in Hobj. injection Hobj as ->.
    by rewrite Hid, Hdir.
  - exists b. by rewrite list_lookup_insert_ne.
Qed.

Lemma clone_agent_ok (m : GlobalAgentManager) (source target : string) :
  registry_ok m → registry_ok (clone_agent env m source target).2.
Proof.
  intros Hm. unfold clone_agent.
  assert (Hsrc : ∃ h m1,
    match PyDict.get source (_agents m) with
    | None => get_agent env m source default_kwargs
    | Some h => (h, m)
    end = (h, m1) ∧ registry_ok m1).
  { destruct (PyDict.get source (_agents m)) as [h|] eqn:Hget.
    - by exists h, m.
    - pose proof (get_agent_ok m source default_kwargs Hm) as Hok.
      destruct (get_agent env m source default_kwargs) as [h m1]. by exists h, m1. }
  destruct Hsrc as (h & m1 & -> & Hm1).
  destruct (objects m1 !! h) as [source_agent|]; [|done].
  destruct (export_state env source_agent _ _) as [w1 [[]|e]]; [|done].
  match goal with |- context [create_agent env ?m2 target false default_kwargs] =>
    assert (Hm2 : registry_ok m2) by done;
    pose proof (create_agent_ok m2 target false default_kwargs Hm2) as Hm3;
    destruct (create_agent env m2 target false default_kwargs) as [tgt m3]
  end.
  destruct (objects m3 !! tgt) as [target_agent|] eqn:Htgt; [|done].
  match goal with |- context [import_state env target_agent ?p false ?w] =>
    pose proof (same_import_state env target_agent p false w) as Hsame;
    destruct (import_state env target_agent p false w) as [[target' w2] r]
  end.
  cbn [fst snd] in *. by apply (set_object_ok m3 tgt target_agent).
Qed.

End ManagerMore.

(** ** Deleting and cleaning up *)

Section ManagerTheorems.
Variable env : environment.
Variable expired : Path → bool.

Lemma unused_key (m : GlobalAgentManager) (entry : string * nat) (x : string) :
  unused expired m entry = Some x → x = entry.1.
Proof.
  unfold unused. destruct (objects m !! entry.2); [|done].
  destruct (_ && _); [|done]. by intros [= <-].
Qed.

Lemma to_remove_sublist (m : GlobalAgentManager) (d : PyDict.t nat) :
  omap (unused expired m) d `sublist_of` PyDict.keys d.
Proof.
  induction d as [|entry d IH]; [done|]. cbn.
  destruct (unused expired m entry) as [x|] eqn:Hx.
  - apply unused_key in Hx as ->. by apply sublist_skip.
  - by apply sublist_cons.
Qed.

Lemma elem_of_to_remove (m : GlobalAgentManager) (id : string) :
  NoDup (PyDict.keys (_agents m)) →
  id ∈ omap (unused expired m) (_agents m) →
  ∃ h, PyDict.get id (_agents m) = Some h ∧ unused expired m (id, h) = Some id.
Proof.
  intros Hnodup. rewrite list_elem_of_omap. intros ([id' h] & Hin & Hx).
  pose proof (unused_key _ _ _ Hx) as Hid. cbn in Hid. subst id'.
  exists h. split; [|done].
  revert Hnodup Hin. generalize (_agents m). intros d.
  induction d as [|[k v] d IH]; [by intros _ ?%elem_of_nil|].
  cbn. intros [Hk Hnodup]%NoDup_cons [[= -> ->]|Hin]%elem_of_cons.
  - by rewrite String.eqb_refl.
  - destruct (String.eqb_spec id k) as [->|Hne]; [|by apply IH].
    exfalso. apply Hk. apply list_elem_of_fmap. by exists (k, h).
Qed.

(** X16: [cleanup_unused_agents] forgets, and does nothing else. It leaves
    the files, the clock and the agents alone; the number it returns is
    the number of registry entries removed; no entry is added or rebound;
    an entry is removed exactly when the state file of its agent exists
    and is older than the cut-off, so an agent that has never been saved
    stays registered. *)
Theorem cleanup_unused_agents_forgets (m : GlobalAgentManager) :
  NoDup (PyDict.keys (_agents m)) →
  let n := (cleanup_unused_agents expired m).1 in
  let m' := (cleanup_unused_agents expired m).2 in
  outside m' = outside m ∧ objects m' = objects m ∧
  n + length (_agents m') = length (_agents m) ∧
  (∀ id h, PyDict.get id (_agents m') = Some h → PyDict.get id (_agents m) = Some h) ∧
  (∀ id h agent,
     PyDict.get id (_agents m) = Some h → objects m !! h = Some agent →
     (PyDict.get id (_agents m') = None ↔
      is_Some (fs (outside m) !! state_file agent) ∧
      expired (state_file agent) = true)).
Proof.
  intros Hnodup n m'. subst n m'. unfold cleanup_unused_agents. cbn [fst snd].
  cbn [outside objects _agents].
  pose proof (to_remove_sublist m (_agents m)) as Hsub.
  split; [done|]. split; [done|]. split; [|split].
  - apply length_foldl_del; [done|by eapply sublist_NoDup|].
    intros x Hx. by eapply elem_of_sublist.
  - intros id h. rewrite get_foldl_del by done. by case_decide.
  - intros id h agent Hget Hobj. rewrite get_foldl_del by done.
    case_decide as Hin.
    + split; [intros _|done].
      destruct (elem_of_to_remove m id Hnodup Hin) as (h' & Hget' & Hun).
      rewrite Hget in Hget'. injection Hget' as <-.
      unfold unused in Hun. cbn [snd] in Hun. rewrite Hobj in Hun.
      destruct (bool_decide _) eqn:Hfile; [|done].
      destruct (expired _) eqn:Hexp; [|done].
      by apply bool_decide_eq_true in Hfile.
    + rewrite Hget. split; [done|]. intros [Hfile Hexp]. exfalso. apply Hin.
      apply list_elem_of_omap. exists (id, h). split.
      * by apply get_Some_elem.
      * unfold unused. cbn [fst snd]. rewrite Hobj, Hexp.
        by rewrite bool_decide_eq_true_2.
Qed.

(** X17: an agent removed by [cleanup_unused_agents] is still listed by
    [list_agents], through its state file: for a registry whose ids are
    not empty and have no separator (the state file of such an id lies in
    the states directory, under the id), the listing is unchanged. *)
Theorem cleanup_keeps_listing (m : GlobalAgentManager) (x : string) :
  registry_ok m →
  Forall (fun id => no_separator id = true ∧ id ≠ "") (in_memory m) →
  x ∈ list_agents (cleanup_unused_agents expired m).2 ↔ x ∈ list_agents m.
Proof.
  intros [Hnodup Hreg] Hids. rewrite !elem_of_list_agents.
  assert (Hdisk : on_disk (cleanup_unused_agents expired m).2 = on_disk m) by done.
  rewrite Hdisk. unfold in_memory. rewrite !elem_of_keys_get.
  unfold cleanup_unused_agents. cbn [snd _agents].
  rewrite get_foldl_del by done. case_decide as Hin; [|done].
  split; [intros [[? ?]|?]; [done|by right]|]. intros _. right.
  destruct (elem_of_to_remove m x Hnodup Hin) as (h & Hget & Hun).
  destruct (Hreg x h Hget) as (a & Hobj & Hid & Hdir).
  rewrite Forall_forall in Hids.
  destruct (Hids x) as [Hsep Hne]; [by eapply get_Some_keys|].
  unfold unused in Hun. cbn [snd] in Hun. rewrite Hobj in Hun.
  destruct (bool_decide _) eqn:Hfile; [|done].
  apply bool_decide_eq_true in Hfile.
  apply elem_of_on_disk. exists (state_file a). split; [done|].
  rewrite state_file_plain by by rewrite Hid.
  cbn [parent name]. rewrite Hid, Hdir.
  split; [done|]. split; [apply ends_with_json|].
  rewrite stem_state_name. by rewrite decide_False.
Qed.

(** X18: [delete_agent] and [list_agents], for an id that is a file name
    (one path component, not [..]).  After a deletion with
    [remove_files=True] the id is no longer listed (for every id but
    [.json], which is also the stem of the state file of the empty id),
    and the listing of every other id is unchanged: the directories
    removed hold no state file.  After a deletion with
    [remove_files=False] an agent that has a state file is still
    listed. *)
Theorem delete_agent_listing (m : GlobalAgentManager) (agent_id : string) :
  NoDup (PyDict.keys (_agents m)) → is_file_name agent_id = true →
  (agent_id ≠ ".json" → agent_id ∉ list_agents (delete_agent m agent_id true)) ∧
  (∀ x, x ≠ agent_id →
     x ∈ list_agents (delete_agent m agent_id true) ↔ x ∈ list_agents m) ∧
  (is_Some (fs (outside m) !! mkPath (states_dir m) (agent_id +:+ ".json")) →
   agent_id ∈ list_agents (delete_agent m agent_id false)).
Proof.
  intros Hnodup Hname.
  assert (Hsep : no_separator agent_id = true).
  { unfold is_file_name in Hname. by apply andb_prop in Hname as [[? _]%andb_prop _]. }
  assert (Hne : agent_id ≠ "").
  { intros ->. done. }
  assert (Hfs : ∀ p, parent p = states_dir m →
    fs (outside (delete_agent m agent_id true)) !! p
    = delete (mkPath (states_dir m) (agent_id +:+ ".json")) (fs (outside m)) !! p).
  { intros p Hp. cbn [delete_agent outside fs].
    rewrite !joindir_file_name, joinpath_plain by done.
    rewrite !rmtree_lookup; [done| |].
    - destruct (under _ p) eqn:Hu; [|done].
      by apply (under_subdirectory (states_dir m) "tools") in Hu.
    - destruct (under _ p) eqn:Hu; [|done].
      by apply (under_subdirectory (states_dir m) "data") in Hu. }
  split; [|split].
  - intros Hid. rewrite elem_of_list_agents. intros [Hmem|Hdisk].
    + unfold in_memory in Hmem. apply elem_of_keys_get in Hmem.
      cbn [delete_agent _agents] in Hmem. rewrite get_del in Hmem by done.
      rewrite decide_True in Hmem by done. by destruct Hmem.
    + apply elem_of_on_disk in Hdisk as (p & Hp & Hdir & Hend & Hstem).
      pose proof (stem_json_name _ _ Hend Hstem Hid) as Hname'.
      rewrite (Hfs p Hdir) in Hp.
      destruct p as [dir n]. cbn [parent name] in *. subst dir n.
      rewrite lookup_delete_eq in Hp. by destruct Hp.
  - intros x Hx. rewrite !elem_of_list_agents. unfold in_memory.
    rewrite !elem_of_keys_get. cbn [delete_agent _agents].
    rewrite get_del by done. rewrite decide_False by done.
    rewrite !elem_of_on_disk.
    apply or_iff_compat_l. split.
    + intros (p & Hp & Hdir & Hend & Hstem). exists p. split; [|done].
      rewrite (Hfs p Hdir) in Hp.
      destruct Hp as [t Hp]. apply lookup_delete_Some in Hp as [_ Hp].
      by exists t.
    + intros (p & Hp & Hdir & Hend & Hstem). exists p. split; [|done].
      change (states_dir (delete_agent m agent_id true)) with (states_dir m) in *.
      rewrite (Hfs p Hdir).
      destruct Hp as [t Hp]. exists t. apply lookup_delete_Some. split; [|done].
      intros <-. cbn [name] in Hstem. rewrite stem_state_name in Hstem.
      rewrite decide_False in Hstem by done. by apply Hx.
  - intros Hfile. rewrite elem_of_list_agents. right. apply elem_of_on_disk.
    exists (mkPath (states_dir m) (agent_id +:+ ".json")). cbn [parent name].
    split; [done|]. split; [done|]. split; [apply ends_with_json|].
    rewrite stem_state_name. by rewrite decide_False.
Qed.

(** X19: what the registry keeps true. If ids are registered once and
    every registered reference denotes an agent carrying its id and the
    states directory of the manager, the same holds after [create_agent]
    (with or without [overwrite]), [get_agent], [delete_agent],
    [clone_agent] and [cleanup_unused_agents]. *)
Theorem registry_invariant (m : GlobalAgentManager) (id id' : string)
    (flag : bool) (kw : kwargs) :
  registry_ok m →
  registry_ok (create_agent env m id flag kw).2 ∧
  registry_ok (get_agent env m id kw).2 ∧
  registry_ok (delete_agent m id flag) ∧
  registry_ok (clone_agent env m id id').2 ∧
  registry_ok (cleanup_unused_agents expired m).2.
Proof.
  intros Hm. split; [by apply create_agent_ok|]. split; [by apply get_agent_ok|].
  split; [by apply delete_agent_ok|]. split; [by apply clone_agent_ok|].
  destruct Hm as [Hnodup Hreg]. split.
  - by apply keys_foldl_del_NoDup.
  - intros x h. unfold cleanup_unused_agents. cbn [snd _agents objects].
    rewrite get_foldl_del by done. case_decide; [done|]. apply Hreg.
Qed.

End ManagerTheorems.

(** ** Cloning a registered agent *)

Section CloneTheorems.
Variable env : environment.

Lemma create_agent_registers (m : GlobalAgentManager) (id : string) (kw : kwargs) :
  registry_ok m →
  let r := create_agent env m id false kw in
  PyDict.get id (_agents r.2) = Some r.1 ∧ outside r.2 = outside m ∧
  is_Some (objects r.2 !! r.1).
Proof.
  intros Hm r. pose proof (create_agent_ok env m id false kw Hm) as [_ Hreg].
  fold r in Hreg.
  assert (Hget : PyDict.get id (_agents r.2) = Some r.1).
  { subst r. unfold create_agent.
    destruct (PyDict.get id (_agents m)) as [h|] eqn:Hid; [done|].
    cbn. apply get_set_eq. }
  split; [done|]. split.
  - subst r. unfold create_agent. by destruct (PyDict.get id (_agents m)).
  - destruct (Hreg _ _ Hget) as (a & Ha & _). by rewrite Ha.
Qed.

(** X20: cloning a registered agent whose state can be encoded. The call
    returns the agent registered under the target id; that agent holds
    exactly the data and software references of the source, and binds a
    tool name exactly when the exported record decodes; the temporary file
    is gone. *)
Theorem clone_agent_copies (m : GlobalAgentManager) (source target : string)
    (h : nat) (a : PersistentA1) :
  registry_ok m →
  PyDict.get source (_agents m) = Some h → objects m !! h = Some a →
  encodable (exported_state env a (clock (outside m))).1 = true →
  well_keyed (exported_state env a (clock (outside m))).1 = true →
  ∃ tgt b,
    (clone_agent env m source target).1 = Ret tgt ∧
    let m' := (clone_agent env m source target).2 in
    PyDict.get target (_agents m') = Some tgt ∧
    objects m' !! tgt = Some b ∧
    custom_data b = Some (default [] (custom_data a)) ∧
    custom_software b = Some (default [] (custom_software a)) ∧
    (∀ n, PyDict.get n (default [] (custom_tools b))
          = PyDict.get n (_serialize_custom_tools env a
                            (S (clock (outside m)))).1 ≫= decode_entry env) ∧
    fs (outside m') !! tmp_name env (tmp_count m) = None.
Proof.
  intros Hm Hsrc Hobj Henc Hkeys. unfold clone_agent. rewrite Hsrc, Hobj.
  set (temp_path := tmp_name env (tmp_count m)).
  set (w0 := mkWorld (apply_op (fs (outside m)) (OpenW temp_path))
               (clock (outside m))).
  cbn [outside].
  destruct (export_outcome env a temp_path w0) as (_ & _ & Hres). cbn zeta in Hres.
  change (clock w0) with (clock (outside m)) in Hres.
  rewrite (iterencode_encodable _ Henc 0) in Hres.
  destruct (export_state env a temp_path w0) as [w1 r1] eqn:Hexport.
  cbn [snd] in Hres. subst r1.
  set (m2 := set_outside w1 _).
  assert (Hm2 : registry_ok m2) by exact Hm.
  destruct (create_agent_registers m2 target default_kwargs Hm2)
    as (Hget & Hout & [target_agent Htgt]).
  destruct (create_agent env m2 target false default_kwargs) as [tgt m3].
  cbn [fst snd] in Hget, Hout, Htgt. rewrite Htgt.
  destruct (import_exported env a target_agent temp_path w0 Henc Hkeys)
    as (b' & w2 & Himport & Hdata & Hsoft & Htools).
  rewrite Hexport in Himport. cbn [fst] in Himport.
  change (outside m2) with w1 in Hout. rewrite Hout, Himport.
  exists tgt, b'. split; [done|]. cbn [snd set_outside set_object _agents objects outside fs].
  split; [done|]. split.
  - apply list_lookup_insert_eq. by eapply lookup_lt_Some.
  - split; [done|]. split; [done|]. split; [done|]. apply lookup_delete_eq.
Qed.

End CloneTheorems.

(** * Further runs in the sample world *)

Lemma registry_ok_empty (m : GlobalAgentManager) : _agents m = [] → registry_ok m.
Proof. intros Hm. split; rewrite Hm; [apply NoDup_nil_2|done]. Qed.

Lemma loaded_manager_ok : registry_ok loaded_manager.
Proof. by apply get_agent_ok, registry_ok_empty. Qed.

Ltac by_computation := vm_compute; first [reflexivity | exact I].
Ltac nodup_by_computation :=
  match goal with
  | |- NoDup ?l => apply (bool_decide_unpack (NoDup l)); vm_compute; exact I
  end.



(** X7: the agent with the typed tool cannot be saved. *)
Lemma annotated_tool_blocks_save_witness :
  (save_state sample_env typed_agent empty_world).1 = typed_agent ∧
  fs (save_state sample_env typed_agent empty_world).2 !! state_file typed_agent
  = fs empty_world !! state_file typed_agent.
Proof.
  refine (annotated_tool_blocks_save sample_env typed_agent empty_world
            [("typed", tool_typed)] "typed" tool_typed "gASVdA==" _ _ _ _ _ _ _);
    first [nodup_by_computation | by_computation].
Defined.


(** X9: the receiver, after a replacing import of the snapshot, has the
    references of the donor. *)
Lemma export_then_import_witness :
  ∃ b' w',
    import_state sample_env (receiver true) snapshot_path false world_with_snapshot
    = (b', w', Ret ()) ∧
    custom_data b' = custom_data donor ∧
    custom_software b' = custom_software donor.
Proof.
  destruct (export_then_import sample_env donor (receiver true) snapshot_path
              empty_world) as (b' & w' & Himport & _ & Hdata & Hsoft & _);
    [by_computation|by_computation|].
  exists b', w'. split; [exact Himport|]. split; [exact Hdata|exact Hsoft].
Defined.

(** X10: a replacing import of the snapshot whose tools are a list raises
    and leaves the receiver empty. *)
Lemma import_state_bad_tools_witness :
  ∃ a', import_state sample_env (receiver true) snapshot_path false bad_snapshot_world
        = (a', bad_snapshot_world, Raise (mkExn AttributeError "items")) ∧
    list_custom_tools a' = [] ∧ list_custom_data a' = [].
Proof.
  destruct (import_state_bad_tools sample_env (receiver true) snapshot_path false
              bad_snapshot_world
              (concat_chunks (iterencode 0 (JDict [("custom_tools", JList [])])).1)
              [("custom_tools", JList [])] (JList [])
              (mkExn AttributeError "items"))
    as (a' & Himport & _ & _ & Htools & Hdata & _);
    [vm_compute; reflexivity..|].
  exists a'. split; [exact Himport|].
  unfold list_custom_tools, list_custom_data. rewrite Htools, Hdata. by split.
Defined.

(** X12: a new description replaces the one of [y.csv]. *)
Lemma add_data_then_get_witness :
  get_custom_data
    (add_data sample_env (receiver true) [("y.csv", "recount")] (Ret JNull)
       empty_world).1.1 "y.csv"
  = Some (JStr "recount").
Proof.
  refine (add_data_then_get sample_env (receiver true) [("y.csv", "recount")]
            JNull empty_world "y.csv" _).
  nodup_by_computation.
Defined.

(** X13: adding [z-lib] leaves [x-lib] as it was. *)
Lemma add_software_then_get_witness :
  PyDict.get "x-lib"
    (default []
       (custom_software
          (add_software sample_env (receiver true) [("z-lib", "0.1")] false
             (Ret JNull) empty_world).1.1))
  = Some (JStr "1.0").
Proof.
  refine (add_software_then_get sample_env (receiver true) [("z-lib", "0.1")]
            false JNull empty_world "x-lib" _).
  nodup_by_computation.
Defined.

(** X14: the tool [x] is gone once removed. *)
Lemma remove_custom_tool_then_get_witness :
  get_custom_tool (remove_custom_tool sample_env (receiver true) "x" empty_world).1 "x"
  = None.
Proof.
  refine (proj1 (remove_custom_tool_then_get sample_env (receiver true) "x"
                   empty_world _) "x").
  nodup_by_computation.
Defined.

(** X15: removing [x.csv] leaves [y.csv]. *)
Lemma remove_custom_data_then_get_witness :
  get_custom_data
    (remove_custom_data sample_env (receiver true) "x.csv" empty_world).1 "y.csv"
  = Some (JStr "counts").
Proof.
  refine (proj1 (remove_custom_data_then_get sample_env (receiver true) "x.csv"
                   empty_world _) "y.csv").
  nodup_by_computation.
Defined.

(** X16: the cleanup removes [alice] from the registry and nothing from
    the disk. *)
Lemma cleanup_unused_agents_forgets_witness :
  (cleanup_unused_agents always_expired loaded_manager).1 = 1 ∧
  outside (cleanup_unused_agents always_expired loaded_manager).2
  = outside loaded_manager.
Proof.
  destruct (cleanup_unused_agents_forgets always_expired loaded_manager)
    as (Hout & _); [nodup_by_computation|].
  split; [reflexivity|exact Hout].
Defined.

(** X17: [alice] is listed after the cleanup just as before. *)
Lemma cleanup_keeps_listing_witness :
  "alice" ∈ list_agents (cleanup_unused_agents always_expired loaded_manager).2
  ↔ "alice" ∈ list_agents loaded_manager.
Proof.
  apply (cleanup_keeps_listing always_expired loaded_manager "alice").
  - exact loaded_manager_ok.
  - repeat constructor; discriminate.
Defined.

(** X18: [alice] is listed after a deletion that keeps her file and not
    after one that removes it. *)
Lemma delete_agent_listing_witness :
  "alice" ∈ list_agents (delete_agent loaded_manager "alice" false) ∧
  ¬ "alice" ∈ list_agents (delete_agent loaded_manager "alice" true).
Proof.
  destruct (delete_agent_listing loaded_manager "alice") as (Hgone & _ & Hkept);
    [nodup_by_computation|reflexivity|].
  split.
  - apply Hkept. eexists. vm_compute. reflexivity.
  - apply Hgone. discriminate.
Defined.

(** X19: the registry of the later manager after a clone and after a
    cleanup. *)
Lemma registry_invariant_witness :
  registry_ok (clone_agent sample_env loaded_manager "alice" "bob").2 ∧
  registry_ok (cleanup_unused_agents always_expired loaded_manager).2.
Proof.
  destruct (registry_invariant sample_env always_expired loaded_manager
              "alice" "bob" true default_kwargs loaded_manager_ok)
    as (_ & _ & _ & Hclone & Hcleanup).
  by split.
Defined.

(** X20: the clone [bob] of [alice] has her tool [x]. *)
Lemma clone_agent_copies_witness :
  ∃ tgt b,
    (clone_agent sample_env loaded_manager "alice" "bob").1 = Ret tgt ∧
    objects (clone_agent sample_env loaded_manager "alice" "bob").2 !! tgt = Some b ∧
    PyDict.get "x" (default [] (custom_tools b)) = Some tool_x.
Proof.
  destruct (clone_agent_copies sample_env loaded_manager "alice" "bob" 0
              (PersistentA1_init sample_env "alice" (states_dir later_manager)
                 default_kwargs (outside later_manager)))
    as (tgt & b & Hret & _ & Hobj & _ & _ & Htools & _);
    [exact loaded_manager_ok|by_computation..|].
  exists tgt, b. split; [exact Hret|]. split; [exact Hobj|].
  rewrite Htools. by_computation.
Defined.

(** X4: the records of the receiver are those of [x] and [y]. *)
Lemma serialize_custom_tools_records_witness :
  PyDict.keys (_serialize_custom_tools sample_env (receiver true) 0).1 = ["x"; "y"].
Proof.
  refine (proj1 (serialize_custom_tools_records sample_env (receiver true) 0 _)).
  nodup_by_computation.
Defined.

(** X1: the snapshot exported by the donor is read back as the exported
    state. *)
Lemma dumps_then_loads_witness :
  loads snapshot_text = Ret (exported_state sample_env donor 0).1.
Proof.
  apply dumps_then_loads; by_computation.
Defined.

